(** * The record/heap file layer (rhf.c) over the paged file interface (pf.h)

    A shallow embedding of [src/pflayer/rhf.c].  A page is the 4096 bytes
    the C code sees through [char *pageBuf]; the header and the slots are
    read and written as little-endian 32-bit [int]s at the byte offsets the
    macros [GET_HEADER], [GET_SLOT] and [GET_RECORD] compute.  An access
    outside the page buffer, or a [memcpy] with a negative size, has no
    defined behaviour in C: the embedding gives it the outcome [Undef].
    The two helpers of [src/pflayer/testrhf.c] that make the records of the
    test, [get_random_name] and [get_record_size], are embedded as well. *)

From Stdlib Require Import ZArith Lia List Bool.
From stdpp Require Import base option list sorting.
Import ListNotations.



Local Open Scope Z_scope.

(** ** Outcomes *)

Inductive outcome (A : Type) : Type :=
| Ret (a : A)      (* the call returns *)
| Undef            (* undefined behaviour of the C program *)
| Fuel.            (* the loop bound of the embedding was reached *)

Arguments Ret {A} a.
Arguments Undef {A}.
Arguments Fuel {A}.

Definition obind {A B : Type} (m : outcome A) (k : A -> outcome B) : outcome B :=
  match m with
  | Ret a => k a
  | Undef => Undef
  | Fuel => Fuel
  end.

Definition of_option {A : Type} (o : option A) : outcome A :=
  match o with
  | Some a => Ret a
  | None => Undef
  end.

Notation "x <-- m ;; k" := (obind m (fun x => k))
  (at level 100, m at next level, right associativity).

(** ** Machine integers and bytes *)

(** A C [int] is 32 bits, two's complement. *)
Definition wrap32 (z : Z) : Z := (z + 2147483648) mod 4294967296 - 2147483648.

(** A byte of the page is a [Z]; only its value modulo 256 matters when it
    is read as part of an [int]. *)
Definition page := list Z.

Definition int_bytes (v : Z) : list Z :=
  [v mod 256; (v / 256) mod 256; (v / 65536) mod 256; (v / 16777216) mod 256].

Definition bytes_int (bs : list Z) : Z :=
  match bs with
  | [b0; b1; b2; b3] =>
      wrap32 (b0 mod 256 + 256 * (b1 mod 256) + 65536 * (b2 mod 256)
              + 16777216 * (b3 mod 256))
  | _ => 0
  end.

Definition in_buf (pg : list Z) (off len : Z) : bool :=
  (0 <=? off) && (0 <=? len) && (off + len <=? Z.of_nat (length pg)).

Definition load_bytes (pg : list Z) (off len : Z) : option (list Z) :=
  if in_buf pg off len
  then Some (take (Z.to_nat len) (drop (Z.to_nat off) pg))
  else None.

Definition store_bytes (pg : list Z) (off : Z) (bs : list Z) : option (list Z) :=
  if in_buf pg off (Z.of_nat (length bs))
  then Some (take (Z.to_nat off) pg ++ bs ++ drop (Z.to_nat off + length bs)%nat pg)
  else None.

Definition load_int (pg : page) (off : Z) : outcome Z :=
  of_option (bytes_int <$> load_bytes pg off 4).

Definition store_int (pg : page) (off v : Z) : outcome page :=
  of_option (store_bytes pg off (int_bytes v)).

(** [memcpy(page + off, src, n)]: [n] is converted to [size_t], so a
    negative [n] asks for more bytes than any buffer holds. *)
Definition memcpy_to_page (pg : page) (off : Z) (src : list Z) (n : Z) : outcome page :=
  if (n <? 0) || (Z.of_nat (length src) <? n) then Undef
  else of_option (store_bytes pg off (take (Z.to_nat n) src)).

(** [memcpy(dst, page + off, n)] into the caller's buffer [dst]. *)
Definition memcpy_from_page (dst : list Z) (pg : page) (off n : Z) : outcome (list Z) :=
  if (n <? 0) || (Z.of_nat (length dst) <? n) then Undef
  else bs <-- of_option (load_bytes pg off n) ;;
       Ret (bs ++ drop (Z.to_nat n) dst).

(** ** Constants of pf.h and rhf.h *)

Definition PFE_OK : Z := 0.
Definition PFE_NOBUF : Z := -2.
Definition PFE_PAGENOTINBUF : Z := -4.
Definition PFE_INVALIDPAGE : Z := -10.
Definition PFE_FD : Z := -13.
Definition PFE_EOF : Z := -14.
Definition PFE_PAGEUNFIXED : Z := -16.
Definition PF_PAGE_SIZE : Z := 4096.
Definition PF_STRAT_LRU : Z := 0.
Definition PF_STRAT_MRU : Z := 1.

Definition RHF_OK : Z := 0.
Definition RHF_EOF : Z := -20.
Definition RHF_PAGEFULL : Z := -21.
Definition RHF_INVALIDRID : Z := -22.
Definition RHF_NORECORD : Z := -23.
Definition RHF_NOMEM : Z := -24.

(** [sizeof(RHF_PageHeader)] and [sizeof(RHF_Slot)]: three and two [int]s. *)
Definition SIZEOF_HEADER : Z := 12.
Definition SIZEOF_SLOT : Z := 8.

(** Byte offsets of the header fields and of the fields of slot [s]
    ([GET_SLOT(page, s)] is [page + sizeof(RHF_PageHeader) + s * sizeof(RHF_Slot)]). *)
Definition OFF_numSlots : Z := 0.
Definition OFF_freeSpacePtr : Z := 4.
Definition OFF_nextFreeSlot : Z := 8.
Definition OFF_recordOffset (s : Z) : Z := SIZEOF_HEADER + s * SIZEOF_SLOT.
Definition OFF_recordLength (s : Z) : Z := SIZEOF_HEADER + s * SIZEOF_SLOT + 4.

Record RID : Type := mkRID { pageNum : Z; slotNum : Z }.

Record RHF_Scan : Type := mkScan {
  scan_fd : Z;
  currentPage : Z;
  currentSlot : Z;
  pageBuf : option Z;       (* NULL, or the buffer of the page with that number *)
  page_is_fixed : Z
}.

(** ** The paged file layer *)

(** Modelled from the spec: the functions [PF_GetThisPage], [PF_GetNextPage],
    [PF_AllocPage] and [PF_UnfixPage] that pf.h declares and rhf.c calls;
    their file, pf.c, is not among the sources.  The state is that of one
    open file and of the buffer pool, as far as the callers of these four
    functions can observe it: per page its bytes (the frame's when the page
    is resident, the disk's otherwise: a dirty frame is written back before
    it is reused), its pin count and its dirty flag; the free-page list; the
    victim list of unpinned resident pages, most recently used first; the
    number of frames and the replacement strategy.  A page is resident when
    it is pinned or on the victim list.  The statistics counters are left
    out.  The model has one copy of the bytes of a page, which is what the
    layer shows its callers as long as every page they change is dirty when
    they unfix it: a frame changed and unfixed clean would be reused
    without a write.  That the calls of rhf.c leave dirty what they changed
    is stated apart, as [writes_flagged], and proved of each of them. *)
Record pf_state : Type := mkPF {
  pf_fd : Z;
  pf_bufsize : nat;
  pf_strategy : Z;
  pf_data : list page;
  pf_pin : list nat;
  pf_dirty : list bool;
  pf_free : list nat;
  pf_victims : list nat
}.

Definition set_data (st : pf_state) (d : list page) : pf_state :=
  mkPF (pf_fd st) (pf_bufsize st) (pf_strategy st) d (pf_pin st) (pf_dirty st)
       (pf_free st) (pf_victims st).

Definition num_pages (st : pf_state) : nat := length (pf_data st).

(** The pin count and the dirty flag of page [p]. *)
Definition pin_count (st : pf_state) (p : nat) : nat := default 0%nat (pf_pin st !! p).
Definition dirty_flag (st : pf_state) (p : nat) : bool := default false (pf_dirty st !! p).

Definition is_pinned (n : nat) : bool := negb (Nat.eqb n 0).

Definition pinned_frames (st : pf_state) : nat :=
  length (filter (fun n => is_pinned n = true) (pf_pin st)).

Definition frames_in_use (st : pf_state) : nat :=
  (pinned_frames st + length (pf_victims st))%nat.

Definition remove_page (p : nat) (l : list nat) : list nat :=
  filter (fun q => q <> p) l.

Definition in_list (p : nat) (l : list nat) : bool := bool_decide (p ∈ l).

(** Modelled from the spec: [select_victim] of the replacement policy; LRU
    takes the tail of the victim list, MRU its head. *)
Definition select_victim (st : pf_state) : option nat :=
  if pf_strategy st =? PF_STRAT_MRU then head (pf_victims st) else last (pf_victims st).

(** Modelled from the spec: the miss path's search for a frame: an empty
    frame if there is one, else a victim, written back if dirty; no victim
    means [no_buffer].  With one copy of the bytes, the write back of a
    dirty victim is the end of its dirty flag. *)
Definition pf_get_frame (st : pf_state) : option pf_state :=
  if (frames_in_use st <? pf_bufsize st)%nat then Some st
  else match select_victim st with
       | None => None
       | Some v =>
           Some (mkPF (pf_fd st) (pf_bufsize st) (pf_strategy st) (pf_data st)
                      (pf_pin st) (<[v := false]> (pf_dirty st)) (pf_free st)
                      (remove_page v (pf_victims st)))
       end.

(** Modelled from the spec: the flow shared by all fix operations, for an
    allocated page [p]. *)
Definition pf_fix (p : nat) (st : pf_state) : Z * pf_state :=
  match pf_pin st !! p with
  | None => (PFE_INVALIDPAGE, st)
  | Some n =>
      if is_pinned n || in_list p (pf_victims st) then
        (PFE_OK,
         mkPF (pf_fd st) (pf_bufsize st) (pf_strategy st) (pf_data st)
              (<[p := S n]> (pf_pin st)) (pf_dirty st) (pf_free st)
              (if is_pinned n then pf_victims st else remove_page p (pf_victims st)))
      else
        match pf_get_frame st with
        | None => (PFE_NOBUF, st)
        | Some st1 =>
            (PFE_OK,
             mkPF (pf_fd st1) (pf_bufsize st1) (pf_strategy st1) (pf_data st1)
                  (<[p := 1%nat]> (pf_pin st1)) (<[p := false]> (pf_dirty st1))
                  (pf_free st1) (pf_victims st1))
        end
  end.

(** The pin and dirty tables describe the pages of the file, and the free
    list names pages of the file, each once. *)
Definition pf_wf (st : pf_state) : Prop :=
  length (pf_pin st) = length (pf_data st) /\
  length (pf_dirty st) = length (pf_data st) /\
  Forall (fun p => (p < length (pf_data st))%nat) (pf_free st) /\
  NoDup (pf_free st).

(** Every page buffer has [PF_PAGE_SIZE] bytes. *)
Definition pages_sized (st : pf_state) : Prop :=
  Forall (fun pg : page => Z.of_nat (length pg) = PF_PAGE_SIZE) (pf_data st).

(** Two states with the same file, pages and pin counts, the second with no
    page newly dirty: what a page fixed and then unfixed clean leaves. *)
Definition pf_same (st st' : pf_state) : Prop :=
  pf_fd st' = pf_fd st /\ pf_bufsize st' = pf_bufsize st /\
  pf_strategy st' = pf_strategy st /\ pf_data st' = pf_data st /\
  pf_pin st' = pf_pin st /\ pf_free st' = pf_free st /\
  length (pf_dirty st') = length (pf_dirty st) /\
  (forall q, pf_dirty st' !! q = Some true -> pf_dirty st !! q = Some true).

Definition valid_page (st : pf_state) (p : Z) : bool :=
  (0 <=? p) && (p <? Z.of_nat (num_pages st)) && negb (in_list (Z.to_nat p) (pf_free st)).

(** Modelled from the spec: [fix_this]. *)
Definition PF_GetThisPage (fd pagenum : Z) (st : pf_state) : Z * pf_state :=
  if negb (fd =? pf_fd st) then (PFE_FD, st)
  else if negb (valid_page st pagenum) then (PFE_INVALIDPAGE, st)
  else pf_fix (Z.to_nat pagenum) st.

(** The smallest valid page number among [from], [from + 1], ..., [from + n - 1]. *)
Fixpoint next_valid (st : pf_state) (n : nat) (from : Z) : option Z :=
  match n with
  | O => None
  | S n' => if valid_page st from then Some from else next_valid st n' (from + 1)
  end.

(** Modelled from the spec: [fix_next]; the caller's page number is updated
    only on success. *)
Definition PF_GetNextPage (fd pagenum : Z) (st : pf_state) : Z * Z * pf_state :=
  if negb (fd =? pf_fd st) then (PFE_FD, pagenum, st)
  else
    let from := Z.max 0 (pagenum + 1) in
    match next_valid st (num_pages st - Z.to_nat from) from with
    | None => (PFE_EOF, pagenum, st)
    | Some p =>
        let '(rc, st1) := pf_fix (Z.to_nat p) st in
        if rc =? PFE_OK then (PFE_OK, p, st1) else (rc, pagenum, st)
    end.

Definition zero_page : page := repeat 0 (Z.to_nat PF_PAGE_SIZE).

(** Modelled from the spec: [alloc]; the head of the free list is reused and
    zeroed, else the file grows by one zeroed page; the page is returned
    pinned once and dirty. *)
Definition PF_AllocPage (fd : Z) (st : pf_state) : Z * Z * pf_state :=
  if negb (fd =? pf_fd st) then (PFE_FD, 0, st)
  else
    match pf_free st with
    | p :: rest =>
        let '(rc, st1) := pf_fix p st in
        if rc =? PFE_OK then
          (PFE_OK, Z.of_nat p,
           mkPF (pf_fd st1) (pf_bufsize st1) (pf_strategy st1)
                (<[p := zero_page]> (pf_data st1)) (pf_pin st1)
                (<[p := true]> (pf_dirty st1)) rest (pf_victims st1))
        else (rc, 0, st)
    | [] =>
        match pf_get_frame st with
        | None => (PFE_NOBUF, 0, st)
        | Some st1 =>
            (PFE_OK, Z.of_nat (num_pages st),
             mkPF (pf_fd st1) (pf_bufsize st1) (pf_strategy st1)
                  (pf_data st1 ++ [zero_page]) (pf_pin st1 ++ [1%nat])
                  (pf_dirty st1 ++ [true]) (pf_free st1) (pf_victims st1))
        end
    end.

(** Modelled from the spec: [unfix]. *)
Definition PF_UnfixPage (fd pagenum : Z) (dirty : bool) (st : pf_state) : Z * pf_state :=
  if negb (fd =? pf_fd st) then (PFE_FD, st)
  else
    let p := Z.to_nat pagenum in
    match (if 0 <=? pagenum then pf_pin st !! p else None) with
    | None => (PFE_PAGENOTINBUF, st)
    | Some O =>
        if in_list p (pf_victims st) then (PFE_PAGEUNFIXED, st)
        else (PFE_PAGENOTINBUF, st)
    | Some (S n) =>
        (PFE_OK,
         mkPF (pf_fd st) (pf_bufsize st) (pf_strategy st) (pf_data st)
              (<[p := n]> (pf_pin st))
              (if dirty then <[p := true]> (pf_dirty st) else pf_dirty st)
              (pf_free st)
              (if Nat.eqb n 0 then p :: pf_victims st else pf_victims st))
    end.

(** The buffer a fixed page's pointer designates, and a write through it. *)
Definition page_at (st : pf_state) (p : Z) : outcome page :=
  if p <? 0 then Undef else of_option (pf_data st !! Z.to_nat p).

Definition put_page (st : pf_state) (p : Z) (pg : page) : pf_state :=
  set_data st (<[Z.to_nat p := pg]> (pf_data st)).

(** ** rhf.c *)

Definition rhf_InitPage (pg : page) : outcome page :=
  pg1 <-- store_int pg OFF_numSlots 0 ;;
  pg2 <-- store_int pg1 OFF_freeSpacePtr PF_PAGE_SIZE ;;
  store_int pg2 OFF_nextFreeSlot (-1).

(** The test of the loop body of [rhf_GetPageWithSpace]: [sizeof] is
    unsigned and 64 bits wide, and the result is converted back to [int]
    when it is stored in [freeSpace]; that keeps its low 32 bits. *)
Definition page_free_space (pg : page) : outcome Z :=
  fsp <-- load_int pg OFF_freeSpacePtr ;;
  ns <-- load_int pg OFF_numSlots ;;
  Ret (wrap32 (fsp - (SIZEOF_HEADER + ns * SIZEOF_SLOT))).

Definition page_has_space (pg : page) (length : Z) : outcome bool :=
  nfs <-- load_int pg OFF_nextFreeSlot ;;
  let spaceNeededForSlot := if nfs =? -1 then SIZEOF_SLOT else 0 in
  freeSpace <-- page_free_space pg ;;
  Ret (freeSpace >=? wrap32 (length + spaceNeededForSlot)).

(** The [while] loop of [rhf_GetPageWithSpace], from the page after [pnum];
    the result is the return code, [*pageNum] and the state. *)
Fixpoint rhf_GetPageWithSpace_loop (fuel : nat) (fd length pnum pageNum0 : Z)
    (st : pf_state) : outcome (Z * Z * pf_state) :=
  match fuel with
  | O => Fuel
  | S fuel' =>
      let '(error, pnum1, st1) := PF_GetNextPage fd pnum st in
      if error =? PFE_OK then
        buf <-- page_at st1 pnum1 ;;
        fits <-- page_has_space buf length ;;
        if fits : bool then Ret (RHF_OK, pnum1, st1)
        else
          let '(e2, st2) := PF_UnfixPage fd pnum1 false st1 in
          if negb (e2 =? PFE_OK) then Ret (e2, pageNum0, st2)
          else rhf_GetPageWithSpace_loop fuel' fd length pnum1 pageNum0 st2
      else if negb (error =? PFE_EOF) then Ret (error, pageNum0, st1)
      else
        let '(e3, pn, st3) := PF_AllocPage fd st1 in
        if negb (e3 =? PFE_OK) then Ret (e3, pageNum0, st3)
        else
          buf <-- page_at st3 pn ;;
          buf' <-- rhf_InitPage buf ;;
          Ret (RHF_OK, pn, put_page st3 pn buf')
  end.

(** Every iteration fixes a page with a larger number, so one more
    iteration than the file has pages ends the loop. *)
Definition rhf_GetPageWithSpace (fd length pageNum0 : Z) (st : pf_state)
    : outcome (Z * Z * pf_state) :=
  rhf_GetPageWithSpace_loop (S (num_pages st)) fd length (-1) pageNum0 st.

(** Steps 2 and 3 of [RHF_InsertRecord], on the buffer of the fixed page:
    choose the slot, then write the record.  The result is [slotNum] and the
    buffer. *)
Definition insert_into_page (pg : page) (record : list Z) (length : Z)
    : outcome (Z * page) :=
  nfs <-- load_int pg OFF_nextFreeSlot ;;
  c <-- (if negb (nfs =? -1) then
           (* reuse a deleted slot, follow the free list chain *)
           next <-- load_int pg (OFF_recordOffset nfs) ;;
           pg1 <-- store_int pg OFF_nextFreeSlot next ;;
           Ret (nfs, pg1)
         else
           (* allocate a new slot *)
           ns <-- load_int pg OFF_numSlots ;;
           pg1 <-- store_int pg OFF_numSlots (ns + 1) ;;
           Ret (ns, pg1)) ;;
  let slotNum := fst c in
  fsp <-- load_int (snd c) OFF_freeSpacePtr ;;
  pg2 <-- store_int (snd c) OFF_freeSpacePtr (fsp - length) ;;
  fsp' <-- load_int pg2 OFF_freeSpacePtr ;;
  pg3 <-- store_int pg2 (OFF_recordOffset slotNum) fsp' ;;
  pg4 <-- store_int pg3 (OFF_recordLength slotNum) length ;;
  off <-- load_int pg4 (OFF_recordOffset slotNum) ;;
  pg5 <-- memcpy_to_page pg4 off record length ;;
  Ret (slotNum, pg5).

(** The result is the return code, [*rid] and the state. *)
Definition RHF_InsertRecord (fd : Z) (record : list Z) (length : Z) (rid : RID)
    (st : pf_state) : outcome (Z * RID * pf_state) :=
  r <-- rhf_GetPageWithSpace fd length (pageNum rid) st ;;
  let '(error, pageNum, st1) := r in
  if negb (error =? RHF_OK) then Ret (error, rid, st1)
  else
    pg <-- page_at st1 pageNum ;;
    c <-- insert_into_page pg record length ;;
    let '(rc, st2) := PF_UnfixPage fd pageNum true (put_page st1 pageNum (snd c)) in
    Ret (rc, mkRID pageNum (fst c), st2).

(** The result is the return code, the caller's [recordBuf] and [*length],
    and the state. *)
Definition RHF_GetRecord (fd : Z) (rid : RID) (recordBuf : list Z) (length : Z)
    (st : pf_state) : outcome (Z * list Z * Z * pf_state) :=
  let '(error, st1) := PF_GetThisPage fd (pageNum rid) st in
  if negb (error =? PFE_OK) then Ret (error, recordBuf, length, st1)
  else
    pg <-- page_at st1 (pageNum rid) ;;
    ns <-- load_int pg OFF_numSlots ;;
    if (slotNum rid <? 0) || (slotNum rid >=? ns) then
      Ret (RHF_INVALIDRID, recordBuf, length,
           snd (PF_UnfixPage fd (pageNum rid) false st1))
    else
      off <-- load_int pg (OFF_recordOffset (slotNum rid)) ;;
      if off =? -1 then
        Ret (RHF_NORECORD, recordBuf, length,
             snd (PF_UnfixPage fd (pageNum rid) false st1))
      else
        len <-- load_int pg (OFF_recordLength (slotNum rid)) ;;
        recordBuf' <-- memcpy_from_page recordBuf pg off len ;;
        let '(rc, st2) := PF_UnfixPage fd (pageNum rid) false st1 in
        Ret (rc, recordBuf', len, st2).

(** Step 4 of [RHF_DeleteRecord], on the buffer of the fixed page: the slot
    goes to the front of the free list. *)
Definition delete_from_page (pg : page) (slotNum : Z) : outcome page :=
  nfs <-- load_int pg OFF_nextFreeSlot ;;
  pg1 <-- store_int pg (OFF_recordOffset slotNum) nfs ;;
  pg2 <-- store_int pg1 (OFF_recordLength slotNum) (-1) ;;
  store_int pg2 OFF_nextFreeSlot slotNum.

Definition RHF_DeleteRecord (fd : Z) (rid : RID) (st : pf_state)
    : outcome (Z * pf_state) :=
  let '(error, st1) := PF_GetThisPage fd (pageNum rid) st in
  if negb (error =? PFE_OK) then Ret (error, st1)
  else
    pg <-- page_at st1 (pageNum rid) ;;
    ns <-- load_int pg OFF_numSlots ;;
    if (slotNum rid <? 0) || (slotNum rid >=? ns) then
      Ret (RHF_INVALIDRID, snd (PF_UnfixPage fd (pageNum rid) false st1))
    else
      off <-- load_int pg (OFF_recordOffset (slotNum rid)) ;;
      if off =? -1 then
        Ret (RHF_NORECORD, snd (PF_UnfixPage fd (pageNum rid) false st1))
      else
        pg3 <-- delete_from_page pg (slotNum rid) ;;
        Ret (PF_UnfixPage fd (pageNum rid) true (put_page st1 (pageNum rid) pg3)).

Definition RHF_StartScan (fd : Z) (scan : RHF_Scan) : Z * RHF_Scan :=
  (RHF_OK, mkScan fd (-1) (-1) None 0).

(** What [RHF_GetNextRecord] leaves behind: its return code, the scan, the
    caller's [recordBuf], [*length] and [*rid], and the state. *)
Record next_result : Type := mkNext {
  nr_rc : Z;
  nr_scan : RHF_Scan;
  nr_buf : list Z;
  nr_length : Z;
  nr_rid : RID;
  nr_state : pf_state
}.

Fixpoint RHF_GetNextRecord_loop (fuel : nat) (scan : RHF_Scan) (recordBuf : list Z)
    (length : Z) (rid : RID) (st : pf_state) : outcome next_result :=
  match fuel with
  | O => Fuel
  | S fuel' =>
      (* 1. get a page if we don't have one *)
      r <-- (if page_is_fixed scan =? 0 then
               let '(error, pn, st1) := PF_GetNextPage (scan_fd scan) (currentPage scan) st in
               if negb (error =? PFE_OK) then
                 Ret (inl (mkNext (if error =? PFE_EOF then RHF_EOF else error)
                                  scan recordBuf length rid st1))
               else
                 Ret (inr (mkScan (scan_fd scan) pn 0 (Some pn) 1, st1))
             else Ret (inr (scan, st))) ;;
      match r with
      | inl res => Ret res
      | inr (scan1, st1) =>
          buf <-- of_option (pageBuf scan1) ;;
          pg <-- page_at st1 buf ;;
          ns <-- load_int pg OFF_numSlots ;;
          (* 2. past the last slot of this page *)
          if currentSlot scan1 >=? ns then
            let '(error, st2) := PF_UnfixPage (scan_fd scan1) (currentPage scan1) false st1 in
            if negb (error =? PFE_OK) then
              Ret (mkNext error scan1 recordBuf length rid st2)
            else
              RHF_GetNextRecord_loop fuel'
                (mkScan (scan_fd scan1) (currentPage scan1) (currentSlot scan1)
                        (pageBuf scan1) 0)
                recordBuf length rid st2
          else
            let s := currentSlot scan1 in
            let scan2 := mkScan (scan_fd scan1) (currentPage scan1) (wrap32 (s + 1))
                                (pageBuf scan1) (page_is_fixed scan1) in
            len <-- load_int pg (OFF_recordLength s) ;;
            if negb (len =? -1) then
              off <-- load_int pg (OFF_recordOffset s) ;;
              recordBuf' <-- memcpy_from_page recordBuf pg off len ;;
              Ret (mkNext RHF_OK scan2 recordBuf' len
                          (mkRID (currentPage scan2) (wrap32 (currentSlot scan2 - 1))) st1)
            else
              RHF_GetNextRecord_loop fuel' scan2 recordBuf length rid st1
      end
  end.

(** A page holds fewer than 512 slots, and every page is visited once. *)
Definition scan_fuel (st : pf_state) : nat := (514 * S (num_pages st))%nat.

Definition RHF_GetNextRecord (scan : RHF_Scan) (recordBuf : list Z) (length : Z)
    (rid : RID) (st : pf_state) : outcome next_result :=
  RHF_GetNextRecord_loop (scan_fuel st) scan recordBuf length rid st.

Definition RHF_EndScan (scan : RHF_Scan) (st : pf_state) : Z * RHF_Scan * pf_state :=
  let '(error, st1) :=
    if negb (page_is_fixed scan =? 0)
    then PF_UnfixPage (scan_fd scan) (currentPage scan) false st
    else (PFE_OK, st) in
  if negb (error =? PFE_OK) then (error, scan, st1)
  else (RHF_OK, mkScan (-1) (currentPage scan) (currentSlot scan) None 0, st1).

(** ** Slotted pages *)

(** The [int] at byte offset [off] of a page buffer. *)
Definition geti (pg : page) (off : Z) : Z :=
  match load_int pg off with
  | Ret v => v
  | _ => 0
  end.

Definition numSlots (pg : page) : Z := geti pg OFF_numSlots.
Definition freeSpacePtr (pg : page) : Z := geti pg OFF_freeSpacePtr.
Definition nextFreeSlot (pg : page) : Z := geti pg OFF_nextFreeSlot.
Definition recordOffset (pg : page) (s : Z) : Z := geti pg (OFF_recordOffset s).
Definition recordLength (pg : page) (s : Z) : Z := geti pg (OFF_recordLength s).

(** The free space of a page, between the end of the slot array and the
    start of the records, and what a record of [length] bytes needs of it. *)
Definition free_space (pg : page) : Z :=
  freeSpacePtr pg - (SIZEOF_HEADER + numSlots pg * SIZEOF_SLOT).

Definition space_needed (pg : page) (length : Z) : Z :=
  length + (if nextFreeSlot pg =? -1 then SIZEOF_SLOT else 0).

(** The header of a slotted page: the slot array ends before the records
    start, and they start inside the page. *)
Definition hdr_ok (pg : page) : Prop :=
  Z.of_nat (length pg) = PF_PAGE_SIZE /\
  0 <= numSlots pg /\
  SIZEOF_HEADER + numSlots pg * SIZEOF_SLOT <= freeSpacePtr pg <= PF_PAGE_SIZE.

Definition hdrs_ok (st : pf_state) : Prop :=
  forall q pg, valid_page st q = true -> page_at st q = Ret pg -> hdr_ok pg.

(** ** Sequences of calls *)

(** A file that was just created and opened under descriptor [fd], and a
    pool of [n] frames. *)
Definition new_file (fd : Z) (n : nat) : pf_state :=
  mkPF fd n PF_STRAT_LRU [] [] [] [] [].

Inductive rhf_op : Type :=
| OpInsert (record : list Z) (length : Z)
| OpGet (rid : RID) (recordBuf : list Z)
| OpDelete (rid : RID).

(** One call of the record interface; the result is its return code and
    the state. *)
Definition exec (fd : Z) (op : rhf_op) (st : pf_state) : outcome (Z * pf_state) :=
  match op with
  | OpInsert record length =>
      r <-- RHF_InsertRecord fd record length (mkRID 0 0) st ;;
      Ret (fst (fst r), snd r)
  | OpGet rid recordBuf =>
      r <-- RHF_GetRecord fd rid recordBuf 0 st ;;
      Ret (fst (fst (fst r)), snd r)
  | OpDelete rid => RHF_DeleteRecord fd rid st
  end.

(** The calls of [ops] one after the other; the result is their return
    codes and the last state. *)
Fixpoint exec_all (fd : Z) (ops : list rhf_op) (st : pf_state)
    : outcome (list Z * pf_state) :=
  match ops with
  | [] => Ret ([], st)
  | op :: ops' =>
      r <-- exec fd op st ;;
      r' <-- exec_all fd ops' (snd r) ;;
      Ret (fst r :: fst r', snd r')
  end.

(** ** Scans *)

(** The number of pins a scan holds on page [p]: one on its current page
    while [page_is_fixed] is set. *)
Definition scan_holds (scan : RHF_Scan) (p : nat) : nat :=
  if page_is_fixed scan =? 0 then 0%nat
  else if Z.of_nat p =? currentPage scan then 1%nat else 0%nat.

(** The scans and states that [RHF_StartScan] on a file in state [st0],
    followed by calls of [RHF_GetNextRecord], can reach. *)
Inductive scan_run (fd : Z) (st0 : pf_state) : RHF_Scan -> pf_state -> Prop :=
| scan_run_start scan0 :
    scan_run fd st0 (snd (RHF_StartScan fd scan0)) st0
| scan_run_next scan st recordBuf length rid r :
    scan_run fd st0 scan st ->
    RHF_GetNextRecord scan recordBuf length rid st = Ret r ->
    scan_run fd st0 (nr_scan r) (nr_state r).

(** What holds of a scan between two calls: it has no page fixed and the
    pin counts are those of [st0], or it has its current page fixed, once. *)
Definition scan_inv (st0 : pf_state) (scan : RHF_Scan) (st : pf_state) : Prop :=
  pf_fd st = pf_fd st0 /\ pf_data st = pf_data st0 /\
  ((page_is_fixed scan = 0 /\ pf_pin st = pf_pin st0)
   \/ (page_is_fixed scan = 1 /\ scan_fd scan = pf_fd st0 /\
       0 <= currentPage scan /\ 0 <= currentSlot scan /\
       pageBuf scan = Some (currentPage scan) /\
       exists n, pf_pin st0 !! Z.to_nat (currentPage scan) = Some n /\
                 pf_pin st = <[Z.to_nat (currentPage scan) := S n]> (pf_pin st0))).

(** A bound on the iterations that [RHF_GetNextRecord] still makes. *)
Definition pages_after (st : pf_state) (c : Z) : Z :=
  Z.max 0 (Z.of_nat (num_pages st) - Z.max 0 (c + 1)).

Definition scan_measure (scan : RHF_Scan) (st : pf_state) : Z :=
  (if page_is_fixed scan =? 0 then 0 else Z.max 0 (512 - currentSlot scan) + 1)
  + 513 * pages_after st (currentPage scan) + 1.

(** ** Well-formed slotted pages and the records they hold *)

(** A slot in use describes a record that lies inside the page, behind
    [freeSpacePtr]; [RHF_DeleteRecord] marks a slot with length -1. *)
Definition slot_ok (pg : page) (s : Z) : Prop :=
  recordLength pg s = -1 \/
  (0 <= recordLength pg s /\ freeSpacePtr pg <= recordOffset pg s /\
   recordOffset pg s + recordLength pg s <= PF_PAGE_SIZE).

(** The free slot list from [head] on: deleted slots, each holding its
    successor in [recordOffset], the last one -1. *)
Fixpoint chain_ok (pg : page) (head : Z) (chain : list Z) : Prop :=
  match chain with
  | [] => head = -1
  | c :: cs =>
      head = c /\ 0 <= c < numSlots pg /\ recordLength pg c = -1 /\
      chain_ok pg (recordOffset pg c) cs
  end.

Definition wf_page (pg : page) : Prop :=
  hdr_ok pg /\
  (forall s, 0 <= s < numSlots pg -> slot_ok pg s) /\
  exists chain, NoDup chain /\ chain_ok pg (nextFreeSlot pg) chain.

(** A file of slotted pages, with a frame of the pool to fix a page in. *)
Definition wf_file (st : pf_state) : Prop :=
  pf_wf st /\ pages_sized st /\ (pinned_frames st < pf_bufsize st)%nat /\
  forall q pg, valid_page st q = true -> page_at st q = Ret pg -> wf_page pg.

(** The record of slot [s], as [RHF_GetNextRecord] sees it. *)
Definition slot_record (pg : page) (s : Z) : option (list Z) :=
  if recordLength pg s =? -1 then None
  else load_bytes pg (recordOffset pg s) (recordLength pg s).

Definition page_records (pg : page) : list (Z * list Z) :=
  omap (fun s => pair s <$> slot_record pg s) (seqZ 0 (numSlots pg)).

(** The records of page [q] of the file, with their RIDs. *)
Definition records_of_page (st : pf_state) (q : Z) : list (RID * list Z) :=
  if valid_page st q then
    match pf_data st !! Z.to_nat q with
    | Some pg => (fun sb => (mkRID q (fst sb), snd sb)) <$> page_records pg
    | None => []
    end
  else [].

(** The records of the file, page after page and slot after slot. *)
Definition file_records (st : pf_state) : list (RID * list Z) :=
  seqZ 0 (Z.of_nat (num_pages st)) ≫= records_of_page st.

(** The record that a RID designates, if any. *)
Definition record_at (st : pf_state) (rid : RID) : option (list Z) :=
  if valid_page st (pageNum rid) then
    match pf_data st !! Z.to_nat (pageNum rid) with
    | Some pg =>
        if (0 <=? slotNum rid) && (slotNum rid <? numSlots pg)
        then slot_record pg (slotNum rid) else None
    | None => None
    end
  else None.

(** The RID designates a slot that [RHF_DeleteRecord] has marked. *)
Definition slot_deleted (st : pf_state) (rid : RID) : Prop :=
  exists pg, valid_page st (pageNum rid) = true /\
    page_at st (pageNum rid) = Ret pg /\
    0 <= slotNum rid < numSlots pg /\ recordLength pg (slotNum rid) = -1.

(** The largest record that fits a new page beside its header and slot. *)
Definition MAX_RECORD : Z := PF_PAGE_SIZE - SIZEOF_HEADER - SIZEOF_SLOT.

(** ** What a scan returns *)

(** Two states that differ in pin counts at most, the second with no page
    newly dirty. *)
Definition pf_but_pins (st0 st : pf_state) : Prop :=
  pf_fd st = pf_fd st0 /\ pf_bufsize st = pf_bufsize st0 /\
  pf_strategy st = pf_strategy st0 /\ pf_data st = pf_data st0 /\
  pf_free st = pf_free st0 /\
  length (pf_dirty st) = length (pf_dirty st0) /\
  (forall q, pf_dirty st !! q = Some true -> pf_dirty st0 !! q = Some true).

(** The position of a scan that [RHF_StartScan] opened on the file of
    [st0]. *)
Definition scan_pos (st0 : pf_state) (scan : RHF_Scan) (st : pf_state) : Prop :=
  scan_inv st0 scan st /\ pf_but_pins st0 st /\ scan_fd scan = pf_fd st0 /\
  (page_is_fixed scan = 1 -> valid_page st0 (currentPage scan) = true).

(** The records of page [p] in the slots from [s] on, and the records of
    the pages after page [c]. *)
Definition rest_of_page (st : pf_state) (p s : Z) : list (RID * list Z) :=
  match pf_data st !! Z.to_nat p with
  | Some pg =>
      (fun sb => (mkRID p (fst sb), snd sb)) <$>
        omap (fun s => pair s <$> slot_record pg s) (seqZ s (numSlots pg - s))
  | None => []
  end.

Definition rest_of_file (st : pf_state) (c : Z) : list (RID * list Z) :=
  seqZ (c + 1) (Z.of_nat (num_pages st) - (c + 1)) ≫= records_of_page st.

(** The records a scan has yet to return. *)
Definition remaining (st0 : pf_state) (scan : RHF_Scan) : list (RID * list Z) :=
  (if page_is_fixed scan =? 0 then []
   else rest_of_page st0 (currentPage scan) (currentSlot scan))
  ++ rest_of_file st0 (currentPage scan).

(** The caller of a full scan, as in testrhf.c: [RHF_StartScan], then
    [RHF_GetNextRecord] as long as it returns [RHF_OK], into a buffer of the
    size of a page, then [RHF_EndScan].  The result is the last return code
    of [RHF_GetNextRecord], the records in the order they were returned,
    and the scan and the state. *)
Definition scan_buffer : list Z := repeat 0 (Z.to_nat PF_PAGE_SIZE).



(** ** Sequences of calls on a well-formed file *)

(** A call the properties below allow: an insertion of a record that fits
    a page, and a [RHF_DeleteRecord] or [RHF_GetRecord] of a RID whose slot
    is not marked deleted; the buffer of [RHF_GetRecord] is at least as
    long as the record that the RID designates, when it designates one. *)
Definition op_ok (st : pf_state) (op : rhf_op) : Prop :=
  match op with
  | OpInsert rec len => 0 <= len <= MAX_RECORD /\ len <= Z.of_nat (length rec)
  | OpGet rid buf =>
      ~ slot_deleted st rid /\
      forall bs, record_at st rid = Some bs -> (length bs <= length buf)%nat
  | OpDelete rid => ~ slot_deleted st rid
  end.

Fixpoint ops_ok (fd : Z) (ops : list rhf_op) (st : pf_state) : Prop :=
  match ops with
  | [] => True
  | op :: ops' =>
      op_ok st op /\
      forall rc st', exec fd op st = Ret (rc, st') -> ops_ok fd ops' st'
  end.


(** ** Pages written and pages dirty *)

(** What a call owes the paged file layer: every page whose bytes it
    changed is dirty when the call returns.  The layer writes a dirty page
    to disk before it gives the frame to another page, and reads a page
    from disk when it is fixed again; a page changed and left clean would
    come back with its old bytes. *)
Definition writes_flagged (st st' : pf_state) : Prop :=
  forall q, pf_data st' !! q <> pf_data st !! q -> dirty_flag st' q = true.



#[global] Instance RID_eq_dec : EqDecision RID.
Proof. solve_decision. Defined.


(** ** A small file *)

Definition state_of {A} (o : outcome (A * pf_state)) : pf_state :=
  match o with
  | Ret r => snd r
  | _ => new_file 0 0
  end.

(** The file that two insertions and the deletion of the first record
    leave, in a pool of three frames: one page, slot 0 on its free slot
    list and the record 4, 5 in slot 1. *)
Definition example_file : pf_state :=
  Eval vm_compute in
    state_of (exec_all 0 [OpInsert [1; 2; 3] 3; OpInsert [4; 5] 2; OpDelete (mkRID 0 0)]
                (new_file 0 3)).

Definition example_scan : RHF_Scan := snd (RHF_StartScan 0 (mkScan 0 0 0 None 0)).

(** The states that three calls on the small file leave: an insertion, the
    deletion of the record in slot 1, and [RHF_GetRecord] of slot 5. *)
Definition example_inserted : pf_state :=
  Eval vm_compute in
    state_of (RHF_InsertRecord 0 [7; 8; 9] 3 (mkRID 0 0) example_file).

Definition example_deleted : pf_state :=
  Eval vm_compute in state_of (RHF_DeleteRecord 0 (mkRID 0 1) example_file).

Definition example_got : pf_state :=
  Eval vm_compute in state_of (exec 0 (OpGet (mkRID 0 5) [0; 0; 0; 0]) example_file).

(** ** A full scan that keeps the RIDs *)

(** As [scan_records], with the RID that [RHF_GetNextRecord] stores in
    [*rid] beside each record. *)
Fixpoint scan_entries (n : nat) (scan : RHF_Scan) (st : pf_state)
    : outcome (Z * list (RID * list Z) * RHF_Scan * pf_state) :=
  match n with
  | O => Fuel
  | S n' =>
      r <-- RHF_GetNextRecord scan scan_buffer 0 (mkRID 0 0) st ;;
      if nr_rc r =? RHF_OK then
        r' <-- scan_entries n' (nr_scan r) (nr_state r) ;;
        Ret (fst (fst (fst r')),
             (nr_rid r, take (Z.to_nat (nr_length r)) (nr_buf r)) :: snd (fst (fst r')),
             snd (fst r'), snd r')
      else Ret (nr_rc r, [], nr_scan r, nr_state r)
  end.

Definition full_scan_entries (fd : Z) (st : pf_state)
    : outcome (Z * list (RID * list Z) * pf_state) :=
  r <-- scan_entries (S (510 * num_pages st))
          (snd (RHF_StartScan fd (mkScan 0 0 0 None 0))) st ;;
  let '(rc, _, st') := RHF_EndScan (snd (fst r)) (snd r) in
  Ret (if rc =? RHF_OK then fst (fst (fst r)) else rc, snd (fst (fst r)), st').

(** The order of the RIDs: by page, then by slot. *)
Definition rid_lt (r1 r2 : RID) : Prop :=
  pageNum r1 < pageNum r2 \/ (pageNum r1 = pageNum r2 /\ slotNum r1 < slotNum r2).

(** The state that a full scan of the small file leaves. *)
Definition example_scanned : pf_state :=
  Eval vm_compute in state_of (full_scan_entries 0 example_file).

(** The page of the small file after the insertion: both slots in use. *)
Definition example_inserted_page : page :=
  Eval vm_compute in
    match page_at example_inserted 0 with
    | Ret pg => pg
    | _ => []
    end.

(** The small file after the insertion, once the record in slot 0 is
    deleted again, and once two bytes are inserted after that. *)
Definition example_redeleted : pf_state :=
  Eval vm_compute in state_of (RHF_DeleteRecord 0 (mkRID 0 0) example_inserted).

Definition example_reinserted : pf_state :=
  Eval vm_compute in
    state_of (RHF_InsertRecord 0 [5; 6] 2 (mkRID 0 0) example_redeleted).

(** The page of the small file. *)
Definition example_page : page :=
  Eval vm_compute in
    match page_at example_file 0 with
    | Ret pg => pg
    | _ => []
    end.

(** ** testrhf.c: the records of the test *)

Definition MIN_NAME_LEN : Z := 10.
Definition MAX_NAME_LEN : Z := 50.

(** [sizeof(Student)]: an [int], a [float] and [MAX_NAME_LEN + 1] chars,
    padded to the alignment of [int]. *)
Definition SIZEOF_Student : Z := 60.

(** [name[i] = c], in a buffer of [length name] chars. *)
Definition store_char (name : list Z) (i c : Z) : outcome (list Z) :=
  if (0 <=? i) && (i <? Z.of_nat (length name))
  then Ret (<[Z.to_nat i := c]> name) else Undef.

(** The [for] loop of [get_random_name], with [n] iterations to go from
    index [i]; [rand j] is what the [j]-th call of [rand()] returns, and [k]
    calls were made.  The letter ['a'] is 97. *)
Fixpoint get_random_name_loop (n : nat) (i : Z) (rand : nat -> Z) (k : nat)
    (name : list Z) : outcome (list Z * nat) :=
  match n with
  | O => Ret (name, k)
  | S n' =>
      name' <-- store_char name i (97 + Z.rem (rand k) 26) ;;
      get_random_name_loop n' (i + 1) rand (S k) name'
  end.

Definition get_random_name (rand : nat -> Z) (k : nat) (name : list Z)
    : outcome (list Z * nat) :=
  let len := MIN_NAME_LEN + Z.rem (rand k) (MAX_NAME_LEN - MIN_NAME_LEN + 1) in
  r <-- get_random_name_loop (Z.to_nat len) 0 rand (S k) name ;;
  name' <-- store_char (fst r) len 0 ;;
  Ret (name', snd r).

(** [strlen], on a buffer that may hold no NUL. *)
Fixpoint strlen (s : list Z) : outcome Z :=
  match s with
  | [] => Undef
  | c :: s' => if c =? 0 then Ret 0 else n <-- strlen s' ;; Ret (n + 1)
  end.

(** [get_record_size], from the name of the student. *)
Definition get_record_size (name : list Z) : outcome Z :=
  n <-- strlen name ;; Ret (wrap32 (4 + 4 + n + 1)).

(** ** A page header that a long record has written *)



(** * Properties *)

(** ** Bytes and integers in a page *)

Lemma in_buf_spec pg off len :
  in_buf pg off len = true <-> 0 <= off /\ 0 <= len /\ off + len <= Z.of_nat (length pg).
Proof. unfold in_buf. rewrite !andb_true_iff, !Z.leb_le. tauto. Qed.

Lemma store_bytes_Some pg off bs pg' :
  store_bytes pg off bs = Some pg' ->
  0 <= off /\ off + Z.of_nat (length bs) <= Z.of_nat (length pg) /\
  pg' = take (Z.to_nat off) pg ++ bs ++ drop (Z.to_nat off + length bs)%nat pg.
Proof.
  unfold store_bytes. destruct (in_buf _ _ _) eqn:E; [|discriminate].
  apply in_buf_spec in E. intros [= <-]. intuition lia.
Qed.

Lemma store_bytes_in_buf pg off bs :
  0 <= off -> off + Z.of_nat (length bs) <= Z.of_nat (length pg) ->
  exists pg', store_bytes pg off bs = Some pg'.
Proof.
  intros H0 H1. unfold store_bytes.
  destruct (in_buf _ _ _) eqn:E; [eauto|].
  assert (in_buf pg off (Z.of_nat (length bs)) = true) by (apply in_buf_spec; lia).
  congruence.
Qed.

Lemma store_bytes_length pg off bs pg' :
  store_bytes pg off bs = Some pg' -> length pg' = length pg.
Proof.
  intros H. apply store_bytes_Some in H as (H0 & H1 & ->).
  rewrite !length_app, length_take, length_drop. lia.
Qed.

Lemma store_bytes_lookup pg off bs pg' (i : nat) :
  store_bytes pg off bs = Some pg' ->
  pg' !! i =
    if (off <=? Z.of_nat i) && (Z.of_nat i <? off + Z.of_nat (length bs))
    then bs !! (i - Z.to_nat off)%nat else pg !! i.
Proof.
  intros H. apply store_bytes_Some in H as (H0 & H1 & ->).
  destruct (off <=? Z.of_nat i) eqn:E1; simpl.
  - apply Z.leb_le in E1.
    rewrite lookup_app_r by (rewrite length_take; lia).
    rewrite length_take, Nat.min_l by lia.
    destruct (Z.of_nat i <? off + Z.of_nat (length bs)) eqn:E2.
    + apply Z.ltb_lt in E2. rewrite lookup_app_l by lia. done.
    + apply Z.ltb_ge in E2. rewrite lookup_app_r by lia.
      rewrite lookup_drop. f_equal. lia.
  - apply Z.leb_gt in E1. rewrite lookup_app_l by (rewrite length_take; lia).
    rewrite lookup_take_lt by lia. done.
Qed.

Lemma store_bytes_lookup_other pg off bs pg' (i : nat) :
  store_bytes pg off bs = Some pg' ->
  Z.of_nat i < off \/ off + Z.of_nat (length bs) <= Z.of_nat i ->
  pg' !! i = pg !! i.
Proof.
  intros H Hi. rewrite (store_bytes_lookup _ _ _ _ _ H).
  destruct (off <=? Z.of_nat i) eqn:E1; [|done].
  destruct (Z.of_nat i <? off + Z.of_nat (length bs)) eqn:E2; [|done].
  apply Z.leb_le in E1. apply Z.ltb_lt in E2. lia.
Qed.

Lemma load_bytes_Some pg off n bs :
  load_bytes pg off n = Some bs ->
  0 <= off /\ 0 <= n /\ off + n <= Z.of_nat (length pg) /\
  bs = take (Z.to_nat n) (drop (Z.to_nat off) pg).
Proof.
  unfold load_bytes. destruct (in_buf _ _ _) eqn:E; [|discriminate].
  apply in_buf_spec in E. intros [= <-]. intuition lia.
Qed.

Lemma load_bytes_in_buf pg off n :
  0 <= off -> 0 <= n -> off + n <= Z.of_nat (length pg) ->
  load_bytes pg off n = Some (take (Z.to_nat n) (drop (Z.to_nat off) pg)).
Proof.
  intros. unfold load_bytes.
  assert (in_buf pg off n = true) as -> by (apply in_buf_spec; lia). done.
Qed.

Lemma load_bytes_length pg off n bs :
  load_bytes pg off n = Some bs -> Z.of_nat (length bs) = n.
Proof.
  intros H. apply load_bytes_Some in H as (H0 & H1 & H2 & ->).
  rewrite length_take, length_drop. lia.
Qed.

(** Two buffers of one size that agree on a range load the same bytes from it. *)
Lemma load_bytes_ext pg pg' off n :
  length pg' = length pg ->
  (forall i : nat, off <= Z.of_nat i < off + n -> pg' !! i = pg !! i) ->
  load_bytes pg' off n = load_bytes pg off n.
Proof.
  intros Hl Hi. unfold load_bytes, in_buf. rewrite Hl.
  destruct (_ && _) eqn:E; [|done].
  rewrite !andb_true_iff, !Z.leb_le in E. f_equal.
  apply list_eq. intros i.
  destruct (decide (i < Z.to_nat n)%nat).
  - rewrite !lookup_take_lt, !lookup_drop by done. apply Hi. lia.
  - rewrite !lookup_take_ge by lia. done.
Qed.

Lemma load_store_other pg off bs pg' off' n :
  store_bytes pg off bs = Some pg' ->
  off' + n <= off \/ off + Z.of_nat (length bs) <= off' ->
  load_bytes pg' off' n = load_bytes pg off' n.
Proof.
  intros H Hd. apply load_bytes_ext.
  - eapply store_bytes_length; eauto.
  - intros i Hi. eapply store_bytes_lookup_other; eauto. lia.
Qed.

Lemma load_store_same pg off bs pg' :
  store_bytes pg off bs = Some pg' ->
  load_bytes pg' off (Z.of_nat (length bs)) = Some bs.
Proof.
  intros H. pose proof (store_bytes_length _ _ _ _ H) as Hl.
  pose proof (store_bytes_Some _ _ _ _ H) as (H0 & H1 & _).
  rewrite load_bytes_in_buf by lia. f_equal.
  apply list_eq. intros i. rewrite Nat2Z.id.
  destruct (decide (i < length bs)%nat).
  - rewrite lookup_take_lt, lookup_drop by done.
    rewrite (store_bytes_lookup _ _ _ _ _ H).
    assert ((off <=? Z.of_nat (Z.to_nat off + i)) = true) as -> by (apply Z.leb_le; lia).
    assert ((Z.of_nat (Z.to_nat off + i) <? off + Z.of_nat (length bs)) = true) as ->
      by (apply Z.ltb_lt; lia).
    simpl. f_equal. lia.
  - rewrite lookup_take_ge by lia. symmetry. apply lookup_ge_None. lia.
Qed.

Lemma wrap32_range z : -2147483648 <= wrap32 z < 2147483648.
Proof. unfold wrap32. pose proof (Z.mod_pos_bound (z + 2147483648) 4294967296). lia. Qed.

Lemma wrap32_id z : -2147483648 <= z < 2147483648 -> wrap32 z = z.
Proof. intros H. unfold wrap32. rewrite Z.mod_small by lia. lia. Qed.

Lemma wrap32_mod z : wrap32 (z mod 4294967296) = wrap32 z.
Proof.
  unfold wrap32. f_equal.
  rewrite <- (Zplus_mod_idemp_l z). done.
Qed.

Lemma bytes_int_bytes v : bytes_int (int_bytes v) = wrap32 v.
Proof.
  unfold bytes_int, int_bytes. rewrite !Zmod_mod. rewrite <- wrap32_mod at 1.
  rewrite <- (wrap32_mod v). f_equal.
  pose proof (Z.div_mod v 256 ltac:(lia)) as H.
  pose proof (Z.div_mod (v / 256) 256 ltac:(lia)) as H0.
  pose proof (Z.div_mod (v / 65536) 256 ltac:(lia)) as H1.
  pose proof (Z.div_mod (v / 16777216) 256 ltac:(lia)) as H2.
  assert (v / 256 / 256 = v / 65536) as E0 by (rewrite Z.div_div by lia; done).
  assert (v / 65536 / 256 = v / 16777216) as E1 by (rewrite Z.div_div by lia; done).
  rewrite E0 in H0. rewrite E1 in H1.
  pose proof (Z.mod_pos_bound v 256 ltac:(lia)).
  pose proof (Z.mod_pos_bound (v / 256) 256 ltac:(lia)).
  pose proof (Z.mod_pos_bound (v / 65536) 256 ltac:(lia)).
  pose proof (Z.mod_pos_bound (v / 16777216) 256 ltac:(lia)).
  rewrite Z.mod_small by lia.
  apply Z.mod_unique_pos with (q := v / 16777216 / 256); lia.
Qed.

Lemma bytes_int_range bs : -2147483648 <= bytes_int bs < 2147483648.
Proof.
  unfold bytes_int. destruct bs as [|? [|? [|? [|? [|]]]]]; try lia.
  apply wrap32_range.
Qed.

Lemma length_int_bytes v : length (int_bytes v) = 4%nat.
Proof. done. Qed.

(** *** Loads and stores of [int]s *)

Lemma load_int_Ret pg off v :
  load_int pg off = Ret v ->
  0 <= off /\ off + 4 <= Z.of_nat (length pg) /\ -2147483648 <= v < 2147483648.
Proof.
  unfold load_int. destruct (load_bytes pg off 4) as [bs|] eqn:E; [|discriminate].
  simpl. intros [= <-]. apply load_bytes_Some in E as (? & ? & ? & _).
  split; [lia|]. split; [lia|]. apply bytes_int_range.
Qed.

Lemma load_int_in_buf pg off :
  0 <= off -> off + 4 <= Z.of_nat (length pg) -> exists v, load_int pg off = Ret v.
Proof.
  intros. unfold load_int. rewrite load_bytes_in_buf by lia. simpl. eauto.
Qed.

Lemma store_int_Ret pg off v pg' :
  store_int pg off v = Ret pg' ->
  0 <= off /\ off + 4 <= Z.of_nat (length pg) /\ length pg' = length pg.
Proof.
  unfold store_int. destruct (store_bytes _ _ _) as [q|] eqn:E; [|discriminate].
  simpl. intros [= <-]. pose proof (store_bytes_length _ _ _ _ E).
  apply store_bytes_Some in E as (? & ? & _). rewrite length_int_bytes in *. lia.
Qed.

Lemma store_int_in_buf pg off v :
  0 <= off -> off + 4 <= Z.of_nat (length pg) -> exists pg', store_int pg off v = Ret pg'.
Proof.
  intros. unfold store_int.
  destruct (store_bytes_in_buf pg off (int_bytes v)) as [pg' ->];
    rewrite ?length_int_bytes; try lia.
  simpl. eauto.
Qed.

Lemma load_int_store_int_same pg off v pg' :
  store_int pg off v = Ret pg' -> load_int pg' off = Ret (wrap32 v).
Proof.
  unfold store_int, load_int. destruct (store_bytes _ _ _) as [q|] eqn:E; [|discriminate].
  simpl. intros [= <-]. apply load_store_same in E. rewrite length_int_bytes in E.
  change (Z.of_nat 4) with 4 in E. rewrite E.
  change (Ret (bytes_int (int_bytes v)) = Ret (wrap32 v)). by rewrite bytes_int_bytes.
Qed.

Lemma load_int_store_int_other pg off v pg' off' :
  store_int pg off v = Ret pg' ->
  off' + 4 <= off \/ off + 4 <= off' ->
  load_int pg' off' = load_int pg off'.
Proof.
  unfold store_int, load_int. destruct (store_bytes _ _ _) as [q|] eqn:E; [|discriminate].
  simpl. intros [= <-] Hd. erewrite load_store_other; eauto.
Qed.

Lemma load_bytes_store_int_other pg off v pg' off' n :
  store_int pg off v = Ret pg' ->
  off' + n <= off \/ off + 4 <= off' ->
  load_bytes pg' off' n = load_bytes pg off' n.
Proof.
  unfold store_int. destruct (store_bytes _ _ _) as [q|] eqn:E; [|discriminate].
  simpl. intros [= <-] Hd. erewrite load_store_other; eauto.
Qed.

Lemma load_int_store_bytes_other pg off bs pg' off' :
  store_bytes pg off bs = Some pg' ->
  off' + 4 <= off \/ off + Z.of_nat (length bs) <= off' ->
  load_int pg' off' = load_int pg off'.
Proof.
  intros H Hd. unfold load_int. erewrite load_store_other; eauto.
Qed.

Lemma store_int_lookup_other pg off v pg' (i : nat) :
  store_int pg off v = Ret pg' ->
  Z.of_nat i < off \/ off + 4 <= Z.of_nat i ->
  pg' !! i = pg !! i.
Proof.
  unfold store_int. destruct (store_bytes _ _ _) as [q|] eqn:E; [|discriminate].
  simpl. intros [= <-] Hd. eapply store_bytes_lookup_other; eauto.
Qed.

(** ** The page-fix contract *)

Lemma pf_get_frame_spec st st1 :
  pf_get_frame st = Some st1 ->
  pf_fd st1 = pf_fd st /\ pf_bufsize st1 = pf_bufsize st /\
  pf_strategy st1 = pf_strategy st /\ pf_data st1 = pf_data st /\
  pf_pin st1 = pf_pin st /\ pf_free st1 = pf_free st /\
  (forall q, pf_dirty st1 !! q = Some true -> pf_dirty st !! q = Some true) /\
  length (pf_dirty st1) = length (pf_dirty st).
Proof.
  unfold pf_get_frame. destruct (_ <? _)%nat.
  - intros [= <-]. repeat split; auto.
  - destruct (select_victim st) as [v|]; [|discriminate].
    intros [= <-]. simpl. repeat split; auto.
    + intros q. destruct (decide (q = v)) as [->|Hne].
      * destruct (decide (v < length (pf_dirty st))%nat).
        -- rewrite list_lookup_insert_eq by done. discriminate.
        -- rewrite list_insert_ge by lia. done.
      * rewrite list_lookup_insert_ne by done. done.
    + apply length_insert.
Qed.

(** A frame can be found whenever fewer pages are pinned than the pool has
    frames: a frame is empty, or the victim list is not. *)
Lemma pf_get_frame_available st :
  (pinned_frames st < pf_bufsize st)%nat -> exists st1, pf_get_frame st = Some st1.
Proof.
  intros H. unfold pf_get_frame.
  destruct (frames_in_use st <? pf_bufsize st)%nat eqn:E; [eauto|].
  apply Nat.ltb_ge in E. unfold frames_in_use in E.
  assert (pf_victims st <> []) as Hv by (intros Hn; rewrite Hn in E; simpl in E; lia).
  unfold select_victim. destruct (pf_strategy st =? PF_STRAT_MRU).
  - destruct (pf_victims st); [done|]. simpl. eauto.
  - destruct (last (pf_victims st)) eqn:El; [eauto|].
    apply last_None in El. done.
Qed.

Lemma pf_fix_spec p st rc st' :
  pf_fix p st = (rc, st') ->
  pf_fd st' = pf_fd st /\ pf_bufsize st' = pf_bufsize st /\
  pf_strategy st' = pf_strategy st /\ pf_data st' = pf_data st /\
  pf_free st' = pf_free st /\
  (forall q, pf_dirty st' !! q = Some true -> pf_dirty st !! q = Some true) /\
  length (pf_dirty st') = length (pf_dirty st) /\
  ((rc = PFE_OK /\ exists n, pf_pin st !! p = Some n /\ pf_pin st' = <[p := S n]> (pf_pin st))
   \/ (rc <> PFE_OK /\ st' = st)).
Proof.
  unfold pf_fix. destruct (pf_pin st !! p) as [n|] eqn:En.
  - destruct (is_pinned n || in_list p (pf_victims st)) eqn:Eh.
    + intros [= <- <-]. simpl. repeat split; auto. left. eauto.
    + apply orb_false_iff in Eh as [Hp _].
      destruct (pf_get_frame st) as [st1|] eqn:Ef.
      * apply pf_get_frame_spec in Ef as (? & ? & ? & ? & Hpin & ? & Hd & Hl).
        intros [= <- <-]. simpl. repeat split; auto.
        -- intros q. destruct (decide (q = p)) as [->|Hne].
           ++ destruct (decide (p < length (pf_dirty st1))%nat).
              ** rewrite list_lookup_insert_eq by done. discriminate.
              ** rewrite list_insert_ge by lia. auto.
           ++ rewrite list_lookup_insert_ne by done. auto.
        -- rewrite length_insert. done.
        -- left. split; [done|]. exists n. split; [done|].
           rewrite Hpin. destruct n; [done|]. discriminate.
      * intros [= <- <-]. repeat split; auto; right; done.
  - intros [= <- <-]. repeat split; auto; right; done.
Qed.

Lemma pf_fix_succeeds p st n :
  pf_pin st !! p = Some n ->
  (0 < n)%nat \/ (pinned_frames st < pf_bufsize st)%nat ->
  fst (pf_fix p st) = PFE_OK.
Proof.
  intros Hn Hc. unfold pf_fix. rewrite Hn.
  destruct (is_pinned n || in_list p (pf_victims st)) eqn:Eh; [done|].
  apply orb_false_iff in Eh as [Hp _].
  destruct Hc as [Hc|Hc]; [destruct n; [lia|discriminate]|].
  destruct (pf_get_frame_available st Hc) as [st1 ->]. done.
Qed.

Lemma PF_UnfixPage_rc fd pn d st :
  fst (PF_UnfixPage fd pn d st) = PFE_OK \/ fst (PF_UnfixPage fd pn d st) = PFE_FD \/
  fst (PF_UnfixPage fd pn d st) = PFE_PAGENOTINBUF \/
  fst (PF_UnfixPage fd pn d st) = PFE_PAGEUNFIXED.
Proof.
  unfold PF_UnfixPage. destruct (negb _); [auto|].
  destruct (if 0 <=? pn then _ else _) as [[|n]|]; simpl; auto.
  destruct (in_list _ _); simpl; auto.
Qed.

Lemma PF_UnfixPage_spec fd pn d st rc st' :
  PF_UnfixPage fd pn d st = (rc, st') ->
  pf_fd st' = pf_fd st /\ pf_bufsize st' = pf_bufsize st /\
  pf_strategy st' = pf_strategy st /\ pf_data st' = pf_data st /\
  pf_free st' = pf_free st /\
  ((rc = PFE_OK /\ exists n, pf_pin st !! Z.to_nat pn = Some (S n) /\
      pf_pin st' = <[Z.to_nat pn := n]> (pf_pin st) /\
      pf_dirty st' = if d then <[Z.to_nat pn := true]> (pf_dirty st) else pf_dirty st)
   \/ (rc <> PFE_OK /\ st' = st)).
Proof.
  unfold PF_UnfixPage. destruct (negb _).
  { intros [= <- <-]. repeat split; auto; right; done. }
  destruct (0 <=? pn).
  2:{ intros [= <- <-]. repeat split; auto; right; done. }
  destruct (pf_pin st !! Z.to_nat pn) as [[|n]|] eqn:En.
  - destruct (in_list _ _); intros [= <- <-]; repeat split; auto; right; done.
  - intros [= <- <-]. simpl. repeat split; auto. left. split; [done|]. eauto.
  - intros [= <- <-]. repeat split; auto; right; done.
Qed.

Lemma PF_UnfixPage_pinned fd pn d st n :
  fd = pf_fd st -> 0 <= pn -> pf_pin st !! Z.to_nat pn = Some (S n) ->
  fst (PF_UnfixPage fd pn d st) = PFE_OK.
Proof.
  intros -> H0 Hn. unfold PF_UnfixPage. rewrite Z.eqb_refl. simpl.
  assert ((0 <=? pn) = true) as -> by (apply Z.leb_le; lia).
  rewrite Hn. done.
Qed.

(** Unfixing a page that was just fixed gives back the pin counts. *)
Lemma insert_insert_back {A} (l : list A) (i : nat) (x y : A) :
  l !! i = Some x -> <[i := x]> (<[i := y]> l) = l.
Proof.
  intros H. rewrite list_insert_insert_eq. by apply list_insert_id.
Qed.

Lemma valid_page_spec st p :
  valid_page st p = true <->
  0 <= p < Z.of_nat (num_pages st) /\ Z.to_nat p ∉ pf_free st.
Proof.
  unfold valid_page, in_list. rewrite !andb_true_iff, Z.leb_le, Z.ltb_lt, negb_true_iff.
  rewrite bool_decide_eq_false. tauto.
Qed.

Lemma PF_GetThisPage_spec fd pn st rc st' :
  PF_GetThisPage fd pn st = (rc, st') ->
  (rc = PFE_OK /\ fd = pf_fd st /\ valid_page st pn = true /\
     pf_fix (Z.to_nat pn) st = (PFE_OK, st'))
  \/ (rc <> PFE_OK /\ st' = st).
Proof.
  unfold PF_GetThisPage. destruct (fd =? pf_fd st) eqn:Ef; simpl.
  2:{ intros [= <- <-]. right. done. }
  apply Z.eqb_eq in Ef. destruct (valid_page st pn) eqn:Ev; simpl.
  2:{ intros [= <- <-]. right. done. }
  intros H. destruct (pf_fix_spec _ _ _ _ H) as (_ & _ & _ & _ & _ & _ & _ & [[-> _]|[? ->]]).
  - left. done.
  - right. done.
Qed.

Lemma next_valid_spec st n from p :
  next_valid st n from = Some p ->
  from <= p < from + Z.of_nat n /\ valid_page st p = true /\
  forall q, from <= q < p -> valid_page st q = false.
Proof.
  revert from. induction n as [|n IH]; intros from; simpl; [discriminate|].
  destruct (valid_page st from) eqn:Ev.
  - intros [= <-]. repeat split; auto; lia.
  - intros H. apply IH in H as (H1 & H2 & H3). repeat split; auto; [lia..|].
    intros q Hq. destruct (decide (q = from)) as [->|]; [done|]. apply H3. lia.
Qed.

Lemma next_valid_None st n from :
  next_valid st n from = None ->
  forall q, from <= q < from + Z.of_nat n -> valid_page st q = false.
Proof.
  revert from. induction n as [|n IH]; intros from; simpl; [lia|].
  destruct (valid_page st from) eqn:Ev; [discriminate|].
  intros H q Hq. destruct (decide (q = from)) as [->|]; [done|].
  apply (IH _ H). lia.
Qed.

Lemma PF_GetNextPage_spec fd pn st rc pn' st' :
  PF_GetNextPage fd pn st = (rc, pn', st') ->
  (rc = PFE_OK /\ fd = pf_fd st /\ pn < pn' /\ valid_page st pn' = true /\
     (forall q, pn < q < pn' -> valid_page st q = false) /\
     pf_fix (Z.to_nat pn') st = (PFE_OK, st'))
  \/ (rc = PFE_EOF /\ fd = pf_fd st /\ pn' = pn /\ st' = st /\
      forall q, pn < q -> valid_page st q = false)
  \/ (rc <> PFE_OK /\ rc <> PFE_EOF /\ pn' = pn /\ st' = st).
Proof.
  unfold PF_GetNextPage. destruct (fd =? pf_fd st) eqn:Ef; simpl.
  2:{ intros [= <- <- <-]. right. right. done. }
  apply Z.eqb_eq in Ef.
  destruct (next_valid _ _ _) as [p|] eqn:En.
  - apply next_valid_spec in En as (H1 & H2 & H3).
    destruct (pf_fix (Z.to_nat p) st) as [rc1 st1] eqn:Efix.
    destruct (rc1 =? PFE_OK) eqn:Erc.
    + apply Z.eqb_eq in Erc. subst rc1. intros [= <- <- <-]. left.
      repeat split; auto; [lia|]. intros q Hq.
      destruct (decide (q < 0)).
      * apply not_true_is_false. rewrite valid_page_spec. lia.
      * apply H3. lia.
    + apply Z.eqb_neq in Erc. intros [= <- <- <-].
      destruct (pf_fix_spec _ _ _ _ Efix) as (_ & _ & _ & _ & _ & _ & _ & [[? _]|[_ ?]]); [done|].
      right. right. repeat split; auto.
      unfold pf_fix in Efix. destruct (pf_pin st !! Z.to_nat p).
      * destruct (_ || _); [injection Efix; intros; subst; done|].
        destruct (pf_get_frame st); injection Efix; intros; subst; done.
      * injection Efix; intros; subst; done.
  - intros [= <- <- <-]. right. left. repeat split; auto.
    intros q Hq. destruct (decide (0 <= q < Z.of_nat (num_pages st))).
    + eapply next_valid_None; eauto. lia.
    + apply not_true_is_false. rewrite valid_page_spec. lia.
Qed.

(** ** Outcomes of the monadic code *)

Lemma obind_Ret {A B} (m : outcome A) (k : A -> outcome B) (b : B) :
  obind m k = Ret b -> exists a, m = Ret a /\ k a = Ret b.
Proof. destruct m; simpl; [eauto|discriminate..]. Qed.

Lemma obind_Ret_l {A B} (a : A) (k : A -> outcome B) : obind (Ret a) k = k a.
Proof. done. Qed.

Lemma of_option_Ret {A} (o : option A) (a : A) : of_option o = Ret a -> o = Some a.
Proof. destruct o; simpl; [congruence|discriminate]. Qed.

Lemma page_at_Ret st p pg :
  page_at st p = Ret pg -> 0 <= p /\ pf_data st !! Z.to_nat p = Some pg.
Proof.
  unfold page_at. destruct (p <? 0) eqn:E; [discriminate|].
  apply Z.ltb_ge in E. intros H. apply of_option_Ret in H. done.
Qed.

Lemma page_at_lookup st p pg :
  0 <= p -> pf_data st !! Z.to_nat p = Some pg -> page_at st p = Ret pg.
Proof.
  intros H0 H. unfold page_at.
  assert ((p <? 0) = false) as -> by (apply Z.ltb_ge; lia). by rewrite H.
Qed.

(** Splits a hypothesis [H : (x <-- m ;; k) = Ret r] into [m = Ret a] and
    [k a = Ret r], and the tests and pairs in front of it. *)
Ltac step H :=
  lazymatch type of H with
  | obind ?m _ = Ret _ =>
      let a := fresh "v" in let E := fresh "E" in
      apply obind_Ret in H as (a & E & H)
  | (let '(_, _) := ?x in _) = _ => destruct x eqn:?
  | (if ?b then _ else _) = _ => destruct b eqn:?
  end.

(** ** [pf_same] *)

Lemma pf_same_refl st : pf_same st st.
Proof. unfold pf_same. repeat split; auto. Qed.

Lemma pf_same_trans st1 st2 st3 : pf_same st1 st2 -> pf_same st2 st3 -> pf_same st1 st3.
Proof.
  unfold pf_same. intros (?&?&?&?&?&?&?&?) (?&?&?&?&?&?&?&?).
  repeat split; try congruence. auto.
Qed.

Lemma pf_same_wf st st' : pf_same st st' -> pf_wf st -> pf_wf st'.
Proof.
  unfold pf_same, pf_wf. intros (?&?&?&Hd&Hp&Hf&Hl&?) (?&?&?&?).
  rewrite Hd, Hp, Hf, Hl. auto.
Qed.

Lemma pf_same_valid st st' p : pf_same st st' -> valid_page st' p = valid_page st p.
Proof.
  unfold pf_same, valid_page, num_pages. intros (?&?&?&Hd&Hp&Hf&?). by rewrite Hd, Hf.
Qed.

Lemma pf_same_pinned st st' : pf_same st st' -> pinned_frames st' = pinned_frames st.
Proof. unfold pf_same, pinned_frames. intros (?&?&?&Hd&Hp&Hf&?). by rewrite Hp. Qed.

(** A page fixed and at once unfixed clean. *)
Lemma fix_unfix_same p st st1 :
  0 <= p -> pf_fix (Z.to_nat p) st = (PFE_OK, st1) ->
  exists st2, PF_UnfixPage (pf_fd st) p false st1 = (PFE_OK, st2) /\ pf_same st st2.
Proof.
  intros H0 Hfix.
  destruct (pf_fix_spec _ _ _ _ Hfix)
    as (Hfd & Hb & Hs & Hd & Hf & Hdm & Hdl & [[_ (n & Hn & Hpin)]|[? _]]); [|done].
  assert (pf_pin st1 !! Z.to_nat p = Some (S n)) as Hn1.
  { rewrite Hpin. apply list_lookup_insert_eq. eapply lookup_lt_Some; eauto. }
  destruct (PF_UnfixPage (pf_fd st) p false st1) as [rc st2] eqn:Eu.
  pose proof (PF_UnfixPage_pinned (pf_fd st) p false st1 n (eq_sym Hfd) H0 Hn1) as Hrc.
  rewrite Eu in Hrc. simpl in Hrc. subst rc.
  exists st2. split; [done|].
  destruct (PF_UnfixPage_spec _ _ _ _ _ _ Eu)
    as (Hfd2 & Hb2 & Hs2 & Hd2 & Hf2 & [[_ (m & Hm & Hpin2 & Hdirty2)]|[? _]]); [|done].
  unfold pf_same. repeat split; try congruence.
  - assert (m = n) as -> by congruence.
    rewrite Hpin2, Hpin. by apply insert_insert_back.
  - intros q. rewrite Hdirty2. auto.
Qed.

Lemma PF_AllocPage_spec fd st rc pn st' :
  PF_AllocPage fd st = (rc, pn, st') ->
  (rc = PFE_OK /\ fd = pf_fd st /\
   pf_fd st' = pf_fd st /\ pf_bufsize st' = pf_bufsize st /\
   pf_strategy st' = pf_strategy st /\
   ((exists p rest n, pf_free st = p :: rest /\ pn = Z.of_nat p /\
       pf_pin st !! p = Some n /\
       pf_data st' = <[p := zero_page]> (pf_data st) /\
       pf_pin st' = <[p := S n]> (pf_pin st) /\
       pf_free st' = rest /\ length (pf_dirty st') = length (pf_dirty st))
    \/ (pf_free st = [] /\ pn = Z.of_nat (num_pages st) /\
        pf_data st' = pf_data st ++ [zero_page] /\
        pf_pin st' = pf_pin st ++ [1%nat] /\
        pf_free st' = [] /\ length (pf_dirty st') = S (length (pf_dirty st)))))
  \/ (rc <> PFE_OK /\ st' = st).
Proof.
  unfold PF_AllocPage. destruct (fd =? pf_fd st) eqn:Ef; simpl.
  2:{ intros [= <- <- <-]. right. done. }
  apply Z.eqb_eq in Ef. destruct (pf_free st) as [|p rest] eqn:Efree.
  - destruct (pf_get_frame st) as [st1|] eqn:Eg.
    + apply pf_get_frame_spec in Eg as (?&?&?&Hd&Hp&Hf&?&?).
      intros [= <- <- <-]. left. simpl. repeat split; auto. right.
      rewrite Hd, Hp, Hf, Efree, length_app. simpl. repeat split; auto. lia.
    + intros [= <- <- <-]. right. done.
  - destruct (pf_fix p st) as [rc1 st1] eqn:Efix.
    destruct (pf_fix_spec _ _ _ _ Efix)
      as (Hfd & Hb & Hs & Hd & Hf & Hdm & Hdl & [[-> (n & Hn & Hpin)]|[Hrc ->]]).
    + simpl. intros [= <- <- <-]. left. simpl. repeat split; auto. left.
      exists p, rest, n. rewrite Hd, length_insert. repeat split; auto.
    + destruct (rc1 =? PFE_OK) eqn:E; [apply Z.eqb_eq in E; done|].
      intros [= <- <- <-]. right. done.
Qed.

Lemma PF_AllocPage_available fd st :
  fd = pf_fd st -> pf_wf st -> (pinned_frames st < pf_bufsize st)%nat ->
  fst (fst (PF_AllocPage fd st)) = PFE_OK.
Proof.
  intros -> (Hl1 & Hl2 & Hfree & _) Hav. unfold PF_AllocPage. rewrite Z.eqb_refl. simpl.
  destruct (pf_free st) as [|p rest] eqn:Efree.
  - destruct (pf_get_frame_available st Hav) as [st1 ->]. done.
  - apply Forall_cons in Hfree as [Hp _].
    destruct (lookup_lt_is_Some_2 (pf_pin st) p ltac:(lia)) as [n Hn].
    pose proof (pf_fix_succeeds p st n Hn (or_intror Hav)) as Hok.
    destruct (pf_fix p st) as [rc1 st1]. simpl in Hok. subst rc1. done.
Qed.

(** ** [rhf_GetPageWithSpace] *)

Lemma pf_fix_page_at p st rc st1 q :
  pf_fix p st = (rc, st1) -> page_at st1 q = page_at st q.
Proof.
  intros H. destruct (pf_fix_spec _ _ _ _ H) as (_ & _ & _ & Hd & _).
  unfold page_at. by rewrite Hd.
Qed.

Lemma pf_same_page_at st st' q : pf_same st st' -> page_at st' q = page_at st q.
Proof. intros (_ & _ & _ & Hd & _). unfold page_at. by rewrite Hd. Qed.

Lemma rhf_InitPage_zero : exists buf, rhf_InitPage zero_page = Ret buf.
Proof. eexists. vm_compute. reflexivity. Qed.

Lemma alloc_page_at fd st pn st3 :
  pf_wf st -> PF_AllocPage fd st = (PFE_OK, pn, st3) -> page_at st3 pn = Ret zero_page.
Proof.
  intros (Hl1 & _) H.
  destruct (PF_AllocPage_spec _ _ _ _ _ H) as [(_ & _ & _ & _ & _ & Hc)|[? _]]; [|done].
  destruct Hc as [(p & rest & n & _ & -> & Hn & Hd & _)|(_ & -> & Hd & _)].
  - apply page_at_lookup; [lia|]. rewrite Hd, Nat2Z.id.
    apply list_lookup_insert_eq. apply lookup_lt_Some in Hn. lia.
  - apply page_at_lookup; [lia|]. rewrite Hd, Nat2Z.id.
    unfold num_pages. rewrite lookup_app_r by lia. by rewrite Nat.sub_diag.
Qed.

(** What the loop returns: the first page after [pnum] with room, fixed; or,
    when no page has room, a new page, fixed and initialised; or an error of
    the paged file layer.  Pages that were passed over are left as they
    were found, and none of them is marked dirty. *)
Lemma rhf_GetPageWithSpace_loop_spec fuel fd L pnum pn0 st rc pn st' :
  pf_wf st ->
  rhf_GetPageWithSpace_loop fuel fd L pnum pn0 st = Ret (rc, pn, st') ->
  exists st_mid, pf_same st st_mid /\
    ((rc = RHF_OK /\ fd = pf_fd st /\ pnum < pn /\ valid_page st pn = true /\
      (exists pg, page_at st pn = Ret pg /\ page_has_space pg L = Ret true) /\
      (forall q, pnum < q < pn -> valid_page st q = true ->
         exists pgq, page_at st q = Ret pgq /\ page_has_space pgq L = Ret false) /\
      pf_fix (Z.to_nat pn) st_mid = (PFE_OK, st'))
     \/ (rc = RHF_OK /\ fd = pf_fd st /\
         (forall q, pnum < q -> valid_page st q = true ->
            exists pgq, page_at st q = Ret pgq /\ page_has_space pgq L = Ret false) /\
         exists st3 buf', PF_AllocPage fd st_mid = (PFE_OK, pn, st3) /\
           rhf_InitPage zero_page = Ret buf' /\ st' = put_page st3 pn buf')
     \/ (rc <> RHF_OK /\ st' = st_mid)).
Proof.
  revert pnum st. induction fuel as [|fuel IH]; intros pnum st Hwf H; [discriminate|].
  simpl in H. destruct (PF_GetNextPage fd pnum st) as [[error pnum1] st1] eqn:Enext.
  destruct (PF_GetNextPage_spec _ _ _ _ _ _ Enext)
    as [(-> & Hfd & Hlt & Hv & Hmin & Hfix)
       |[(-> & Hfd & -> & -> & Hnone)|(Hne1 & Hne2 & -> & ->)]].
  - rewrite Z.eqb_refl in H. step H. step H.
    rewrite (pf_fix_page_at _ _ _ _ _ Hfix) in E.
    destruct v0.
    + injection H as <- <- <-. exists st. split; [apply pf_same_refl|]. left.
      repeat split; eauto.
      intros q Hq Hvq. rewrite Hmin in Hvq by lia. done.
    + assert (0 <= pnum1) as H0 by (apply valid_page_spec in Hv; lia).
      destruct (fix_unfix_same _ _ _ H0 Hfix) as (st2 & Eu & Hsame).
      rewrite Hfd, Eu, Z.eqb_refl in H. simpl in H. rewrite <- Hfd in H.
      apply IH in H; [|by eapply pf_same_wf].
      destruct H as (st_mid & Hsame2 & Hcases).
      exists st_mid. split; [by eapply pf_same_trans|].
      assert (forall q, pnum < q -> q <= pnum1 -> valid_page st q = true ->
                exists pgq, page_at st q = Ret pgq /\ page_has_space pgq L = Ret false) as Hpre.
      { intros q Hq1 Hq2 Hvq. destruct (decide (q = pnum1)) as [->|Hneq]; [eauto|].
        rewrite Hmin in Hvq by lia. done. }
      destruct Hcases as [(-> & _ & Hlt2 & Hv2 & (pg & Hpg & Hsp) & Hmin2 & Hfix2)
                         |[(-> & _ & Hnone & Halloc)|(Hne & ->)]].
      * left. rewrite (pf_same_valid _ _ _ Hsame) in Hv2.
        rewrite (pf_same_page_at _ _ _ Hsame) in Hpg.
        repeat split; eauto; [lia|].
        intros q Hq Hvq. destruct (decide (q <= pnum1)); [apply Hpre; auto; lia|].
        destruct (Hmin2 q) as (pgq & Hpgq & Hspq); [lia|by rewrite (pf_same_valid _ _ _ Hsame)|].
        rewrite (pf_same_page_at _ _ _ Hsame) in Hpgq. eauto.
      * right. left. repeat split; eauto.
        intros q Hq Hvq. destruct (decide (q <= pnum1)); [apply Hpre; auto; lia|].
        destruct (Hnone q) as (pgq & Hpgq & Hspq); [lia|by rewrite (pf_same_valid _ _ _ Hsame)|].
        rewrite (pf_same_page_at _ _ _ Hsame) in Hpgq. eauto.
      * right. right. done.
  - change (PFE_EOF =? PFE_OK) with false in H. rewrite Z.eqb_refl in H. simpl in H.
    destruct (PF_AllocPage fd st) as [[e3 pn3] st3] eqn:Ealloc.
    destruct (PF_AllocPage_spec _ _ _ _ _ Ealloc) as [(-> & _)|(Hne & ->)].
    + rewrite Z.eqb_refl in H. cbn [negb] in H.
      rewrite (alloc_page_at _ _ _ _ Hwf Ealloc), obind_Ret_l in H.
      step H. injection H as <- <- <-.
      exists st. split; [apply pf_same_refl|]. right. left.
      repeat split; eauto.
      intros q Hq Hvq. rewrite Hnone in Hvq by lia. done.
    + destruct (e3 =? PFE_OK) eqn:E3; [apply Z.eqb_eq in E3; done|]. simpl in H.
      injection H as <- <- <-. exists st. split; [apply pf_same_refl|]. right. right. done.
  - destruct (error =? PFE_OK) eqn:E1; [apply Z.eqb_eq in E1; done|].
    destruct (error =? PFE_EOF) eqn:E2; [apply Z.eqb_eq in E2; done|]. simpl in H.
    injection H as <- <- <-. exists st. split; [apply pf_same_refl|]. right. right. done.
Qed.

(** ** The deleted-slot sentinel *)

(** C1, at a failing input.  Two records are inserted in a new file and both
    are deleted, the one in slot 0 first.  [RHF_DeleteRecord] leaves -1 in
    [recordOffset] of slot 0, whose deletion found the free list empty, and
    0, the previous head of the list, in [recordOffset] of slot 1.
    [RHF_GetRecord] tests [recordOffset == -1]: it reports [RHF_NORECORD] for
    slot 0, but takes slot 1 for a record of length -1 and calls [memcpy]
    with that length. *)
Theorem C1_get_after_delete_behind_chain :
  exists st,
    exec_all 0 [OpInsert [1; 2; 3] 3; OpInsert [4; 5] 2;
                OpDelete (mkRID 0 0); OpDelete (mkRID 0 1)] (new_file 0 3)
      = Ret ([RHF_OK; RHF_OK; RHF_OK; RHF_OK], st) /\
    (exists st', RHF_GetRecord 0 (mkRID 0 0) [9; 9; 9] 7 st
                 = Ret (RHF_NORECORD, [9; 9; 9], 7, st')) /\
    (exists pg, page_at st 0 = Ret pg /\
                load_int pg (OFF_recordOffset 1) = Ret 0 /\
                load_int pg (OFF_recordLength 1) = Ret (-1)) /\
    RHF_GetRecord 0 (mkRID 0 1) [9; 9; 9] 7 st = Undef.
Proof.
  eexists. split; [vm_compute; reflexivity|].
  split; [eexists; vm_compute; reflexivity|].
  split; [eexists; repeat split; vm_compute; reflexivity|].
  vm_compute. reflexivity.
Qed.

(** C2, at a failing input.  After the same calls, a second
    [RHF_DeleteRecord] of the record in slot 1 returns [RHF_OK], not
    [RHF_NORECORD], and writes the page: slot 1 now is its own successor on
    the free list. *)
Theorem C2_delete_twice_behind_chain :
  exists st st' pg pg',
    exec_all 0 [OpInsert [1; 2; 3] 3; OpInsert [4; 5] 2;
                OpDelete (mkRID 0 0); OpDelete (mkRID 0 1)] (new_file 0 3)
      = Ret ([RHF_OK; RHF_OK; RHF_OK; RHF_OK], st) /\
    RHF_DeleteRecord 0 (mkRID 0 1) st = Ret (RHF_OK, st') /\
    page_at st 0 = Ret pg /\ page_at st' 0 = Ret pg' /\
    load_int pg OFF_nextFreeSlot = Ret 1 /\
    load_int pg (OFF_recordOffset 1) = Ret 0 /\
    load_int pg' OFF_nextFreeSlot = Ret 1 /\
    load_int pg' (OFF_recordOffset 1) = Ret 1 /\
    pg' <> pg.
Proof.
  do 4 eexists.
  split; [vm_compute; reflexivity|].
  split; [vm_compute; reflexivity|].
  split; [vm_compute; reflexivity|].
  split; [vm_compute; reflexivity|].
  repeat split; try (vm_compute; reflexivity).
  intros H. apply (f_equal (fun l => l !! 20%nat)) in H. vm_compute in H. discriminate.
Qed.

(** ** One call of [RHF_GetRecord] or [RHF_DeleteRecord] *)

Lemma load_int_ext pg pg' off :
  length pg' = length pg ->
  (forall i : nat, off <= Z.of_nat i < off + 4 -> pg' !! i = pg !! i) ->
  load_int pg' off = load_int pg off.
Proof. intros Hl Hi. unfold load_int. by rewrite (load_bytes_ext pg pg' off 4). Qed.

Lemma delete_from_page_spec pg s pg3 :
  0 <= s < 2147483648 ->
  delete_from_page pg s = Ret pg3 ->
  exists nfs,
    load_int pg OFF_nextFreeSlot = Ret nfs /\
    load_int pg3 (OFF_recordOffset s) = Ret nfs /\
    load_int pg3 (OFF_recordLength s) = Ret (-1) /\
    load_int pg3 OFF_nextFreeSlot = Ret s /\
    length pg3 = length pg /\
    (forall i : nat,
       ~ (OFF_nextFreeSlot <= Z.of_nat i < OFF_nextFreeSlot + 4) ->
       ~ (OFF_recordOffset s <= Z.of_nat i < OFF_recordOffset s + SIZEOF_SLOT) ->
       pg3 !! i = pg !! i).
Proof.
  intros Hs H. unfold delete_from_page in H.
  apply obind_Ret in H as (nfs & Enfs & H).
  apply obind_Ret in H as (pg1 & E1 & H).
  apply obind_Ret in H as (pg2 & E2 & E3).
  unfold OFF_recordOffset, OFF_recordLength, OFF_nextFreeSlot, SIZEOF_HEADER, SIZEOF_SLOT in *.
  exists nfs. split; [done|].
  pose proof (store_int_Ret _ _ _ _ E1) as (_ & _ & L1).
  pose proof (store_int_Ret _ _ _ _ E2) as (_ & _ & L2).
  pose proof (store_int_Ret _ _ _ _ E3) as (_ & _ & L3).
  split.
  { rewrite (load_int_store_int_other _ _ _ _ _ E3) by lia.
    rewrite (load_int_store_int_other _ _ _ _ _ E2) by lia.
    rewrite (load_int_store_int_same _ _ _ _ E1).
    f_equal. apply wrap32_id. by apply load_int_Ret in Enfs as (_ & _ & ?). }
  split.
  { rewrite (load_int_store_int_other _ _ _ _ _ E3) by lia.
    by rewrite (load_int_store_int_same _ _ _ _ E2). }
  split.
  { rewrite (load_int_store_int_same _ _ _ _ E3). f_equal. apply wrap32_id. lia. }
  split; [congruence|].
  intros i Hi1 Hi2.
  rewrite (store_int_lookup_other _ _ _ _ _ E3) by lia.
  rewrite (store_int_lookup_other _ _ _ _ _ E2) by lia.
  rewrite (store_int_lookup_other _ _ _ _ _ E1) by lia. done.
Qed.

Lemma put_page_lookup st p pg q :
  0 <= p -> (Z.to_nat p < num_pages st)%nat ->
  page_at (put_page st p pg) q = if decide (q = p) then Ret pg else page_at st q.
Proof.
  intros H0 Hp. unfold page_at, put_page, set_data. simpl.
  destruct (decide (q = p)) as [->|Hne].
  - assert ((p <? 0) = false) as -> by (apply Z.ltb_ge; lia).
    by rewrite list_lookup_insert_eq.
  - destruct (q <? 0) eqn:E; [done|]. apply Z.ltb_ge in E.
    rewrite list_lookup_insert_ne by lia. done.
Qed.

(** A fixed page: the write through its buffer and the unfix that follow. *)
Lemma pf_fix_put_unfix fd pn st st1 pg' d :
  fd = pf_fd st -> 0 <= pn ->
  pf_fix (Z.to_nat pn) st = (PFE_OK, st1) ->
  exists st2,
    PF_UnfixPage fd pn d (put_page st1 pn pg') = (PFE_OK, st2) /\
    pf_fd st2 = pf_fd st /\ pf_bufsize st2 = pf_bufsize st /\
    pf_strategy st2 = pf_strategy st /\
    pf_data st2 = <[Z.to_nat pn := pg']> (pf_data st) /\
    pf_pin st2 = pf_pin st /\ pf_free st2 = pf_free st /\
    length (pf_dirty st2) = length (pf_dirty st) /\
    (d = true -> (Z.to_nat pn < length (pf_dirty st))%nat ->
       pf_dirty st2 !! Z.to_nat pn = Some true).
Proof.
  intros Hfd Hr Hfix.
  destruct (pf_fix_spec _ _ _ _ Hfix)
    as (Hfd1 & Hb & Hs & Hd & Hf & Hdm & Hdl & [[_ (n & Hn & Hpin)]|[? _]]); [|done].
  set (st1' := put_page st1 pn pg').
  assert (pf_pin st1' !! Z.to_nat pn = Some (S n)) as Hn1.
  { simpl. rewrite Hpin. apply list_lookup_insert_eq. eapply lookup_lt_Some; eauto. }
  destruct (PF_UnfixPage fd pn d st1') as [rc st2] eqn:Eu.
  assert (fd = pf_fd st1') as Hfd' by (simpl; congruence).
  pose proof (PF_UnfixPage_pinned fd pn d st1' n Hfd' ltac:(lia) Hn1) as Hrc.
  rewrite Eu in Hrc. simpl in Hrc. subst rc. exists st2. split; [done|].
  destruct (PF_UnfixPage_spec _ _ _ _ _ _ Eu)
    as (Hfd2 & Hb2 & Hs2 & Hd2 & Hf2 & [[_ (m & Hm & Hpin2 & Hdirty2)]|[? _]]); [|done].
  assert (m = n) as -> by congruence.
  simpl in *. repeat split; try congruence.
  - rewrite Hpin2, Hpin. by apply insert_insert_back.
  - rewrite Hdirty2. destruct d; rewrite ?length_insert; done.
  - intros -> Hlt. rewrite Hdirty2. apply list_lookup_insert_eq. lia.
Qed.

Lemma fix_put_unfix fd pn st st1 pg' d :
  PF_GetThisPage fd pn st = (PFE_OK, st1) ->
  exists st2,
    PF_UnfixPage fd pn d (put_page st1 pn pg') = (PFE_OK, st2) /\
    pf_fd st2 = pf_fd st /\ pf_bufsize st2 = pf_bufsize st /\
    pf_strategy st2 = pf_strategy st /\
    pf_data st2 = <[Z.to_nat pn := pg']> (pf_data st) /\
    pf_pin st2 = pf_pin st /\ pf_free st2 = pf_free st /\
    length (pf_dirty st2) = length (pf_dirty st) /\
    (d = true -> (Z.to_nat pn < length (pf_dirty st))%nat ->
       pf_dirty st2 !! Z.to_nat pn = Some true).
Proof.
  intros H.
  destruct (PF_GetThisPage_spec _ _ _ _ _ H) as [(_ & Hfd & Hv & Hfix)|[? _]]; [|done].
  apply valid_page_spec in Hv as [Hr _].
  apply pf_fix_put_unfix; auto. lia.
Qed.

Lemma fix_this_unfix_same fd pn st st1 :
  PF_GetThisPage fd pn st = (PFE_OK, st1) ->
  exists st2, PF_UnfixPage fd pn false st1 = (PFE_OK, st2) /\ pf_same st st2.
Proof.
  intros H.
  destruct (PF_GetThisPage_spec _ _ _ _ _ H) as [(_ & -> & Hv & Hfix)|[? _]]; [|done].
  apply valid_page_spec in Hv as [Hr _].
  apply fix_unfix_same; [lia|done].
Qed.

Lemma fix_this_page_at fd pn st st1 :
  PF_GetThisPage fd pn st = (PFE_OK, st1) ->
  exists pg, page_at st pn = Ret pg /\ page_at st1 pn = Ret pg /\
             pf_data st !! Z.to_nat pn = Some pg /\ 0 <= pn.
Proof.
  intros H.
  destruct (PF_GetThisPage_spec _ _ _ _ _ H) as [(_ & -> & Hv & Hfix)|[? _]]; [|done].
  apply valid_page_spec in Hv as [Hr _].
  destruct (lookup_lt_is_Some_2 (pf_data st) (Z.to_nat pn)) as [pg Hpg].
  { unfold num_pages in Hr. lia. }
  exists pg. rewrite (pf_fix_page_at _ _ _ _ _ Hfix).
  rewrite (page_at_lookup st pn pg) by (done || lia).
  repeat split; auto. lia.
Qed.

Lemma pages_sized_lookup st p pg :
  pages_sized st -> pf_data st !! p = Some pg -> Z.of_nat (length pg) = PF_PAGE_SIZE.
Proof. unfold pages_sized. rewrite Forall_lookup. eauto. Qed.

(** C7.  A call of [RHF_DeleteRecord] that returns [RHF_OK] changes, in the
    page of the record, the two fields of its slot ([recordOffset] becomes
    the previous [nextFreeSlot], [recordLength] becomes -1) and the header's
    [nextFreeSlot], which becomes the slot number; every other byte of the
    page stays: [numSlots], [freeSpacePtr], the other slots, and everything
    behind the slot array, the bytes of the deleted record among them.  The
    page is unfixed (the pin counts are as before) and is dirty; no other
    page and nothing else in the file changes. *)
Theorem C7_delete_updates fd rid st st' :
  pf_wf st ->
  RHF_DeleteRecord fd rid st = Ret (RHF_OK, st') ->
  exists pg pg' ns nfs,
    pf_data st !! Z.to_nat (pageNum rid) = Some pg /\
    pf_data st' = <[Z.to_nat (pageNum rid) := pg']> (pf_data st) /\
    load_int pg OFF_numSlots = Ret ns /\ 0 <= slotNum rid < ns /\
    load_int pg OFF_nextFreeSlot = Ret nfs /\
    load_int pg' (OFF_recordOffset (slotNum rid)) = Ret nfs /\
    load_int pg' (OFF_recordLength (slotNum rid)) = Ret (-1) /\
    load_int pg' OFF_nextFreeSlot = Ret (slotNum rid) /\
    length pg' = length pg /\
    (forall i : nat,
       ~ (OFF_nextFreeSlot <= Z.of_nat i < OFF_nextFreeSlot + 4) ->
       ~ (OFF_recordOffset (slotNum rid) <= Z.of_nat i
          < OFF_recordOffset (slotNum rid) + SIZEOF_SLOT) ->
       pg' !! i = pg !! i) /\
    load_int pg' OFF_numSlots = Ret ns /\
    load_int pg' OFF_freeSpacePtr = load_int pg OFF_freeSpacePtr /\
    (forall s, 0 <= s -> s <> slotNum rid ->
       load_int pg' (OFF_recordOffset s) = load_int pg (OFF_recordOffset s) /\
       load_int pg' (OFF_recordLength s) = load_int pg (OFF_recordLength s)) /\
    (forall off n, SIZEOF_HEADER + ns * SIZEOF_SLOT <= off ->
       load_bytes pg' off n = load_bytes pg off n) /\
    pf_pin st' = pf_pin st /\ pf_free st' = pf_free st /\
    dirty_flag st' (Z.to_nat (pageNum rid)) = true.
Proof.
  intros Hwf H. unfold RHF_DeleteRecord in H.
  destruct (PF_GetThisPage fd (pageNum rid) st) as [e st1] eqn:Efix.
  destruct (e =? PFE_OK) eqn:Ee; simpl in H.
  2:{ apply Z.eqb_neq in Ee. injection H as -> _. done. }
  apply Z.eqb_eq in Ee. subst e.
  destruct (fix_this_page_at _ _ _ _ Efix) as (pg & _ & Hpg1 & Hpg & H0).
  rewrite Hpg1, obind_Ret_l in H.
  apply obind_Ret in H as (ns & Ens & H).
  destruct ((slotNum rid <? 0) || (slotNum rid >=? ns)) eqn:Ebad; [discriminate|].
  apply orb_false_iff in Ebad as [Eb1 Eb2].
  apply Z.ltb_ge in Eb1. rewrite Z.geb_leb in Eb2. apply Z.leb_gt in Eb2.
  apply obind_Ret in H as (off & Eoff & H).
  destruct (off =? -1); [discriminate|].
  apply obind_Ret in H as (pg3 & Edel & H). injection H as H.
  pose proof (load_int_Ret _ _ _ Ens) as (_ & _ & Hns).
  destruct (delete_from_page_spec pg (slotNum rid) pg3 ltac:(lia) Edel)
    as (nfs & Enfs & Ho & Hl & Hn & Hlen & Hbytes).
  destruct (fix_put_unfix _ _ _ _ pg3 true Efix)
    as (st2 & Eu & _ & _ & _ & Hd2 & Hp2 & Hf2 & _ & Hdirty).
  rewrite Eu in H. injection H as <-.
  exists pg, pg3, ns, nfs.
  unfold OFF_recordOffset, OFF_recordLength, OFF_nextFreeSlot, OFF_numSlots,
    OFF_freeSpacePtr, SIZEOF_HEADER, SIZEOF_SLOT in *.
  repeat split; auto; try lia.
  - rewrite <- Ens. apply load_int_ext; [done|]. intros i Hi. apply Hbytes; lia.
  - apply load_int_ext; [done|]. intros i Hi. apply Hbytes; lia.
  - apply load_int_ext; [done|]. intros i Hi. apply Hbytes; lia.
  - apply load_int_ext; [done|]. intros i Hi. apply Hbytes; lia.
  - intros off' n Hoff. apply load_bytes_ext; [done|]. intros i Hi. apply Hbytes; lia.
  - unfold dirty_flag. rewrite Hdirty; auto.
    destruct Hwf as (_ & Hl2 & _). apply lookup_lt_Some in Hpg. lia.
Qed.

(** ** One call of [RHF_InsertRecord] *)

Lemma insert_at_end {A} (l : list A) (x y : A) : <[length l := x]> (l ++ [y]) = l ++ [x].
Proof.
  replace (length l) with (length l + 0)%nat at 1 by lia.
  by rewrite insert_app_r.
Qed.

(** A page that [PF_AllocPage] returned: the writes through its buffer and
    the unfix that follow. *)
Lemma alloc_put_unfix fd st pn st3 buf' pg' d :
  pf_wf st ->
  PF_AllocPage fd st = (PFE_OK, pn, st3) ->
  exists st2,
    PF_UnfixPage fd pn d (put_page (put_page st3 pn buf') pn pg') = (PFE_OK, st2) /\
    fd = pf_fd st /\ pf_fd st2 = pf_fd st /\ pf_bufsize st2 = pf_bufsize st /\
    pf_strategy st2 = pf_strategy st /\ 0 <= pn /\
    length (pf_dirty st2) = length (pf_data st2) /\
    ((exists rest, pf_free st = Z.to_nat pn :: rest /\ pf_free st2 = rest /\
        (Z.to_nat pn < num_pages st)%nat /\
        pf_data st2 = <[Z.to_nat pn := pg']> (pf_data st) /\ pf_pin st2 = pf_pin st)
     \/ (pf_free st = [] /\ pf_free st2 = [] /\ pn = Z.of_nat (num_pages st) /\
         pf_data st2 = pf_data st ++ [pg'] /\ pf_pin st2 = pf_pin st ++ [0%nat])).
Proof.
  intros (Hl1 & Hl2 & Hfree & Hnd) H.
  destruct (PF_AllocPage_spec _ _ _ _ _ H) as [(_ & Hfd & Hfd3 & Hb3 & Hs3 & Hc)|[? _]]; [|done].
  set (st1 := put_page (put_page st3 pn buf') pn pg').
  assert (pf_data st1 = <[Z.to_nat pn := pg']> (pf_data st3)) as Hd1.
  { simpl. apply list_insert_insert_eq. }
  assert (0 <= pn) as H0 by (destruct Hc as [(?&?&?&?&->&?)|(?&->&?)]; lia).
  assert (exists n, pf_pin st1 !! Z.to_nat pn = Some (S n) /\
            ((exists rest, pf_free st = Z.to_nat pn :: rest /\ pf_free st3 = rest /\
                (Z.to_nat pn < num_pages st)%nat /\
                <[Z.to_nat pn := pg']> (pf_data st3) = <[Z.to_nat pn := pg']> (pf_data st) /\
                <[Z.to_nat pn := n]> (pf_pin st3) = pf_pin st /\
                length (pf_dirty st3) = length (pf_data st3))
             \/ (pf_free st = [] /\ pf_free st3 = [] /\ pn = Z.of_nat (num_pages st) /\
                 <[Z.to_nat pn := pg']> (pf_data st3) = pf_data st ++ [pg'] /\
                 <[Z.to_nat pn := n]> (pf_pin st3) = pf_pin st ++ [0%nat] /\
                 length (pf_dirty st3) = length (pf_data st3)))) as (n & Hn & Hcases).
  { destruct Hc as [(p & rest & n & Hf & -> & Hn & Hd & Hp & Hf3 & Hdl)
                   |(Hf & -> & Hd & Hp & Hf3 & Hdl)].
    - exists n. rewrite Nat2Z.id. simpl. split.
      + rewrite Hp. apply list_lookup_insert_eq. eapply lookup_lt_Some; eauto.
      + left. exists rest. pose proof (lookup_lt_Some _ _ _ Hn).
        unfold num_pages. repeat split; auto; try lia.
        * rewrite Hd. apply list_insert_insert_eq.
        * rewrite Hp. by apply insert_insert_back.
        * rewrite Hd, length_insert. lia.
    - exists 0%nat. rewrite Nat2Z.id. unfold num_pages. simpl. split.
      + rewrite Hp, <- Hl1. rewrite lookup_app_r by lia. by rewrite Nat.sub_diag.
      + right. repeat split; auto.
        * rewrite Hd. apply insert_at_end.
        * rewrite Hp, <- Hl1. apply insert_at_end.
        * rewrite Hd, length_app. simpl. lia. }
  destruct (PF_UnfixPage fd pn d st1) as [rc st2] eqn:Eu.
  assert (fd = pf_fd st1) as Hfd1 by (simpl; congruence).
  pose proof (PF_UnfixPage_pinned fd pn d st1 n Hfd1 H0 Hn) as Hrc.
  rewrite Eu in Hrc. simpl in Hrc. subst rc. exists st2. split; [done|].
  destruct (PF_UnfixPage_spec _ _ _ _ _ _ Eu)
    as (Hfd2 & Hb2 & Hs2 & Hd2 & Hf2 & [[_ (m & Hm & Hpin2 & Hdirty2)]|[? _]]); [|done].
  assert (m = n) as -> by congruence.
  assert (length (pf_dirty st2) = length (pf_data st2)) as Hdl2.
  { rewrite Hdirty2, Hd2, Hd1, length_insert.
    destruct Hcases as [(?&?&?&?&?&?&Hx)|(?&?&?&?&?&Hx)];
      destruct d; rewrite ?length_insert; simpl; exact Hx. }
  simpl in Hfd2, Hb2, Hs2, Hd2, Hf2, Hpin2. rewrite list_insert_insert_eq in Hd2.
  repeat split; try congruence.
  destruct Hcases as [(rest & Hf & Hf3 & Hlt & Hd & Hp & _)|(Hf & Hf3 & Hpn & Hd & Hp & _)].
  - left. exists rest. repeat split; auto; congruence.
  - right. repeat split; auto; congruence.
Qed.

(** The two ways a call of [RHF_InsertRecord] ends well: on the first page
    with room, or, when no page has room, on a new page. *)
Lemma RHF_InsertRecord_spec fd record L rid0 st rc rid st' :
  pf_wf st ->
  RHF_InsertRecord fd record L rid0 st = Ret (rc, rid, st') ->
  (rc <> RHF_OK /\ rid = rid0 /\ pf_same st st') \/
  (rc = RHF_OK /\ fd = pf_fd st /\ pf_fd st' = pf_fd st /\
   pf_bufsize st' = pf_bufsize st /\ pf_strategy st' = pf_strategy st /\
   0 <= pageNum rid /\ length (pf_dirty st') = length (pf_data st') /\
   exists pg pg5,
     insert_into_page pg record L = Ret (slotNum rid, pg5) /\
     ((valid_page st (pageNum rid) = true /\ page_at st (pageNum rid) = Ret pg /\
       page_has_space pg L = Ret true /\
       (forall q, q < pageNum rid -> valid_page st q = true ->
          exists pgq, page_at st q = Ret pgq /\ page_has_space pgq L = Ret false) /\
       pf_data st' = <[Z.to_nat (pageNum rid) := pg5]> (pf_data st) /\
       pf_pin st' = pf_pin st /\ pf_free st' = pf_free st)
      \/ ((forall q, valid_page st q = true ->
             exists pgq, page_at st q = Ret pgq /\ page_has_space pgq L = Ret false) /\
          rhf_InitPage zero_page = Ret pg /\
          ((exists rest, pf_free st = Z.to_nat (pageNum rid) :: rest /\ pf_free st' = rest /\
              (Z.to_nat (pageNum rid) < num_pages st)%nat /\
              pf_data st' = <[Z.to_nat (pageNum rid) := pg5]> (pf_data st) /\
              pf_pin st' = pf_pin st)
           \/ (pf_free st = [] /\ pf_free st' = [] /\
               pageNum rid = Z.of_nat (num_pages st) /\
               pf_data st' = pf_data st ++ [pg5] /\
               pf_pin st' = pf_pin st ++ [0%nat]))))).
Proof.
  intros Hwf H. unfold RHF_InsertRecord in H.
  apply obind_Ret in H as ([[e pn] st1] & Espace & H).
  unfold rhf_GetPageWithSpace in Espace.
  destruct (rhf_GetPageWithSpace_loop_spec _ _ _ _ _ _ _ _ _ Hwf Espace)
    as (st_mid & Hsame & Hcases).
  pose proof (pf_same_wf _ _ Hsame Hwf) as Hwfm.
  pose proof Hsame as (Hfdm & Hbm & Hsm & Hdm & Hpm & Hfm & Hdlm & _).
  destruct Hcases as [(-> & Hfd & Hlt & Hv & (pg & Hpg & Hsp) & Hmin & Hfix)
                     |[(-> & Hfd & Hnone & st3 & buf' & Halloc & Hinit & ->)|(Hne & ->)]].
  - (* a page with room *)
    rewrite Z.eqb_refl in H. cbn [negb] in H.
    rewrite (pf_fix_page_at _ _ _ _ _ Hfix), (pf_same_page_at _ _ _ Hsame), Hpg,
      obind_Ret_l in H.
    apply obind_Ret in H as ([s pg5] & Eins & H). cbn [fst snd] in H.
    destruct (pf_fix_put_unfix fd pn st_mid st1 pg5 true ltac:(congruence) ltac:(lia) Hfix)
      as (st2 & Eu & Hfd2 & Hb2 & Hs2 & Hd2 & Hp2 & Hf2 & Hdl2 & _).
    rewrite Eu in H. injection H as <- <- <-. right. simpl.
    destruct Hwf as (Hl1 & Hl2 & _).
    repeat split; try congruence; try lia.
    { rewrite Hd2, length_insert. congruence. }
    exists pg, pg5. split; [done|]. left.
    repeat split; auto; try congruence.
    intros q Hq Hvq. apply Hmin; auto. apply valid_page_spec in Hvq. lia.
  - (* a new page *)
    rewrite Z.eqb_refl in H. cbn [negb] in H.
    assert (0 <= pn /\ (Z.to_nat pn < num_pages st3)%nat) as [H0 Hlt].
    { pose proof (alloc_page_at _ _ _ _ Hwfm Halloc) as Hz.
      apply page_at_Ret in Hz as [? Hz]. apply lookup_lt_Some in Hz. done. }
    rewrite put_page_lookup in H by done.
    destruct (decide (pn = pn)); [|done]. rewrite obind_Ret_l in H.
    apply obind_Ret in H as ([s pg5] & Eins & H). cbn [fst snd] in H.
    destruct (alloc_put_unfix fd st_mid pn st3 buf' pg5 true Hwfm Halloc)
      as (st2 & Eu & Hfd2 & Hfd3 & Hb2 & Hs2 & _ & Hdl2 & Hc).
    rewrite Eu in H. injection H as <- <- <-. right. simpl.
    repeat split; try congruence.
    exists buf', pg5. split; [done|]. right.
    split. { intros q Hvq. apply Hnone; auto. apply valid_page_spec in Hvq. lia. }
    split; [done|].
    unfold num_pages in *.
    destruct Hc as [(rest & Hf & Hf3 & Hlt3 & Hd & Hp)|(Hf & Hf3 & Hpn & Hd & Hp)].
    + left. exists rest. repeat split; congruence.
    + right. repeat split; congruence.
  - destruct (e =? RHF_OK) eqn:Ee; [apply Z.eqb_eq in Ee; done|]. cbn [negb] in H.
    injection H as <- <- <-. left. done.
Qed.

(** ** The paths through [RHF_GetRecord] and [RHF_DeleteRecord] *)

Lemma RHF_GetRecord_spec fd rid recordBuf length st rc buf' len' st' :
  RHF_GetRecord fd rid recordBuf length st = Ret (rc, buf', len', st') ->
  (rc <> PFE_OK /\ fst (PF_GetThisPage fd (pageNum rid) st) = rc /\
   buf' = recordBuf /\ len' = length /\ st' = st)
  \/ (fst (PF_GetThisPage fd (pageNum rid) st) = PFE_OK /\ pf_same st st' /\
      exists pg ns,
        page_at st (pageNum rid) = Ret pg /\ load_int pg OFF_numSlots = Ret ns /\
        (((slotNum rid < 0 \/ slotNum rid >= ns) /\ rc = RHF_INVALIDRID /\
          buf' = recordBuf /\ len' = length)
         \/ (0 <= slotNum rid < ns /\
             exists off, load_int pg (OFF_recordOffset (slotNum rid)) = Ret off /\
               ((off = -1 /\ rc = RHF_NORECORD /\ buf' = recordBuf /\ len' = length)
                \/ (off <> -1 /\ rc = RHF_OK /\
                    load_int pg (OFF_recordLength (slotNum rid)) = Ret len' /\
                    memcpy_from_page recordBuf pg off len' = Ret buf'))))).
Proof.
  intros H. unfold RHF_GetRecord in H.
  destruct (PF_GetThisPage fd (pageNum rid) st) as [e st1] eqn:Efix.
  destruct (e =? PFE_OK) eqn:Ee; cbn [negb] in H.
  2:{ apply Z.eqb_neq in Ee. injection H as <- <- <- <-. left.
      destruct (PF_GetThisPage_spec _ _ _ _ _ Efix) as [[? _]|[_ ->]]; done. }
  apply Z.eqb_eq in Ee. subst e. right. split; [done|].
  destruct (fix_this_page_at _ _ _ _ Efix) as (pg & Hpg & Hpg1 & _ & H0).
  destruct (fix_this_unfix_same _ _ _ _ Efix) as (st2 & Eu & Hsame).
  rewrite Hpg1, obind_Ret_l in H.
  apply obind_Ret in H as (ns & Ens & H).
  rewrite Eu in H. cbn [snd] in H.
  destruct ((slotNum rid <? 0) || (slotNum rid >=? ns)) eqn:Ebad.
  { injection H as <- <- <- <-. split; [done|]. exists pg, ns. repeat split; auto.
    left. repeat split; auto.
    apply orb_true_iff in Ebad as [Eb|Eb]; [apply Z.ltb_lt in Eb; lia|].
    rewrite Z.geb_leb in Eb. apply Z.leb_le in Eb. lia. }
  apply orb_false_iff in Ebad as [Eb1 Eb2].
  apply Z.ltb_ge in Eb1. rewrite Z.geb_leb in Eb2. apply Z.leb_gt in Eb2.
  apply obind_Ret in H as (off & Eoff & H).
  destruct (off =? -1) eqn:Eo.
  { apply Z.eqb_eq in Eo. injection H as <- <- <- <-. split; [done|].
    exists pg, ns. repeat split; auto. right. split; [lia|].
    exists off. split; [done|]. left. done. }
  apply Z.eqb_neq in Eo.
  apply obind_Ret in H as (len & Elen & H).
  apply obind_Ret in H as (b & Ecpy & H).
  injection H as <- <- <- <-. split; [done|].
  exists pg, ns. repeat split; auto. right. split; [lia|].
  exists off. split; [done|]. right. done.
Qed.

Lemma RHF_DeleteRecord_spec fd rid st rc st' :
  RHF_DeleteRecord fd rid st = Ret (rc, st') ->
  (rc <> PFE_OK /\ fst (PF_GetThisPage fd (pageNum rid) st) = rc /\ st' = st)
  \/ (fst (PF_GetThisPage fd (pageNum rid) st) = PFE_OK /\
      exists pg ns,
        page_at st (pageNum rid) = Ret pg /\ load_int pg OFF_numSlots = Ret ns /\
        (((slotNum rid < 0 \/ slotNum rid >= ns) /\ rc = RHF_INVALIDRID /\ pf_same st st')
         \/ (0 <= slotNum rid < ns /\
             exists off, load_int pg (OFF_recordOffset (slotNum rid)) = Ret off /\
               ((off = -1 /\ rc = RHF_NORECORD /\ pf_same st st')
                \/ (off <> -1 /\ rc = RHF_OK /\
                    exists pg3, delete_from_page pg (slotNum rid) = Ret pg3 /\
                      pf_fd st' = pf_fd st /\ pf_bufsize st' = pf_bufsize st /\
                      pf_strategy st' = pf_strategy st /\
                      pf_data st' = <[Z.to_nat (pageNum rid) := pg3]> (pf_data st) /\
                      pf_pin st' = pf_pin st /\ pf_free st' = pf_free st /\
                      length (pf_dirty st') = length (pf_dirty st)))))).
Proof.
  intros H. unfold RHF_DeleteRecord in H.
  destruct (PF_GetThisPage fd (pageNum rid) st) as [e st1] eqn:Efix.
  destruct (e =? PFE_OK) eqn:Ee; cbn [negb] in H.
  2:{ apply Z.eqb_neq in Ee. injection H as <- <-. left.
      destruct (PF_GetThisPage_spec _ _ _ _ _ Efix) as [[? _]|[_ ->]]; done. }
  apply Z.eqb_eq in Ee. subst e. right. split; [done|].
  destruct (fix_this_page_at _ _ _ _ Efix) as (pg & Hpg & Hpg1 & _ & H0).
  destruct (fix_this_unfix_same _ _ _ _ Efix) as (st2 & Eu & Hsame).
  rewrite Hpg1, obind_Ret_l in H.
  apply obind_Ret in H as (ns & Ens & H).
  rewrite Eu in H. cbn [snd] in H.
  exists pg, ns. split; [done|]. split; [done|].
  destruct ((slotNum rid <? 0) || (slotNum rid >=? ns)) eqn:Ebad.
  { injection H as <- <-. left. split; [|done].
    apply orb_true_iff in Ebad as [Eb|Eb]; [apply Z.ltb_lt in Eb; lia|].
    rewrite Z.geb_leb in Eb. apply Z.leb_le in Eb. lia. }
  apply orb_false_iff in Ebad as [Eb1 Eb2].
  apply Z.ltb_ge in Eb1. rewrite Z.geb_leb in Eb2. apply Z.leb_gt in Eb2.
  right. split; [lia|].
  apply obind_Ret in H as (off & Eoff & H). exists off. split; [done|].
  destruct (off =? -1) eqn:Eo.
  { apply Z.eqb_eq in Eo. injection H as <- <-. left. done. }
  apply Z.eqb_neq in Eo. right.
  apply obind_Ret in H as (pg3 & Edel & H). injection H as H.
  destruct (fix_put_unfix _ _ _ _ pg3 true Efix)
    as (st3 & Eu3 & ? & ? & ? & ? & ? & ? & ? & _).
  rewrite Eu3 in H. injection H as <- <-.
  repeat split; auto. exists pg3. repeat split; auto.
Qed.

Lemma pf_same_pin_count st st' p : pf_same st st' -> pin_count st' p = pin_count st p.
Proof. intros (_ & _ & _ & _ & Hp & _). unfold pin_count. by rewrite Hp. Qed.

(** C9.  When [PF_GetThisPage] fixes the page of the RID, [RHF_GetRecord]
    and [RHF_DeleteRecord] return [RHF_INVALIDRID] if the slot number is
    negative or not below the page's [numSlots], and only then; in that case
    the caller's buffer and length are as they were, and so are the pages,
    the pin counts and the free list, and no page is newly dirty. *)
Theorem C9_invalid_rid fd rid recordBuf length st :
  pages_sized st ->
  fst (PF_GetThisPage fd (pageNum rid) st) = PFE_OK ->
  exists pg ns,
    page_at st (pageNum rid) = Ret pg /\ load_int pg OFF_numSlots = Ret ns /\
    ((slotNum rid < 0 \/ slotNum rid >= ns) ->
       (exists st', RHF_GetRecord fd rid recordBuf length st
                      = Ret (RHF_INVALIDRID, recordBuf, length, st') /\ pf_same st st') /\
       (exists st', RHF_DeleteRecord fd rid st = Ret (RHF_INVALIDRID, st') /\
                    pf_same st st')) /\
    (0 <= slotNum rid < ns ->
       (forall rc buf' len' st',
          RHF_GetRecord fd rid recordBuf length st = Ret (rc, buf', len', st') ->
          rc <> RHF_INVALIDRID) /\
       (forall rc st', RHF_DeleteRecord fd rid st = Ret (rc, st') -> rc <> RHF_INVALIDRID)).
Proof.
  intros Hsz Hfix.
  destruct (PF_GetThisPage fd (pageNum rid) st) as [e st1] eqn:Efix.
  simpl in Hfix. subst e.
  destruct (fix_this_page_at _ _ _ _ Efix) as (pg & Hpg & Hpg1 & Hlook & H0).
  pose proof (pages_sized_lookup _ _ _ Hsz Hlook) as Hlen.
  destruct (load_int_in_buf pg OFF_numSlots) as [ns Ens];
    [unfold OFF_numSlots, PF_PAGE_SIZE in *; lia..|].
  destruct (fix_this_unfix_same _ _ _ _ Efix) as (st2 & Eu & Hsame).
  exists pg, ns. split; [done|]. split; [done|]. split.
  - intros Hbad.
    assert ((slotNum rid <? 0) || (slotNum rid >=? ns) = true) as Eb.
    { apply orb_true_iff. rewrite Z.ltb_lt, Z.geb_leb, Z.leb_le. lia. }
    split; exists st2; (split; [|done]).
    + unfold RHF_GetRecord. rewrite Efix, Z.eqb_refl. cbn [negb].
      rewrite Hpg1, obind_Ret_l, Ens, obind_Ret_l, Eb, Eu. done.
    + unfold RHF_DeleteRecord. rewrite Efix, Z.eqb_refl. cbn [negb].
      rewrite Hpg1, obind_Ret_l, Ens, obind_Ret_l, Eb, Eu. done.
  - intros Hgood. split.
    + intros rc buf' len' st' H.
      apply RHF_GetRecord_spec in H as [(_ & <- & _)|(_ & _ & pg' & ns' & Hpg' & Ens' & Hc)].
      { rewrite Efix. done. }
      assert (pg' = pg) as -> by congruence. assert (ns' = ns) as -> by congruence.
      destruct Hc as [(? & _)|(_ & off & _ & [(_ & -> & _)|(_ & -> & _)])]; [lia|done..].
    + intros rc st' H.
      apply RHF_DeleteRecord_spec in H as [(_ & <- & _)|(_ & pg' & ns' & Hpg' & Ens' & Hc)].
      { rewrite Efix. done. }
      assert (pg' = pg) as -> by congruence. assert (ns' = ns) as -> by congruence.
      destruct Hc as [(? & _)|(_ & off & _ & [(_ & -> & _)|(_ & -> & _)])]; [lia|done..].
Qed.

(** C10.  A call of [RHF_InsertRecord], [RHF_GetRecord] or
    [RHF_DeleteRecord] that returns leaves every page with the pin count it
    had before the call.  When the call returns [RHF_INVALIDRID] or
    [RHF_NORECORD], the pages, the pin counts and the free list are as
    before the call and no page is newly dirty: the page it had fixed was
    unfixed with [dirty = FALSE]. *)
Theorem C10_calls_release_pages fd op st rc st' :
  pf_wf st ->
  exec fd op st = Ret (rc, st') ->
  (forall p, pin_count st' p = pin_count st p) /\
  (rc = RHF_INVALIDRID \/ rc = RHF_NORECORD -> pf_same st st').
Proof.
  intros Hwf H. destruct op as [record L|rid recordBuf|rid]; simpl in H.
  - apply obind_Ret in H as ([[rc1 rid1] st1] & E & H). injection H as <- <-.
    apply (RHF_InsertRecord_spec _ _ _ _ _ _ _ _ Hwf) in E
      as [(Hne & _ & Hsame)|(-> & _ & _ & _ & _ & H0 & _ & Hc)].
    { split; [|done]. intros p. by apply pf_same_pin_count. }
    split; [|intros [?|?]; done].
    destruct Hc as (pg & pg5 & _ & [(_ & _ & _ & _ & _ & Hp & _)
                                   |(_ & _ & [(rest & _ & _ & _ & _ & Hp)|(_ & _ & Hpn & _ & Hp)])]);
      intros p; unfold pin_count; rewrite Hp; try done.
    destruct (decide (p < length (pf_pin st))%nat).
    + by rewrite lookup_app_l.
    + rewrite (lookup_ge_None_2 (pf_pin st) p) by lia.
      destruct (decide (p = length (pf_pin st))) as [->|].
      * rewrite lookup_app_r, Nat.sub_diag by lia. done.
      * rewrite lookup_ge_None_2; [done|]. rewrite length_app. simpl. lia.
  - apply obind_Ret in H as ([[[rc1 b1] l1] st1] & E & H). injection H as <- <-.
    apply RHF_GetRecord_spec in E as [(Hne & _ & _ & _ & ->)|(_ & Hsame & _)].
    + split; [done|]. intros _. apply pf_same_refl.
    + split; [|done]. intros p. by apply pf_same_pin_count.
  - apply RHF_DeleteRecord_spec in H as [(Hne & _ & ->)|(_ & pg & ns & _ & _ & Hc)].
    + split; [done|]. intros _. apply pf_same_refl.
    + destruct Hc as [(_ & -> & Hsame)|(_ & off & _ & [(_ & -> & Hsame)|(_ & -> & Hd)])].
      * split; [|done]. intros p. by apply pf_same_pin_count.
      * split; [|done]. intros p. by apply pf_same_pin_count.
      * destruct Hd as (pg3 & _ & _ & _ & _ & _ & Hp & _).
        split; [|intros [?|?]; done]. intros p. unfold pin_count. by rewrite Hp.
Qed.

(** ** The choice of the page *)

Lemma geti_load pg off v : load_int pg off = Ret v -> geti pg off = v.
Proof. unfold geti. by intros ->. Qed.

Lemma load_geti pg off :
  0 <= off -> off + 4 <= Z.of_nat (length pg) -> load_int pg off = Ret (geti pg off).
Proof.
  intros H0 H1. destruct (load_int_in_buf pg off H0 H1) as [v Hv].
  by rewrite (geti_load _ _ _ Hv).
Qed.

Lemma geti_range pg off : -2147483648 <= geti pg off < 2147483648.
Proof.
  unfold geti. destruct (load_int pg off) eqn:E; try lia.
  by apply load_int_Ret in E as (_ & _ & ?).
Qed.

(** On a slotted page the test of [rhf_GetPageWithSpace] compares the free
    space with the record's length, plus the size of a slot when the free
    slot list is empty; no operation wraps around. *)
Lemma page_has_space_hdr_ok pg L :
  hdr_ok pg -> 0 <= L <= 2147483639 ->
  page_has_space pg L = Ret (free_space pg >=? space_needed pg L).
Proof.
  intros (Hlen & Hns & Hfsp) HL.
  unfold page_has_space, page_free_space, free_space, space_needed,
    nextFreeSlot, freeSpacePtr, numSlots in *.
  unfold OFF_nextFreeSlot, OFF_freeSpacePtr, OFF_numSlots, PF_PAGE_SIZE,
    SIZEOF_HEADER, SIZEOF_SLOT in *.
  rewrite !load_geti by lia. rewrite !obind_Ret_l.
  rewrite (wrap32_id (geti pg 4 - _)) by lia.
  rewrite wrap32_id; [done|]. destruct (geti pg 8 =? -1); lia.
Qed.

Lemma PF_GetNextPage_available fd pn st :
  fd = pf_fd st -> pf_wf st -> (pinned_frames st < pf_bufsize st)%nat ->
  fst (fst (PF_GetNextPage fd pn st)) = PFE_OK \/ fst (fst (PF_GetNextPage fd pn st)) = PFE_EOF.
Proof.
  intros -> (Hl1 & _) Hav. unfold PF_GetNextPage. rewrite Z.eqb_refl. cbn [negb].
  destruct (next_valid _ _ _) as [p|] eqn:En; [|by right].
  apply next_valid_spec in En as (_ & Hv & _). apply valid_page_spec in Hv as [Hr _].
  destruct (lookup_lt_is_Some_2 (pf_pin st) (Z.to_nat p)) as [n Hn].
  { unfold num_pages in Hr. lia. }
  pose proof (pf_fix_succeeds _ st n Hn (or_intror Hav)) as Hok.
  destruct (pf_fix (Z.to_nat p) st) as [rc st1]. simpl in Hok. subst rc.
  rewrite Z.eqb_refl. by left.
Qed.

Lemma pf_same_sized st st' : pf_same st st' -> pages_sized st -> pages_sized st'.
Proof. intros (_ & _ & _ & Hd & _). unfold pages_sized. by rewrite Hd. Qed.

Lemma page_has_space_sized pg L :
  Z.of_nat (length pg) = PF_PAGE_SIZE -> exists b, page_has_space pg L = Ret b.
Proof.
  intros Hlen. unfold page_has_space, page_free_space.
  unfold OFF_nextFreeSlot, OFF_freeSpacePtr, OFF_numSlots, PF_PAGE_SIZE in *.
  rewrite !load_geti by lia. rewrite !obind_Ret_l. eauto.
Qed.

(** The loop ends with a page, given a frame to fix it in. *)
Lemma rhf_GetPageWithSpace_loop_returns fuel fd L pnum pn0 st :
  pf_wf st -> fd = pf_fd st -> (pinned_frames st < pf_bufsize st)%nat ->
  pages_sized st ->
  Z.max 0 (Z.of_nat (num_pages st) - Z.max 0 (pnum + 1)) < Z.of_nat fuel ->
  exists pn st1, rhf_GetPageWithSpace_loop fuel fd L pnum pn0 st = Ret (RHF_OK, pn, st1).
Proof.
  revert pnum st. induction fuel as [|fuel IH]; intros pnum st Hwf Hfd Hav Hsz Hfuel.
  { lia. }
  simpl. destruct (PF_GetNextPage fd pnum st) as [[error pnum1] st1] eqn:Enext.
  pose proof (PF_GetNextPage_available fd pnum st Hfd Hwf Hav) as Hrc.
  rewrite Enext in Hrc. simpl in Hrc.
  destruct (PF_GetNextPage_spec _ _ _ _ _ _ Enext)
    as [(-> & _ & Hlt & Hv & Hmin & Hfix)
       |[(-> & _ & -> & -> & Hnone)|(Hne1 & Hne2 & -> & ->)]].
  - rewrite Z.eqb_refl. pose proof Hv as Hv'. apply valid_page_spec in Hv' as [Hr _].
    destruct (lookup_lt_is_Some_2 (pf_data st) (Z.to_nat pnum1)) as [pg Hpg].
    { unfold num_pages in Hr. lia. }
    rewrite (pf_fix_page_at _ _ _ _ _ Hfix), (page_at_lookup st pnum1 pg) by (done || lia).
    rewrite obind_Ret_l.
    destruct (page_has_space_sized pg L (pages_sized_lookup _ _ _ Hsz Hpg)) as [b ->].
    rewrite obind_Ret_l. destruct b; [eauto|].
    destruct (fix_unfix_same pnum1 st st1 ltac:(lia) Hfix) as (st2 & Eu & Hsame).
    rewrite Hfd, Eu, Z.eqb_refl. cbn [negb]. rewrite <- Hfd.
    pose proof Hsame as (Hfd2 & _ & _ & Hd2 & _).
    apply IH.
    + by eapply pf_same_wf.
    + congruence.
    + rewrite (pf_same_pinned _ _ Hsame). destruct Hsame as (_ & -> & _). done.
    + by eapply pf_same_sized.
    + unfold num_pages in *. rewrite Hd2. lia.
  - change (PFE_EOF =? PFE_OK) with false. rewrite Z.eqb_refl. cbn [negb].
    pose proof (PF_AllocPage_available fd st Hfd Hwf Hav) as Hok.
    destruct (PF_AllocPage fd st) as [[e3 pn3] st3] eqn:Ealloc.
    simpl in Hok. subst e3. rewrite Z.eqb_refl. cbn [negb].
    rewrite (alloc_page_at _ _ _ _ Hwf Ealloc), obind_Ret_l.
    destruct rhf_InitPage_zero as [buf ->]. rewrite obind_Ret_l. eauto.
  - destruct Hrc; done.
Qed.


Lemma rhf_InitPage_header pg :
  rhf_InitPage zero_page = Ret pg ->
  Z.of_nat (length pg) = PF_PAGE_SIZE /\
  numSlots pg = 0 /\ freeSpacePtr pg = PF_PAGE_SIZE /\ nextFreeSlot pg = -1.
Proof.
  intros H. vm_compute in H. injection H as <-.
  repeat split; vm_compute; reflexivity.
Qed.

Lemma dirty_flag_true st q : dirty_flag st q = true <-> pf_dirty st !! q = Some true.
Proof.
  unfold dirty_flag. destruct (pf_dirty st !! q) as [[]|]; simpl; split; congruence.
Qed.


(** ** The choice of the slot *)

Lemma memcpy_to_page_Ret pg off src n pg' :
  memcpy_to_page pg off src n = Ret pg' ->
  0 <= n <= Z.of_nat (length src) /\
  store_bytes pg off (take (Z.to_nat n) src) = Some pg' /\
  Z.of_nat (length (take (Z.to_nat n) src)) = n.
Proof.
  unfold memcpy_to_page. destruct ((n <? 0) || _) eqn:E; [discriminate|].
  apply orb_false_iff in E as [E1 E2]. apply Z.ltb_ge in E1, E2.
  intros H. apply of_option_Ret in H. repeat split; auto; try lia.
  rewrite length_take. lia.
Qed.

(** The header after steps 2 and 3 of [RHF_InsertRecord], when the record
    is written behind the header fields that were updated. *)
Lemma insert_into_page_header pg record L s pg5 :
  Z.of_nat (length pg) = PF_PAGE_SIZE -> 0 <= numSlots pg -> 0 <= L ->
  insert_into_page pg record L = Ret (s, pg5) ->
  (nextFreeSlot pg <> -1 -> SIZEOF_HEADER <= freeSpacePtr pg - L ->
     s = nextFreeSlot pg /\
     nextFreeSlot pg5 = recordOffset pg (nextFreeSlot pg) /\
     numSlots pg5 = numSlots pg) /\
  (nextFreeSlot pg = -1 -> 4 <= freeSpacePtr pg - L ->
     s = numSlots pg /\ numSlots pg5 = numSlots pg + 1).
Proof.
  intros Hsz Hns HL H. unfold insert_into_page in H.
  apply obind_Ret in H as (nfs & Enfs & H).
  apply obind_Ret in H as ([s1 pg1] & Ec & H). cbn [fst snd] in H.
  apply obind_Ret in H as (fsp & Efsp & H).
  apply obind_Ret in H as (pg2 & E2 & H).
  apply obind_Ret in H as (fsp' & Efsp' & H).
  apply obind_Ret in H as (pg3 & E3 & H).
  apply obind_Ret in H as (pg4 & E4 & H).
  apply obind_Ret in H as (off & Eoff & H).
  apply obind_Ret in H as (pg5' & E5 & H). injection H as <- <-.
  apply memcpy_to_page_Ret in E5 as (HLr & E5 & Hlen).
  unfold nextFreeSlot, freeSpacePtr, numSlots, recordOffset in *.
  rewrite (geti_load _ _ _ Enfs) in *.
  unfold OFF_nextFreeSlot, OFF_freeSpacePtr, OFF_numSlots, OFF_recordOffset,
    OFF_recordLength, SIZEOF_HEADER, SIZEOF_SLOT in *.
  pose proof (load_int_Ret _ _ _ Enfs) as (_ & _ & Rnfs).
  (* the slot is behind the header, whichever it is *)
  assert (0 <= s1 /\ load_int pg1 4 = load_int pg 4) as [Hs1 Hfsp1].
  { destruct (negb (nfs =? -1)) eqn:Ep.
    - apply obind_Ret in Ec as (next & Enext & Ec).
      apply obind_Ret in Ec as (p1 & Ep1 & Ec). injection Ec as <- <-.
      apply negb_true_iff, Z.eqb_neq in Ep.
      apply load_int_Ret in Enext as (? & _). split; [lia|].
      apply (load_int_store_int_other _ _ _ _ _ Ep1). lia.
    - apply obind_Ret in Ec as (ns & Ens & Ec).
      apply obind_Ret in Ec as (p1 & Ep1 & Ec). injection Ec as <- <-.
      rewrite (geti_load _ _ _ Ens) in Hns. split; [lia|].
      apply (load_int_store_int_other _ _ _ _ _ Ep1). lia. }
  rewrite Hfsp1 in Efsp. rewrite (geti_load _ _ _ Efsp) in *.
  pose proof (load_int_Ret _ _ _ Efsp) as (_ & _ & Rfsp).
  rewrite (load_int_store_int_same _ _ _ _ E2) in Efsp'. injection Efsp' as <-.
  rewrite (load_int_store_int_other _ _ _ _ _ E4) in Eoff by lia.
  rewrite (load_int_store_int_same _ _ _ _ E3) in Eoff. injection Eoff as <-.
  assert (forall o, o = 0 \/ o = 8 -> o + 4 <= wrap32 (wrap32 (fsp - L)) ->
            load_int pg5' o = load_int pg1 o) as Hhdr.
  { intros o Ho Hoff.
    rewrite (load_int_store_bytes_other _ _ _ _ _ E5) by lia.
    rewrite (load_int_store_int_other _ _ _ _ _ E4) by lia.
    rewrite (load_int_store_int_other _ _ _ _ _ E3) by lia.
    rewrite (load_int_store_int_other _ _ _ _ _ E2) by lia. done. }
  split.
  - intros Hp Hroom. rewrite !wrap32_id in Hhdr by (rewrite ?wrap32_id; lia).
    assert (negb (nfs =? -1) = true) as Ep by (by apply negb_true_iff, Z.eqb_neq).
    rewrite Ep in Ec.
    apply obind_Ret in Ec as (next & Enext & Ec).
    apply obind_Ret in Ec as (p1 & Ep1 & Ec). injection Ec as <- <-.
    split; [done|]. unfold geti.
    rewrite !Hhdr by lia.
    rewrite (load_int_store_int_same _ _ _ _ Ep1).
    rewrite (load_int_store_int_other _ _ _ _ _ Ep1) by lia.
    rewrite Enext. split; [|done].
    apply wrap32_id. by apply load_int_Ret in Enext as (_ & _ & ?).
  - intros -> Hroom. rewrite !wrap32_id in Hhdr by (rewrite ?wrap32_id; lia).
    change (negb (-1 =? -1)) with false in Ec.
    apply obind_Ret in Ec as (ns & Ens & Ec).
    apply obind_Ret in Ec as (p1 & Ep1 & Ec). injection Ec as <- <-.
    rewrite (geti_load _ _ _ Ens). split; [done|].
    unfold geti. rewrite Hhdr by lia.
    rewrite (load_int_store_int_same _ _ _ _ Ep1).
    apply wrap32_id.
    apply store_int_Ret in E3 as (_ & Hin & _).
    apply store_int_Ret in E2 as (_ & _ & Hl2).
    apply store_int_Ret in Ep1 as (_ & _ & Hl1).
    apply load_int_Ret in Ens as (_ & _ & ?).
    unfold PF_PAGE_SIZE in Hsz. lia.
Qed.

Lemma hdrs_ok_page st q pg :
  hdrs_ok st -> valid_page st q = true -> page_at st q = Ret pg -> hdr_ok pg.
Proof. intros H. apply H. Qed.

(** C6, as the code has it.  In a file whose page headers are consistent
    ([hdrs_ok]: [numSlots] is not negative and the slot array ends before
    [freeSpacePtr], which lies inside the page), a record of at most 4092
    bytes that [RHF_InsertRecord] puts on a page whose [nextFreeSlot] is
    not -1 gets that slot; the page's [nextFreeSlot] becomes what the
    slot's [recordOffset] held and [numSlots] stays.  On a page whose
    [nextFreeSlot] is -1 the record gets the slot [numSlots], and
    [numSlots] grows by one.  The page is a page of the file, or the page
    [rhf_InitPage] made of a new one. *)
Theorem C6_slot_choice fd record L rid0 st rid st' :
  pf_wf st -> hdrs_ok st -> 0 <= L <= 4092 ->
  RHF_InsertRecord fd record L rid0 st = Ret (RHF_OK, rid, st') ->
  exists pg pg',
    ((valid_page st (pageNum rid) = true /\ page_at st (pageNum rid) = Ret pg)
     \/ (valid_page st (pageNum rid) = false /\ rhf_InitPage zero_page = Ret pg)) /\
    page_at st' (pageNum rid) = Ret pg' /\
    (nextFreeSlot pg <> -1 ->
       slotNum rid = nextFreeSlot pg /\
       nextFreeSlot pg' = recordOffset pg (nextFreeSlot pg) /\
       numSlots pg' = numSlots pg) /\
    (nextFreeSlot pg = -1 ->
       slotNum rid = numSlots pg /\ numSlots pg' = numSlots pg + 1).
Proof.
  intros Hwf Hhdr HL H.
  destruct (RHF_InsertRecord_spec _ _ _ _ _ _ _ _ Hwf H)
    as [(? & _)|(_ & Hfd & _ & _ & _ & H0 & _ & pg & pg5 & Hins & Hc)]; [done|].
  exists pg, pg5.
  destruct Hc as [(Hv & Hpg & Hsp & _ & Hd & _)|(Hnone & Hinit & Hc)].
  - (* a page of the file, with room for the record *)
    pose proof (hdrs_ok_page _ _ _ Hhdr Hv Hpg) as Hok.
    rewrite (page_has_space_hdr_ok pg L Hok ltac:(lia)) in Hsp.
    injection Hsp as Hsp. apply Z.geb_ge in Hsp.
    destruct Hok as (Hlen & Hns & Hfsp).
    split; [left; done|]. split.
    { apply page_at_lookup; [done|]. rewrite Hd.
      apply page_at_Ret in Hpg as [_ Hpg].
      apply list_lookup_insert_eq. by eapply lookup_lt_Some. }
    unfold free_space, space_needed, SIZEOF_SLOT, SIZEOF_HEADER in Hsp, Hfsp.
    destruct (insert_into_page_header pg record L _ pg5 Hlen Hns ltac:(lia) Hins) as [Hpop Hnew].
    split.
    + intros Hp. apply Hpop; [done|]. unfold SIZEOF_HEADER.
      destruct (nextFreeSlot pg =? -1); lia.
    + intros Hp. apply Hnew; [done|]. rewrite Hp in Hsp. simpl in Hsp. lia.
  - (* a new page *)
    destruct (rhf_InitPage_header pg Hinit) as (Hlen & Hns & Hfsp & Hnfs).
    destruct (insert_into_page_header pg record L _ pg5 Hlen ltac:(lia) ltac:(lia) Hins)
      as [Hpop Hnew].
    split.
    { right. split; [|done]. apply not_true_is_false. rewrite valid_page_spec.
      destruct Hc as [(rest & Hf & _)|(_ & _ & Hpn & _)].
      - rewrite Hf. intros [_ Hnin]. apply Hnin. left.
      - lia. }
    split.
    { apply page_at_lookup; [done|].
      destruct Hc as [(rest & _ & _ & Hlt & -> & _)|(_ & _ & Hpn & -> & _)].
      - by apply list_lookup_insert_eq.
      - rewrite Hpn, Nat2Z.id. unfold num_pages.
        rewrite lookup_app_r, Nat.sub_diag by lia. done. }
    split; [intros; congruence|].
    intros _. apply Hnew; [done|]. unfold PF_PAGE_SIZE in Hfsp. lia.
Qed.

(** C6 fails for a longer record: one of 4096 bytes, inserted in a new
    file, goes to slot 0 of a new page, on which [rhf_InitPage] had set
    [numSlots] to 0 and [nextFreeSlot] to -1.  [RHF_InsertRecord] returns
    [RHF_OK], and the record's bytes, written from offset 0 on, have
    overwritten the header: [numSlots] is 0, not 1. *)
Lemma C6_long_record_overwrites_header :
  exists pg0 st' pg',
    rhf_InitPage zero_page = Ret pg0 /\
    nextFreeSlot pg0 = -1 /\ numSlots pg0 = 0 /\
    RHF_InsertRecord 0 (repeat 0 4096) 4096 (mkRID 0 0) (new_file 0 3)
      = Ret (RHF_OK, mkRID 0 0, st') /\
    page_at st' 0 = Ret pg' /\
    numSlots pg' <> numSlots pg0 + 1.
Proof.
  do 3 eexists.
  split; [vm_compute; reflexivity|].
  split; [vm_compute; reflexivity|].
  split; [vm_compute; reflexivity|].
  split; [vm_compute; reflexivity|].
  split; [vm_compute; reflexivity|].
  vm_compute. discriminate.
Qed.

(** ** The pages a scan holds *)

Lemma memcpy_from_page_Ret dst pg off n dst' :
  memcpy_from_page dst pg off n = Ret dst' ->
  0 <= n <= Z.of_nat (length dst) /\
  exists bs, load_bytes pg off n = Some bs /\ dst' = bs ++ drop (Z.to_nat n) dst.
Proof.
  unfold memcpy_from_page. destruct ((n <? 0) || _) eqn:E; [discriminate|].
  apply orb_false_iff in E as [E1 E2]. apply Z.ltb_ge in E1, E2.
  intros H. apply obind_Ret in H as (bs & Ebs & H). injection H as <-.
  apply of_option_Ret in Ebs. split; [lia|]. eauto.
Qed.

Lemma RHF_GetNextRecord_loop_inv st0 fuel scan recordBuf length rid st r :
  scan_inv st0 scan st ->
  RHF_GetNextRecord_loop fuel scan recordBuf length rid st = Ret r ->
  scan_inv st0 (nr_scan r) (nr_state r) /\
  (nr_rc r = RHF_OK -> page_is_fixed (nr_scan r) = 1) /\
  (nr_rc r <> RHF_OK -> page_is_fixed (nr_scan r) = 0).
Proof.
  revert scan recordBuf length rid st.
  induction fuel as [|fuel IH]; intros scan recordBuf length rid st Hinv H; [discriminate|].
  simpl in H. apply obind_Ret in H as (x & Ex & H).
  (* the scan has a page fixed after step 1, or the call has returned *)
  assert ((exists res, x = inl res /\ scan_inv st0 (nr_scan res) (nr_state res) /\
             nr_rc res <> RHF_OK /\ page_is_fixed (nr_scan res) = 0)
          \/ (exists scan1 st1, x = inr (scan1, st1) /\ scan_inv st0 scan1 st1 /\
                page_is_fixed scan1 = 1)) as Hx.
  { destruct Hinv as (Hfd & Hd & [(Hfix0 & Hpin)|(Hfix1 & Hrest)]).
    - rewrite Hfix0 in Ex. change (0 =? 0) with true in Ex.
      destruct (PF_GetNextPage (scan_fd scan) (currentPage scan) st)
        as [[error pn] st1] eqn:Enext.
      destruct (PF_GetNextPage_spec _ _ _ _ _ _ Enext)
        as [(-> & Hsfd & Hlt & Hv & _ & Hfix)
           |[(-> & _ & _ & -> & _)|(Hne1 & Hne2 & _ & ->)]].
      + rewrite Z.eqb_refl in Ex. cbn [negb] in Ex. injection Ex as <-. right.
        exists (mkScan (scan_fd scan) pn 0 (Some pn) 1), st1. split; [done|]. split; [|done].
        destruct (pf_fix_spec _ _ _ _ Hfix)
          as (Hfd1 & _ & _ & Hd1 & _ & _ & _ & [[_ (n & Hn & Hp1)]|[? _]]); [|done].
        apply valid_page_spec in Hv as [Hr _].
        split; [congruence|]. split; [congruence|]. right. simpl.
        repeat split; try congruence; try lia.
        exists n. rewrite <- Hpin. done.
      + change (PFE_EOF =? PFE_OK) with false in Ex. cbn [negb] in Ex.
        rewrite Z.eqb_refl in Ex. injection Ex as <-. left. eexists. split; [done|]. simpl.
        repeat split; auto.
      + destruct (error =? PFE_OK) eqn:E1; [apply Z.eqb_eq in E1; done|].
        destruct (error =? PFE_EOF) eqn:E2; [apply Z.eqb_eq in E2; done|].
        cbn [negb] in Ex. injection Ex as <-. left. eexists. split; [done|]. simpl.
        repeat split; auto.
    - rewrite Hfix1 in Ex. change (1 =? 0) with false in Ex. injection Ex as <-.
      right. exists scan, st. split; [done|]. split; [|done]. split; [done|]. split; [done|].
      right. done. }
  destruct Hx as [(res & -> & Hinv' & Hrc & Hfix')|(scan1 & st1 & -> & Hinv1 & Hfix1)].
  { injection H as <-. split; [done|]. split; [done|]. done. }
  pose proof Hinv1 as (Hfd1 & Hd1 & [(Hf0 & _)|(_ & Hsfd & Hp0 & Hs0 & Hbuf & n & Hn & Hpin)]);
    [congruence|].
  apply obind_Ret in H as (b & Eb & H). apply of_option_Ret in Eb.
  apply obind_Ret in H as (pg & Epg & H).
  apply obind_Ret in H as (ns & Ens & H).
  destruct (currentSlot scan1 >=? ns) eqn:Eend.
  - (* the page is exhausted *)
    assert (pf_pin st1 !! Z.to_nat (currentPage scan1) = Some (S n)) as Hn1.
    { rewrite Hpin. apply list_lookup_insert_eq. by eapply lookup_lt_Some. }
    destruct (PF_UnfixPage (scan_fd scan1) (currentPage scan1) false st1) as [e st2] eqn:Eu.
    pose proof (PF_UnfixPage_pinned (scan_fd scan1) (currentPage scan1) false st1 n
                  ltac:(congruence) Hp0 Hn1) as Hrc.
    rewrite Eu in Hrc. simpl in Hrc. subst e.
    rewrite Z.eqb_refl in H. cbn [negb] in H.
    apply IH in H; [done|].
    destruct (PF_UnfixPage_spec _ _ _ _ _ _ Eu)
      as (Hfd2 & _ & _ & Hd2 & _ & [[_ (m & Hm & Hpin2 & _)]|[? _]]); [|done].
    assert (m = n) as -> by congruence.
    split; [congruence|]. split; [congruence|]. left. simpl. split; [done|].
    rewrite Hpin2, Hpin. by apply insert_insert_back.
  - (* a slot *)
    rewrite Z.geb_leb in Eend. apply Z.leb_gt in Eend.
    pose proof (load_int_Ret _ _ _ Ens) as (_ & _ & Rns).
    assert (scan_inv st0
              (mkScan (scan_fd scan1) (currentPage scan1) (wrap32 (currentSlot scan1 + 1))
                      (pageBuf scan1) (page_is_fixed scan1)) st1) as Hinv2.
    { split; [done|]. split; [done|]. right. simpl.
      rewrite wrap32_id by lia. repeat split; auto; try lia. eauto. }
    apply obind_Ret in H as (len & Elen & H).
    destruct (len =? -1) eqn:El; cbn [negb] in H.
    + apply IH in H; done.
    + apply obind_Ret in H as (off & Eoff & H).
      apply obind_Ret in H as (buf' & Ecpy & H). injection H as <-. simpl.
      split; [done|]. split; [done|]. done.
Qed.

Lemma scan_inv_holds st0 scan st p :
  scan_inv st0 scan st -> pin_count st p = (pin_count st0 p + scan_holds scan p)%nat.
Proof.
  intros (_ & _ & [(Hf & Hp)|(Hf & _ & H0 & _ & _ & n & Hn & Hp)]);
    unfold pin_count, scan_holds; rewrite Hf, Hp.
  - change (0 =? 0) with true. cbv iota. lia.
  - change (1 =? 0) with false. cbv iota.
    destruct (Z.of_nat p =? currentPage scan) eqn:E.
    + apply Z.eqb_eq in E. rewrite <- E, Nat2Z.id in *.
      rewrite list_lookup_insert_eq by (by eapply lookup_lt_Some). rewrite Hn. simpl. lia.
    + apply Z.eqb_neq in E. rewrite list_lookup_insert_ne by lia. lia.
Qed.

Lemma scan_run_inv fd st0 scan st : scan_run fd st0 scan st -> scan_inv st0 scan st.
Proof.
  induction 1 as [scan0|scan st recordBuf length rid r _ IH H].
  - split; [done|]. split; [done|]. left. done.
  - unfold RHF_GetNextRecord in H.
    by apply (RHF_GetNextRecord_loop_inv st0) in H as (? & _).
Qed.

Lemma RHF_EndScan_inv st0 scan st :
  scan_inv st0 scan st ->
  exists scan' st', RHF_EndScan scan st = (RHF_OK, scan', st') /\
    page_is_fixed scan' = 0 /\ pf_pin st' = pf_pin st0 /\ pf_data st' = pf_data st0.
Proof.
  intros (Hfd & Hd & [(Hf & Hp)|(Hf & Hsfd & H0 & _ & _ & n & Hn & Hp)]);
    unfold RHF_EndScan; rewrite Hf.
  - change (negb (0 =? 0)) with false. cbv iota. rewrite Z.eqb_refl. cbn [negb].
    do 2 eexists. split; [done|]. done.
  - change (negb (1 =? 0)) with true. cbv iota.
    assert (pf_pin st !! Z.to_nat (currentPage scan) = Some (S n)) as Hn1.
    { rewrite Hp. apply list_lookup_insert_eq. by eapply lookup_lt_Some. }
    destruct (PF_UnfixPage (scan_fd scan) (currentPage scan) false st) as [e st2] eqn:Eu.
    pose proof (PF_UnfixPage_pinned (scan_fd scan) (currentPage scan) false st n
                  ltac:(congruence) H0 Hn1) as Hrc.
    rewrite Eu in Hrc. simpl in Hrc. subst e. rewrite Z.eqb_refl. cbn [negb].
    destruct (PF_UnfixPage_spec _ _ _ _ _ _ Eu)
      as (_ & _ & _ & Hd2 & _ & [[_ (m & Hm & Hpin2 & _)]|[? _]]); [|done].
    assert (m = n) as -> by congruence.
    do 2 eexists. split; [done|]. simpl. split; [done|]. split; [|congruence].
    rewrite Hpin2, Hp. by apply insert_insert_back.
Qed.

(** *** The loop of [RHF_GetNextRecord] ends within its bound *)

Lemma obind_not_Fuel {A B} (m : outcome A) (k : A -> outcome B) :
  m <> Fuel -> (forall a, m = Ret a -> k a <> Fuel) -> obind m k <> Fuel.
Proof. destruct m; simpl; auto. Qed.

Lemma of_option_not_Fuel {A} (o : option A) : of_option o <> Fuel.
Proof. by destruct o. Qed.

Lemma load_int_not_Fuel pg off : load_int pg off <> Fuel.
Proof. apply of_option_not_Fuel. Qed.

Lemma page_at_not_Fuel st p : page_at st p <> Fuel.
Proof. unfold page_at. destruct (p <? 0); [done|]. apply of_option_not_Fuel. Qed.

Lemma memcpy_from_page_not_Fuel dst pg off n : memcpy_from_page dst pg off n <> Fuel.
Proof.
  unfold memcpy_from_page. destruct (_ || _); [done|].
  apply obind_not_Fuel; [apply of_option_not_Fuel|done].
Qed.

Lemma RHF_GetNextRecord_loop_fuel st0 fuel scan recordBuf length rid st :
  pages_sized st0 -> scan_inv st0 scan st ->
  scan_measure scan st <= Z.of_nat fuel ->
  RHF_GetNextRecord_loop fuel scan recordBuf length rid st <> Fuel.
Proof.
  intros Hsz. revert scan recordBuf length rid st.
  induction fuel as [|fuel IH]; intros scan recordBuf length rid st Hinv Hm.
  { unfold scan_measure, pages_after in Hm. destruct (page_is_fixed scan =? 0); lia. }
  simpl. apply obind_not_Fuel.
  { destruct (page_is_fixed scan =? 0); [|done].
    destruct (PF_GetNextPage _ _ _) as [[error pn] st1].
    destruct (negb (error =? PFE_OK)); done. }
  intros x Ex.
  assert ((exists res, x = inl res)
          \/ (exists scan1 st1, x = inr (scan1, st1) /\ scan_inv st0 scan1 st1 /\
                page_is_fixed scan1 = 1 /\
                scan_measure scan1 st1 <= Z.of_nat (S fuel))) as Hx.
  { destruct Hinv as (Hfd & Hd & [(Hfix0 & Hpin)|(Hfix1 & Hrest)]).
    - rewrite Hfix0 in Ex. change (0 =? 0) with true in Ex.
      destruct (PF_GetNextPage (scan_fd scan) (currentPage scan) st)
        as [[error pn] st1] eqn:Enext.
      destruct (PF_GetNextPage_spec _ _ _ _ _ _ Enext)
        as [(-> & Hsfd & Hlt & Hv & _ & Hfix)|Herr].
      + rewrite Z.eqb_refl in Ex. cbn [negb] in Ex. injection Ex as <-. right.
        exists (mkScan (scan_fd scan) pn 0 (Some pn) 1), st1. split; [done|].
        destruct (pf_fix_spec _ _ _ _ Hfix)
          as (Hfd1 & _ & _ & Hd1 & _ & _ & _ & [[_ (n & Hn & Hp1)]|[? _]]); [|done].
        apply valid_page_spec in Hv as [Hr _].
        split.
        { split; [congruence|]. split; [congruence|]. right. simpl.
          repeat split; try congruence; try lia. exists n. rewrite <- Hpin. done. }
        split; [done|].
        unfold scan_measure, pages_after, num_pages in *. simpl.
        rewrite Hfix0 in Hm. change (0 =? 0) with true in Hm. rewrite Hd1. lia.
      + left. destruct (negb (error =? PFE_OK)) eqn:E.
        * injection Ex as <-. eauto.
        * apply negb_false_iff, Z.eqb_eq in E. subst error.
          destruct Herr as [(? & _)|(? & _)]; done.
    - rewrite Hfix1 in Ex. change (1 =? 0) with false in Ex. injection Ex as <-.
      right. exists scan, st. split; [done|]. split; [|done]. split; [done|]. split; [done|].
      right. done. }
  destruct Hx as [(res & ->)|(scan1 & st1 & -> & Hinv1 & Hfix1 & Hm1)]; [done|].
  pose proof Hinv1 as (Hfd1 & Hd1 & [(Hf0 & _)|(_ & Hsfd & Hp0 & Hs0 & Hbuf & n & Hn & Hpin)]);
    [congruence|].
  rewrite Hbuf. cbn [of_option]. rewrite obind_Ret_l.
  apply obind_not_Fuel; [apply page_at_not_Fuel|]. intros pg Epg.
  apply obind_not_Fuel; [apply load_int_not_Fuel|]. intros ns Ens.
  unfold scan_measure in Hm1. rewrite Hfix1 in Hm1. change (1 =? 0) with false in Hm1.
  destruct (currentSlot scan1 >=? ns) eqn:Eend.
  - destruct (PF_UnfixPage (scan_fd scan1) (currentPage scan1) false st1) as [e st2] eqn:Eu.
    destruct (negb (e =? PFE_OK)) eqn:Ee; [done|].
    apply negb_false_iff, Z.eqb_eq in Ee. subst e.
    destruct (PF_UnfixPage_spec _ _ _ _ _ _ Eu)
      as (Hfd2 & _ & _ & Hd2 & _ & [[_ (m & Hm2 & Hpin2 & _)]|[? _]]); [|done].
    assert (pf_pin st1 !! Z.to_nat (currentPage scan1) = Some (S n)) as Hn1.
    { rewrite Hpin. apply list_lookup_insert_eq. by eapply lookup_lt_Some. }
    assert (m = n) as -> by congruence.
    apply IH.
    + split; [congruence|]. split; [congruence|]. left. simpl. split; [done|].
      rewrite Hpin2, Hpin. by apply insert_insert_back.
    + unfold scan_measure, pages_after, num_pages in *. simpl. rewrite Hd2. lia.
  - rewrite Z.geb_leb in Eend. apply Z.leb_gt in Eend.
    pose proof (load_int_Ret _ _ _ Ens) as (_ & _ & Rns).
    apply obind_not_Fuel; [apply load_int_not_Fuel|]. intros len Elen.
    destruct (negb (len =? -1)).
    + apply obind_not_Fuel; [apply load_int_not_Fuel|]. intros off Eoff.
      apply obind_not_Fuel; [apply memcpy_from_page_not_Fuel|]. done.
    + apply page_at_Ret in Epg as [_ Epg]. rewrite Hd1 in Epg.
      pose proof (pages_sized_lookup _ _ _ Hsz Epg) as Hlen.
      apply load_int_Ret in Elen as (_ & Hin & _).
      unfold OFF_recordLength, SIZEOF_HEADER, SIZEOF_SLOT, PF_PAGE_SIZE in *.
      apply IH.
      * split; [done|]. split; [done|]. right. simpl.
        rewrite wrap32_id by lia. repeat split; auto; try lia. eauto.
      * unfold scan_measure. simpl. rewrite Hfix1. change (1 =? 0) with false.
        rewrite wrap32_id by lia.
        unfold pages_after in *. lia.
Qed.

Lemma scan_measure_fuel st0 scan st :
  scan_inv st0 scan st -> scan_measure scan st <= Z.of_nat (scan_fuel st).
Proof.
  intros (_ & _ & Hc). unfold scan_measure, scan_fuel, pages_after.
  destruct Hc as [(-> & _)|(-> & _ & H0 & Hs & _)].
  - change (0 =? 0) with true. lia.
  - change (1 =? 0) with false. lia.
Qed.

(** C8.  Between the calls of a scan, the scan holds at most one pin: none
    when [page_is_fixed] is 0, one, on its current page, when it is 1; the
    pin counts of the file are those from before the scan plus that pin.
    [RHF_GetNextRecord] always returns; it leaves a page fixed exactly when
    it returns a record ([RHF_OK]), and none when it returns [RHF_EOF] or
    an error of the paged file layer.  [RHF_EndScan] then unfixes the page
    if there is one: it returns [RHF_OK], the scan has no page fixed and
    the pin counts are those from before the scan. *)
Theorem C8_scan_holds_one_page fd st0 scan st :
  pages_sized st0 ->
  scan_run fd st0 scan st ->
  (forall p, pin_count st p = (pin_count st0 p + scan_holds scan p)%nat) /\
  (forall p, (scan_holds scan p <= 1)%nat /\
             (scan_holds scan p = 1%nat -> Z.of_nat p = currentPage scan)) /\
  (forall recordBuf length rid,
     RHF_GetNextRecord scan recordBuf length rid st <> Fuel /\
     forall r, RHF_GetNextRecord scan recordBuf length rid st = Ret r ->
       (nr_rc r = RHF_OK -> page_is_fixed (nr_scan r) = 1) /\
       (nr_rc r <> RHF_OK -> page_is_fixed (nr_scan r) = 0) /\
       (forall p, pin_count (nr_state r) p
                  = (pin_count st0 p + scan_holds (nr_scan r) p)%nat)) /\
  exists scan' st',
    RHF_EndScan scan st = (RHF_OK, scan', st') /\
    page_is_fixed scan' = 0 /\
    (forall p, scan_holds scan' p = 0%nat) /\
    (forall p, pin_count st' p = pin_count st0 p).
Proof.
  intros Hsz Hrun. pose proof (scan_run_inv _ _ _ _ Hrun) as Hinv.
  split; [intros p; by apply scan_inv_holds|].
  split.
  { intros p. unfold scan_holds. destruct (page_is_fixed scan =? 0); [lia|].
    destruct (Z.of_nat p =? currentPage scan) eqn:E; [|lia].
    apply Z.eqb_eq in E. lia. }
  split.
  { intros recordBuf length rid. split.
    - unfold RHF_GetNextRecord.
      apply (RHF_GetNextRecord_loop_fuel st0); auto. by apply (scan_measure_fuel st0).
    - intros r Hr. unfold RHF_GetNextRecord in Hr.
      apply (RHF_GetNextRecord_loop_inv st0) in Hr as (Hinv' & Hok & Herr); [|done].
      split; [done|]. split; [done|]. intros p. by apply scan_inv_holds. }
  destruct (RHF_EndScan_inv _ _ _ Hinv) as (scan' & st' & He & Hf & Hp & _).
  exists scan', st'. split; [done|]. split; [done|]. split.
  - intros p. unfold scan_holds. by rewrite Hf.
  - intros p. unfold pin_count. by rewrite Hp.
Qed.

(** ** Steps 2 and 3 of [RHF_InsertRecord] on a well-formed page *)

Lemma load_bytes_take pg off (src : list Z) pg' :
  store_bytes pg off src = Some pg' ->
  load_bytes pg' off (Z.of_nat (length src)) = Some src.
Proof. apply load_store_same. Qed.

Lemma geti_ext pg pg' off :
  length pg' = length pg ->
  (forall i : nat, off <= Z.of_nat i < off + 4 -> pg' !! i = pg !! i) ->
  geti pg' off = geti pg off.
Proof. intros Hl Hi. unfold geti. by rewrite (load_int_ext pg pg' off). Qed.

(** The page after the insertion, field by field: the record lies just
    below the old [freeSpacePtr], its slot describes it, and no byte outside
    the header, that slot and the record has changed. *)
Lemma insert_into_page_fields pg record L :
  hdr_ok pg -> 0 <= L <= Z.of_nat (length record) ->
  (nextFreeSlot pg = -1 \/ 0 <= nextFreeSlot pg < numSlots pg) ->
  free_space pg >= space_needed pg L ->
  exists s pg5,
    insert_into_page pg record L = Ret (s, pg5) /\
    length pg5 = length pg /\
    freeSpacePtr pg5 = freeSpacePtr pg - L /\
    recordOffset pg5 s = freeSpacePtr pg - L /\ recordLength pg5 s = L /\
    load_bytes pg5 (freeSpacePtr pg - L) L = Some (take (Z.to_nat L) record) /\
    (forall i : nat, SIZEOF_HEADER <= Z.of_nat i ->
       ~ (OFF_recordOffset s <= Z.of_nat i < OFF_recordOffset s + SIZEOF_SLOT) ->
       ~ (freeSpacePtr pg - L <= Z.of_nat i < freeSpacePtr pg) ->
       pg5 !! i = pg !! i) /\
    ((nextFreeSlot pg <> -1 /\ s = nextFreeSlot pg /\ numSlots pg5 = numSlots pg /\
      nextFreeSlot pg5 = recordOffset pg (nextFreeSlot pg))
     \/ (nextFreeSlot pg = -1 /\ s = numSlots pg /\ numSlots pg5 = numSlots pg + 1 /\
         nextFreeSlot pg5 = -1)).
Proof.
  intros (Hlen & Hns & Hfsp) HL Hnfs Hsp.
  unfold free_space, space_needed in Hsp.
  unfold insert_into_page, nextFreeSlot, freeSpacePtr, numSlots, recordOffset,
    recordLength in *.
  unfold OFF_nextFreeSlot, OFF_freeSpacePtr, OFF_numSlots, OFF_recordOffset,
    OFF_recordLength, SIZEOF_HEADER, SIZEOF_SLOT, PF_PAGE_SIZE in *.
  set (ns := geti pg 0) in *. set (fsp := geti pg 4) in *. set (nfs := geti pg 8) in *.
  rewrite (load_geti pg 8) by lia. fold nfs. rewrite obind_Ret_l.
  (* step 2: the slot *)
  assert (exists s pg1,
            (if negb (nfs =? -1)
             then next <-- load_int pg (12 + nfs * 8) ;;
                  pg1 <-- store_int pg 8 next ;; Ret (nfs, pg1)
             else ns <-- load_int pg 0 ;;
                  pg1 <-- store_int pg 0 (ns + 1) ;; Ret (ns, pg1)) = Ret (s, pg1) /\
            length pg1 = length pg /\ 0 <= s /\ 12 + s * 8 + 8 <= fsp - L /\
            (forall i : nat, 12 <= Z.of_nat i -> pg1 !! i = pg !! i) /\
            geti pg1 4 = fsp /\
            ((nfs <> -1 /\ s = nfs /\ geti pg1 0 = ns /\ geti pg1 8 = geti pg (12 + nfs * 8))
             \/ (nfs = -1 /\ s = ns /\ geti pg1 0 = ns + 1 /\ geti pg1 8 = -1)))
    as (s & pg1 & -> & Hl1 & Hs0 & Hsroom & Hb1 & Hfsp1 & Hcase).
  { destruct (nfs =? -1) eqn:Ep; cbn [negb].
    - apply Z.eqb_eq in Ep.
      rewrite (load_geti pg 0) by lia. fold ns. rewrite obind_Ret_l.
      destruct (store_int_in_buf pg 0 (ns + 1)) as [pg1 E1]; [lia..|].
      rewrite E1, obind_Ret_l. exists ns, pg1.
      pose proof (store_int_Ret _ _ _ _ E1) as (_ & _ & Hl1).
      split; [done|]. split; [done|]. split; [lia|]. split; [lia|].
      split. { intros i Hi. apply (store_int_lookup_other _ _ _ _ _ E1). lia. }
      split. { apply geti_ext; [done|]. intros i Hi.
               apply (store_int_lookup_other _ _ _ _ _ E1). lia. }
      right. split; [done|]. split; [done|]. split.
      + unfold geti. rewrite (load_int_store_int_same _ _ _ _ E1).
        apply wrap32_id. lia.
      + rewrite <- Ep. apply geti_ext; [done|]. intros i Hi.
        apply (store_int_lookup_other _ _ _ _ _ E1). lia.
    - apply Z.eqb_neq in Ep. destruct Hnfs as [?|Hnfs]; [done|].
      rewrite (load_geti pg (12 + nfs * 8)) by lia. rewrite obind_Ret_l.
      destruct (store_int_in_buf pg 8 (geti pg (12 + nfs * 8))) as [pg1 E1]; [lia..|].
      rewrite E1, obind_Ret_l. exists nfs, pg1.
      pose proof (store_int_Ret _ _ _ _ E1) as (_ & _ & Hl1).
      split; [done|]. split; [done|]. split; [lia|]. split; [lia|].
      split. { intros i Hi. apply (store_int_lookup_other _ _ _ _ _ E1). lia. }
      split. { apply geti_ext; [done|]. intros i Hi.
               apply (store_int_lookup_other _ _ _ _ _ E1). lia. }
      left. split; [done|]. split; [done|]. split.
      + apply geti_ext; [done|]. intros i Hi.
        apply (store_int_lookup_other _ _ _ _ _ E1). lia.
      + unfold geti at 1. rewrite (load_int_store_int_same _ _ _ _ E1).
        apply wrap32_id, geti_range. }
  rewrite obind_Ret_l. cbn [fst snd].
  (* step 3: the record *)
  rewrite (load_geti pg1 4) by lia. rewrite Hfsp1, obind_Ret_l.
  destruct (store_int_in_buf pg1 4 (fsp - L)) as [pg2 E2]; [lia..|].
  pose proof (store_int_Ret _ _ _ _ E2) as (_ & _ & Hl2).
  rewrite E2, obind_Ret_l, (load_int_store_int_same _ _ _ _ E2), obind_Ret_l.
  rewrite (wrap32_id (fsp - L)) by lia.
  destruct (store_int_in_buf pg2 (12 + s * 8) (fsp - L)) as [pg3 E3]; [lia..|].
  pose proof (store_int_Ret _ _ _ _ E3) as (_ & _ & Hl3).
  rewrite E3, obind_Ret_l.
  destruct (store_int_in_buf pg3 (12 + s * 8 + 4) L) as [pg4 E4]; [lia..|].
  pose proof (store_int_Ret _ _ _ _ E4) as (_ & _ & Hl4).
  rewrite E4, obind_Ret_l.
  rewrite (load_int_store_int_other _ _ _ _ _ E4) by lia.
  rewrite (load_int_store_int_same _ _ _ _ E3), obind_Ret_l.
  rewrite (wrap32_id (fsp - L)) by lia.
  assert (Z.of_nat (length (take (Z.to_nat L) record)) = L) as Htake
    by (rewrite length_take; lia).
  destruct (store_bytes_in_buf pg4 (fsp - L) (take (Z.to_nat L) record)) as [pg5 E5];
    [lia..|].
  pose proof (store_bytes_length _ _ _ _ E5) as Hl5.
  unfold memcpy_to_page.
  assert ((L <? 0) || (Z.of_nat (length record) <? L) = false) as ->.
  { apply orb_false_iff. split; apply Z.ltb_ge; lia. }
  rewrite E5. cbn [of_option]. rewrite obind_Ret_l.
  exists s, pg5. split; [done|].
  assert (forall i : nat, ~ (4 <= Z.of_nat i < 8) ->
            ~ (12 + s * 8 <= Z.of_nat i < 12 + s * 8 + 8) ->
            ~ (fsp - L <= Z.of_nat i < fsp) -> pg5 !! i = pg1 !! i) as Hb5.
  { intros i Hi1 Hi2 Hi3.
    rewrite (store_bytes_lookup_other _ _ _ _ _ E5) by lia.
    rewrite (store_int_lookup_other _ _ _ _ _ E4) by lia.
    rewrite (store_int_lookup_other _ _ _ _ _ E3) by lia.
    rewrite (store_int_lookup_other _ _ _ _ _ E2) by lia. done. }
  split; [congruence|].
  split.
  { unfold geti. rewrite (load_int_store_bytes_other _ _ _ _ _ E5) by lia.
    rewrite (load_int_store_int_other _ _ _ _ _ E4) by lia.
    rewrite (load_int_store_int_other _ _ _ _ _ E3) by lia.
    rewrite (load_int_store_int_same _ _ _ _ E2). apply wrap32_id. lia. }
  split.
  { unfold geti. rewrite (load_int_store_bytes_other _ _ _ _ _ E5) by lia.
    rewrite (load_int_store_int_other _ _ _ _ _ E4) by lia.
    rewrite (load_int_store_int_same _ _ _ _ E3). apply wrap32_id. lia. }
  split.
  { unfold geti. rewrite (load_int_store_bytes_other _ _ _ _ _ E5) by lia.
    rewrite (load_int_store_int_same _ _ _ _ E4). apply wrap32_id. lia. }
  split.
  { pose proof (load_store_same _ _ _ _ E5) as Hload. by rewrite Htake in Hload. }
  split.
  { intros i Hi1 Hi2 Hi3. rewrite Hb5 by lia. apply Hb1. lia. }
  assert (forall o, o = 0 \/ o = 8 -> geti pg5 o = geti pg1 o) as Hhdr.
  { intros o Ho. apply geti_ext; [congruence|]. intros i Hi. apply Hb5; lia. }
  rewrite !Hhdr by lia. done.
Qed.

Lemma chain_ok_members pg head chain c :
  chain_ok pg head chain -> c ∈ chain ->
  0 <= c < numSlots pg /\ recordLength pg c = -1.
Proof.
  revert head. induction chain as [|c' cs IH]; intros head H Hin; simpl in H.
  - by apply elem_of_nil in Hin.
  - destruct H as (_ & Hr & Hl & Hcs).
    apply elem_of_cons in Hin as [->|Hin]; [done|]. eauto.
Qed.

Lemma chain_ok_head pg head chain :
  chain_ok pg head chain -> head = -1 \/ 0 <= head < numSlots pg.
Proof. destruct chain; simpl; [auto|]. intros (-> & ? & _). auto. Qed.

(** A free slot list stays one when its slots keep their fields. *)
Lemma chain_ok_frame pg pg' head chain :
  numSlots pg <= numSlots pg' ->
  (forall c, c ∈ chain ->
     recordLength pg' c = recordLength pg c /\ recordOffset pg' c = recordOffset pg c) ->
  chain_ok pg head chain -> chain_ok pg' head chain.
Proof.
  intros Hns. revert head. induction chain as [|c cs IH]; intros head Hf H; simpl in *; [done|].
  destruct H as (-> & Hr & Hl & Hcs).
  destruct (Hf c ltac:(left)) as [Hl' Ho'].
  split; [done|]. split; [lia|]. split; [congruence|].
  rewrite Ho'. apply IH; [|done]. intros c' Hc'. apply Hf. by right.
Qed.

Lemma slot_record_frame pg pg' s :
  recordLength pg' s = recordLength pg s ->
  recordOffset pg' s = recordOffset pg s ->
  (recordLength pg s <> -1 ->
     load_bytes pg' (recordOffset pg s) (recordLength pg s)
     = load_bytes pg (recordOffset pg s) (recordLength pg s)) ->
  slot_record pg' s = slot_record pg s.
Proof.
  intros Hl Ho Hb. unfold slot_record. rewrite Hl, Ho.
  destruct (recordLength pg s =? -1) eqn:E; [done|]. apply Z.eqb_neq in E. auto.
Qed.

(** Steps 2 and 3 of [RHF_InsertRecord] on a well-formed page with room
    for the record: the page stays well formed, the record is in a slot
    that was free, and the other slots hold what they held. *)
Lemma insert_into_page_wf pg record L :
  wf_page pg -> 0 <= L <= Z.of_nat (length record) ->
  free_space pg >= space_needed pg L ->
  exists s pg5,
    insert_into_page pg record L = Ret (s, pg5) /\ wf_page pg5 /\
    length pg5 = length pg /\
    0 <= s < numSlots pg5 /\ numSlots pg <= numSlots pg5 /\
    (s < numSlots pg -> recordLength pg s = -1) /\
    slot_record pg5 s = Some (take (Z.to_nat L) record) /\
    (forall s', 0 <= s' < numSlots pg5 -> s' <> s ->
       s' < numSlots pg /\ slot_record pg5 s' = slot_record pg s' /\
       recordLength pg5 s' = recordLength pg s').
Proof.
  intros (Hhdr & Hslots & chain & Hnd & Hchain) HL Hsp.
  pose proof (chain_ok_head _ _ _ Hchain) as Hhead.
  destruct (insert_into_page_fields pg record L Hhdr HL Hhead Hsp)
    as (s & pg5 & Hins & Hlen5 & Hfsp5 & Hoff5 & Hlens5 & Hrec5 & Hbytes & Hcase).
  exists s, pg5. split; [done|].
  pose proof Hhdr as (Hlen & Hns & Hfsp).
  unfold free_space, space_needed in Hsp.
  unfold OFF_recordOffset, SIZEOF_HEADER, SIZEOF_SLOT, PF_PAGE_SIZE in *.
  assert (0 <= s /\ 12 + s * 8 + 8 <= freeSpacePtr pg - L /\
          numSlots pg <= numSlots pg5 <= numSlots pg + 1 /\ s < numSlots pg5 /\
          12 + numSlots pg5 * 8 <= freeSpacePtr pg - L) as (Hs0 & Hsroom & Hns5 & Hslt & Hroom5).
  { destruct Hcase as [(Hp & -> & -> & _)|(Hp & -> & -> & _)].
    - destruct Hhead as [?|?]; [done|].
      destruct (nextFreeSlot pg =? -1) eqn:E; [apply Z.eqb_eq in E; done|]. lia.
    - rewrite Hp in Hsp. simpl in Hsp. lia. }
  (* the other slots, and the records behind the old [freeSpacePtr] *)
  assert (forall s', 0 <= s' < numSlots pg5 -> s' <> s ->
            s' < numSlots pg /\
            recordLength pg5 s' = recordLength pg s' /\
            recordOffset pg5 s' = recordOffset pg s') as Hother.
  { intros s' Hs' Hne.
    assert (s' < numSlots pg) as Hlt.
    { destruct Hcase as [(_ & _ & <- & _)|(_ & -> & Hn5 & _)]; lia. }
    split; [done|].
    unfold recordLength, recordOffset, OFF_recordLength, OFF_recordOffset,
      SIZEOF_HEADER, SIZEOF_SLOT.
    split; (apply geti_ext; [done|]; intros i Hi; apply Hbytes; lia). }
  assert (forall off n, freeSpacePtr pg <= off ->
            load_bytes pg5 off n = load_bytes pg off n) as Hkeep.
  { intros off n Hoff. apply load_bytes_ext; [done|]. intros i Hi. apply Hbytes; lia. }
  assert (forall s', 0 <= s' < numSlots pg5 -> s' <> s ->
            slot_record pg5 s' = slot_record pg s') as Hrecs.
  { intros s' Hs' Hne. destruct (Hother s' Hs' Hne) as (Hlt & Hl & Ho).
    apply slot_record_frame; auto. intros Hlive. apply Hkeep.
    destruct (Hslots s' ltac:(lia)) as [?|(_ & ? & _)]; [done|lia]. }
  split.
  { (* the page is well formed *)
    split; [|split].
    - unfold hdr_ok, PF_PAGE_SIZE, SIZEOF_HEADER, SIZEOF_SLOT. rewrite Hlen5, Hfsp5. lia.
    - intros s' Hs'. destruct (decide (s' = s)) as [->|Hne].
      + right. rewrite Hlens5, Hoff5, Hfsp5. unfold PF_PAGE_SIZE. lia.
      + destruct (Hother s' Hs' Hne) as (Hlt & Hl & Ho).
        destruct (Hslots s' ltac:(lia)) as [Hd|(H1 & H2 & H3)].
        * left. congruence.
        * right. rewrite Hl, Ho, Hfsp5. unfold PF_PAGE_SIZE in *. lia.
    - destruct Hcase as [(Hp & -> & Hn5 & Hnfs5)|(Hp & -> & Hn5 & Hnfs5)].
      + destruct chain as [|c cs]; simpl in Hchain; [done|].
        destruct Hchain as (Hc & Hr & Hl & Hcs). rewrite Hc in *.
        apply NoDup_cons in Hnd as [Hnin Hnd].
        exists cs. split; [done|]. rewrite Hnfs5.
        apply (chain_ok_frame pg); [lia| |done].
        intros c' Hc'. pose proof (chain_ok_members _ _ _ _ Hcs Hc') as [Hr' _].
        destruct (Hother c' ltac:(lia) ltac:(intros ->; done)) as (_ & ? & ?). done.
      + exists []. split; [constructor|]. simpl. done. }
  split; [done|]. split; [lia|]. split; [lia|].
  split.
  { intros Hlt. destruct Hcase as [(Hp & -> & _)|(_ & -> & _)]; [|lia].
    destruct chain as [|c cs]; simpl in Hchain; [done|].
    destruct Hchain as (Hc & _ & Hl & _). by rewrite Hc. }
  split.
  { unfold slot_record. rewrite Hlens5, Hoff5.
    destruct (L =? -1) eqn:E; [apply Z.eqb_eq in E; lia|]. done. }
  intros s' Hs' Hne. destruct (Hother s' Hs' Hne) as (Hlt & Hl & _).
  split; [done|]. split; [by apply Hrecs|done].
Qed.

(** ** Step 4 of [RHF_DeleteRecord] on a well-formed page *)

Lemma delete_from_page_wf pg s :
  wf_page pg -> 0 <= s < numSlots pg -> recordLength pg s <> -1 ->
  recordOffset pg s <> -1 /\
  exists pg3,
    delete_from_page pg s = Ret pg3 /\ wf_page pg3 /\ length pg3 = length pg /\
    numSlots pg3 = numSlots pg /\ recordLength pg3 s = -1 /\
    (forall s', 0 <= s' < numSlots pg -> s' <> s ->
       slot_record pg3 s' = slot_record pg s' /\
       recordLength pg3 s' = recordLength pg s').
Proof.
  intros (Hhdr & Hslots & chain & Hnd & Hchain) Hs Hlive.
  pose proof Hhdr as (Hlen & Hns & Hfsp).
  unfold SIZEOF_HEADER, SIZEOF_SLOT, PF_PAGE_SIZE in *.
  split.
  { destruct (Hslots s Hs) as [?|(_ & ? & _)]; [done|]. lia. }
  assert (exists pg3, delete_from_page pg s = Ret pg3) as [pg3 Hdel].
  { unfold delete_from_page, OFF_nextFreeSlot, OFF_recordOffset, OFF_recordLength,
      SIZEOF_HEADER, SIZEOF_SLOT.
    rewrite (load_geti pg 8) by lia. rewrite obind_Ret_l.
    destruct (store_int_in_buf pg (12 + s * 8) (geti pg 8)) as [pg1 E1]; [lia..|].
    pose proof (store_int_Ret _ _ _ _ E1) as (_ & _ & Hl1).
    rewrite E1, obind_Ret_l.
    destruct (store_int_in_buf pg1 (12 + s * 8 + 4) (-1)) as [pg2 E2]; [lia..|].
    pose proof (store_int_Ret _ _ _ _ E2) as (_ & _ & Hl2).
    rewrite E2, obind_Ret_l.
    destruct (store_int_in_buf pg2 8 s) as [pg3 E3]; [lia..|]. eauto. }
  exists pg3. split; [done|].
  pose proof (geti_range pg 0) as Rns. fold (numSlots pg) in Rns.
  destruct (delete_from_page_spec pg s pg3 ltac:(lia) Hdel)
    as (nfs & Enfs & Ho & Hl & Hn & Hlen3 & Hbytes).
  unfold OFF_nextFreeSlot, OFF_recordOffset, OFF_recordLength,
    SIZEOF_HEADER, SIZEOF_SLOT in *.
  assert (numSlots pg3 = numSlots pg /\ freeSpacePtr pg3 = freeSpacePtr pg) as [Hns3 Hfsp3].
  { unfold numSlots, freeSpacePtr, OFF_numSlots, OFF_freeSpacePtr.
    split; (apply geti_ext; [done|]; intros i Hi; apply Hbytes; lia). }
  assert (forall s', 0 <= s' < numSlots pg -> s' <> s ->
            recordLength pg3 s' = recordLength pg s' /\
            recordOffset pg3 s' = recordOffset pg s') as Hother.
  { intros s' Hs' Hne.
    unfold recordLength, recordOffset, OFF_recordLength, OFF_recordOffset,
      SIZEOF_HEADER, SIZEOF_SLOT.
    split; (apply geti_ext; [done|]; intros i Hi; apply Hbytes; lia). }
  assert (recordLength pg3 s = -1) as Hls
    by (unfold recordLength, OFF_recordLength, SIZEOF_HEADER, SIZEOF_SLOT;
        by apply geti_load).
  assert (forall s', 0 <= s' < numSlots pg -> s' <> s ->
            slot_record pg3 s' = slot_record pg s') as Hrecs.
  { intros s' Hs' Hne. destruct (Hother s' Hs' Hne) as (Hl' & Ho').
    apply slot_record_frame; auto. intros Hlive'.
    destruct (Hslots s' Hs') as [?|(_ & ? & _)]; [done|].
    apply load_bytes_ext; [done|]. intros i Hi. apply Hbytes; lia. }
  split.
  { split; [|split].
    - unfold hdr_ok, PF_PAGE_SIZE, SIZEOF_HEADER, SIZEOF_SLOT. rewrite Hlen3, Hns3, Hfsp3. lia.
    - rewrite Hns3. intros s' Hs'. destruct (decide (s' = s)) as [->|Hne].
      + left. done.
      + destruct (Hother s' Hs' Hne) as (Hl' & Ho').
        destruct (Hslots s' Hs') as [Hd|(H1 & H2 & H3)].
        * left. congruence.
        * right. rewrite Hl', Ho', Hfsp3. done.
    - exists (s :: chain). split.
      + apply NoDup_cons. split; [|done]. intros Hin.
        by apply (chain_ok_members _ _ _ _ Hchain) in Hin as [_ ?].
      + simpl. split; [by apply geti_load|]. split; [lia|]. split; [done|].
        unfold recordOffset at 1, OFF_recordOffset, SIZEOF_HEADER, SIZEOF_SLOT.
        rewrite (geti_load _ _ _ Ho).
        apply geti_load in Enfs. fold (nextFreeSlot pg) in Enfs. rewrite <- Enfs.
        apply (chain_ok_frame pg); [lia| |done].
        intros c Hc. pose proof (chain_ok_members _ _ _ _ Hchain Hc) as [Hr Hd].
        apply Hother; [done|]. intros ->. done. }
  split; [done|]. split; [done|]. split; [done|].
  intros s' Hs' Hne. split; [by apply Hrecs|by apply Hother].
Qed.

(** ** The records of a file *)

Lemma elem_of_page_records pg s bs :
  (s, bs) ∈ page_records pg <-> 0 <= s < numSlots pg /\ slot_record pg s = Some bs.
Proof.
  unfold page_records. rewrite list_elem_of_omap. split.
  - intros (x & Hx & Hf). apply elem_of_seqZ in Hx.
    destruct (slot_record pg x) eqn:E; [|discriminate]. injection Hf as <- <-.
    split; [lia|done].
  - intros (Hs & Hr). exists s. split; [apply elem_of_seqZ; lia|]. by rewrite Hr.
Qed.

Lemma NoDup_omap_inj {A B} (f : A -> option B) (l : list A) :
  (forall x y z, f x = Some z -> f y = Some z -> x = y) -> NoDup l -> NoDup (omap f l).
Proof.
  intros Hinj. induction 1 as [|x l Hnin Hnd IH]; simpl; [constructor|].
  destruct (f x) as [z|] eqn:E; [|done].
  apply NoDup_cons. split; [|done].
  intros Hin. apply list_elem_of_omap in Hin as (y & Hy & Hfy).
  assert (x = y) by eauto. by subst.
Qed.

Lemma NoDup_page_records pg : NoDup (page_records pg).
Proof.
  apply NoDup_omap_inj; [|apply NoDup_seqZ].
  intros x y [s bs] Hx Hy.
  destruct (slot_record pg x); [|discriminate]. destruct (slot_record pg y); [|discriminate].
  simpl in *. congruence.
Qed.

Lemma elem_of_records_of_page st q rid bs :
  (rid, bs) ∈ records_of_page st q <-> pageNum rid = q /\ record_at st rid = Some bs.
Proof.
  unfold records_of_page, record_at. split.
  - destruct (valid_page st q) eqn:Ev; [|by intros ?%elem_of_nil].
    destruct (pf_data st !! Z.to_nat q) as [pg|] eqn:Epg; [|by intros ?%elem_of_nil].
    intros Hin. apply list_elem_of_fmap in Hin as ([s b] & Heq & Hin).
    injection Heq as -> ->. simpl. apply elem_of_page_records in Hin as [Hs Hr].
    split; [done|]. rewrite Ev, Epg.
    assert ((0 <=? s) && (s <? numSlots pg) = true) as ->; [|done].
    apply andb_true_iff. rewrite Z.leb_le, Z.ltb_lt. lia.
  - intros [<- H]. destruct (valid_page st (pageNum rid)); [|discriminate].
    destruct (pf_data st !! Z.to_nat (pageNum rid)) as [pg|]; [|discriminate].
    destruct ((0 <=? slotNum rid) && (slotNum rid <? numSlots pg)) eqn:Er; [|discriminate].
    apply andb_true_iff in Er as [E1 E2]. apply Z.leb_le in E1. apply Z.ltb_lt in E2.
    apply list_elem_of_fmap. exists (slotNum rid, bs). split; [by destruct rid|].
    apply elem_of_page_records. done.
Qed.

Lemma record_at_valid st rid bs :
  record_at st rid = Some bs -> valid_page st (pageNum rid) = true.
Proof. unfold record_at. by destruct (valid_page st (pageNum rid)). Qed.

Lemma elem_of_file_records st rid bs :
  (rid, bs) ∈ file_records st <-> record_at st rid = Some bs.
Proof.
  unfold file_records. rewrite list_elem_of_bind. split.
  - intros (q & Hin & _). by apply elem_of_records_of_page in Hin as [_ ?].
  - intros H. exists (pageNum rid). split; [by apply elem_of_records_of_page|].
    apply record_at_valid, valid_page_spec in H as [Hr _]. apply elem_of_seqZ. lia.
Qed.

Lemma NoDup_file_records st : NoDup (file_records st).
Proof.
  apply NoDup_bind; [| |apply NoDup_seqZ].
  - intros q1 q2 [rid bs] _ _ H1 H2.
    apply elem_of_records_of_page in H1 as [<- _].
    by apply elem_of_records_of_page in H2 as [<- _].
  - intros q _. unfold records_of_page.
    destruct (valid_page st q); [|constructor].
    destruct (pf_data st !! Z.to_nat q) as [pg|]; [|constructor].
    apply NoDup_fmap_2; [|apply NoDup_page_records].
    intros [s1 b1] [s2 b2] Heq. injection Heq as -> ->. done.
Qed.

(** Two files with the same records behind every RID have the same records,
    up to their order. *)
Lemma file_records_perm st' l :
  NoDup l ->
  (forall rid bs, (rid, bs) ∈ l <-> record_at st' rid = Some bs) ->
  file_records st' ≡ₚ l.
Proof.
  intros Hnd H. apply NoDup_Permutation; [apply NoDup_file_records|done|].
  intros [rid bs]. rewrite elem_of_file_records. symmetry. apply H.
Qed.

Lemma pf_same_record_at st st' rid : pf_same st st' -> record_at st' rid = record_at st rid.
Proof.
  intros Hsame. unfold record_at. rewrite (pf_same_valid _ _ _ Hsame).
  destruct Hsame as (_ & _ & _ & -> & _). done.
Qed.

Lemma pf_same_wf_file st st' : pf_same st st' -> wf_file st -> wf_file st'.
Proof.
  intros Hsame (Hwf & Hsz & Hav & Hpages).
  split; [by eapply pf_same_wf|]. split; [by eapply pf_same_sized|].
  split.
  { rewrite (pf_same_pinned _ _ Hsame). by destruct Hsame as (_ & -> & _). }
  intros q pg Hv Hpg. rewrite (pf_same_valid _ _ _ Hsame) in Hv.
  rewrite (pf_same_page_at _ _ _ Hsame) in Hpg. eauto.
Qed.

Lemma wf_page_init pg : rhf_InitPage zero_page = Ret pg -> wf_page pg.
Proof.
  intros H. destruct (rhf_InitPage_header pg H) as (Hlen & Hns & Hfsp & Hnfs).
  split; [|split].
  - unfold hdr_ok. rewrite Hns, Hfsp. unfold SIZEOF_HEADER, SIZEOF_SLOT, PF_PAGE_SIZE in *. lia.
  - rewrite Hns. lia.
  - exists []. split; [constructor|]. done.
Qed.

Lemma pinned_frames_app0 st pins :
  pf_pin st = pins ++ [0%nat] ->
  pinned_frames st = length (filter (fun n => is_pinned n = true) pins).
Proof.
  intros H. unfold pinned_frames. rewrite H, filter_app. simpl.
  rewrite length_app. simpl. lia.
Qed.

(** ** A file after one of its pages was written *)

(** The three ways a call changes the file: it writes a page of the file, it
    writes a page taken from the free list, or a page appended to the
    file. *)
Lemma wf_file_update st st2 pn pg5 :
  wf_file st -> 0 <= pn -> wf_page pg5 ->
  pf_bufsize st2 = pf_bufsize st ->
  length (pf_dirty st2) = length (pf_data st2) ->
  ((valid_page st pn = true /\
    pf_data st2 = <[Z.to_nat pn := pg5]> (pf_data st) /\
    pf_pin st2 = pf_pin st /\ pf_free st2 = pf_free st)
   \/ (exists rest, pf_free st = Z.to_nat pn :: rest /\ pf_free st2 = rest /\
         (Z.to_nat pn < num_pages st)%nat /\
         pf_data st2 = <[Z.to_nat pn := pg5]> (pf_data st) /\ pf_pin st2 = pf_pin st)
   \/ (pf_free st = [] /\ pf_free st2 = [] /\ pn = Z.of_nat (num_pages st) /\
       pf_data st2 = pf_data st ++ [pg5] /\ pf_pin st2 = pf_pin st ++ [0%nat])) ->
  wf_file st2 /\ valid_page st2 pn = true /\ page_at st2 pn = Ret pg5 /\
  forall q, q <> pn ->
    valid_page st2 q = valid_page st q /\
    (valid_page st q = true -> pf_data st2 !! Z.to_nat q = pf_data st !! Z.to_nat q).
Proof.
  intros ((Hl1 & Hl2 & Hfree & Hnd) & Hsz & Hav & Hpages) H0 Hwf5 Hb Hdl Hshape.
  pose proof Hwf5 as ((Hlen5 & _) & _).
  assert (valid_page st2 pn = true /\ page_at st2 pn = Ret pg5 /\
          (forall q, q <> pn ->
             valid_page st2 q = valid_page st q /\
             (valid_page st q = true ->
                pf_data st2 !! Z.to_nat q = pf_data st !! Z.to_nat q)) /\
          pf_wf st2 /\ pages_sized st2 /\ pinned_frames st2 = pinned_frames st)
    as (Hv & Hpg & Hother & Hwf2 & Hsz2 & Hpinned).
  { unfold pages_sized in *.
    destruct Hshape as [(Hvp & Hd & Hp & Hf)
                       |[(rest & Hf & Hf2 & Hlt & Hd & Hp)|(Hf & Hf2 & Hpn & Hd & Hp)]].
    - pose proof Hvp as Hvp'. apply valid_page_spec in Hvp' as [Hr Hnin].
      unfold num_pages in Hr.
      split. { apply valid_page_spec. unfold num_pages. rewrite Hd, length_insert, Hf. done. }
      split. { apply page_at_lookup; [done|]. rewrite Hd. apply list_lookup_insert_eq. lia. }
      split.
      { intros q Hq. split.
        - unfold valid_page, num_pages. by rewrite Hd, length_insert, Hf.
        - intros Hvq. apply valid_page_spec in Hvq as [? _].
          rewrite Hd. apply list_lookup_insert_ne. lia. }
      split.
      { unfold pf_wf. rewrite Hp, Hf, Hdl, Hd, length_insert. done. }
      split. { rewrite Hd. apply Forall_insert; done. }
      unfold pinned_frames. by rewrite Hp.
    - rewrite Hf in Hfree, Hnd. apply Forall_cons in Hfree as [_ Hfree].
      apply NoDup_cons in Hnd as [Hnin Hnd]. unfold num_pages in Hlt.
      split. { apply valid_page_spec. unfold num_pages. rewrite Hd, length_insert, Hf2.
               split; [lia|done]. }
      split. { apply page_at_lookup; [done|]. rewrite Hd. by apply list_lookup_insert_eq. }
      split.
      { intros q Hq.
        assert (valid_page st2 q = valid_page st q) as Heq.
        { unfold valid_page, num_pages, in_list. rewrite Hd, length_insert, Hf2, Hf.
          destruct ((0 <=? q) && (q <? Z.of_nat (length (pf_data st)))) eqn:Er; [|done].
          apply andb_true_iff in Er as [E1 _]. apply Z.leb_le in E1. simpl. f_equal.
          apply bool_decide_ext. rewrite elem_of_cons. split; [auto|].
          intros [?|?]; [lia|done]. }
        split; [done|]. intros Hvq. apply valid_page_spec in Hvq as [? _].
        rewrite Hd. apply list_lookup_insert_ne. lia. }
      split.
      { unfold pf_wf. rewrite Hp, Hf2, Hdl, Hd, length_insert. done. }
      split. { rewrite Hd. apply Forall_insert; done. }
      unfold pinned_frames. by rewrite Hp.
    - unfold num_pages in Hpn.
      split. { apply valid_page_spec. unfold num_pages. rewrite Hd, length_app, Hf2. simpl.
               split; [lia|]. apply not_elem_of_nil. }
      split. { apply page_at_lookup; [done|]. rewrite Hd, Hpn, Nat2Z.id.
               rewrite lookup_app_r, Nat.sub_diag by lia. done. }
      split.
      { intros q Hq.
        assert (valid_page st2 q = valid_page st q) as Heq.
        { unfold valid_page, num_pages. rewrite Hd, length_app, Hf2, Hf. simpl.
          f_equal. f_equal. apply eq_true_iff_eq. rewrite !Z.ltb_lt. lia. }
        split; [done|]. intros Hvq. apply valid_page_spec in Hvq as [? _].
        unfold num_pages in *. rewrite Hd. apply lookup_app_l. lia. }
      split.
      { unfold pf_wf. rewrite Hp, Hf2, Hdl, Hd, !length_app. simpl.
        split; [lia|]. split; [done|]. split; constructor. }
      split. { rewrite Hd. apply Forall_app. split; [done|]. by apply Forall_singleton. }
      by apply pinned_frames_app0. }
  split; [|done].
  split; [done|]. split; [done|]. split; [by rewrite Hpinned, Hb|].
  intros q pg Hvq Hpgq. destruct (decide (q = pn)) as [->|Hne]; [congruence|].
  destruct (Hother q Hne) as [Hveq Hdeq]. rewrite Hveq in Hvq.
  apply (Hpages q pg Hvq). apply page_at_Ret in Hpgq as [Hq0 Hpgq].
  apply page_at_lookup; [done|]. by rewrite <- Hdeq.
Qed.

Lemma record_at_other_page st st2 rid :
  valid_page st2 (pageNum rid) = valid_page st (pageNum rid) ->
  (valid_page st (pageNum rid) = true ->
     pf_data st2 !! Z.to_nat (pageNum rid) = pf_data st !! Z.to_nat (pageNum rid)) ->
  record_at st2 rid = record_at st rid.
Proof.
  intros Hv Hd. unfold record_at. rewrite Hv.
  destruct (valid_page st (pageNum rid)); [|done]. by rewrite Hd.
Qed.

Lemma record_at_page st rid pg :
  valid_page st (pageNum rid) = true -> page_at st (pageNum rid) = Ret pg ->
  record_at st rid =
    if (0 <=? slotNum rid) && (slotNum rid <? numSlots pg)
    then slot_record pg (slotNum rid) else None.
Proof.
  intros Hv Hpg. apply page_at_Ret in Hpg as [_ Hpg]. unfold record_at. by rewrite Hv, Hpg.
Qed.

Lemma record_at_invalid st rid :
  valid_page st (pageNum rid) = false -> record_at st rid = None.
Proof. intros Hv. unfold record_at. by rewrite Hv. Qed.

(** ** [RHF_InsertRecord] on a well-formed file *)

Lemma andb_range s n : (0 <=? s) && (s <? n) = true <-> 0 <= s < n.
Proof. rewrite andb_true_iff, Z.leb_le, Z.ltb_lt. tauto. Qed.

Lemma andb_range_false s n : (0 <=? s) && (s <? n) = false <-> ~ (0 <= s < n).
Proof. rewrite <- andb_range. by destruct ((0 <=? s) && (s <? n)). Qed.

(** A record that fits a page is inserted: the call returns [RHF_OK] and a
    RID that designated no record; afterwards it designates the record, and
    every other RID designates what it did. *)
Lemma RHF_InsertRecord_wf fd record L rid0 st :
  wf_file st -> fd = pf_fd st ->
  0 <= L <= MAX_RECORD -> L <= Z.of_nat (length record) ->
  exists rid st',
    RHF_InsertRecord fd record L rid0 st = Ret (RHF_OK, rid, st') /\
    wf_file st' /\ pf_fd st' = pf_fd st /\
    record_at st rid = None /\
    record_at st' rid = Some (take (Z.to_nat L) record) /\
    forall r', r' <> rid -> record_at st' r' = record_at st r'.
Proof.
  intros Hwff Hfd HL HLr. pose proof Hwff as (Hwf & Hsz & Hav & Hpages).
  unfold MAX_RECORD, PF_PAGE_SIZE, SIZEOF_HEADER, SIZEOF_SLOT in HL.
  destruct (rhf_GetPageWithSpace_loop_returns (S (num_pages st)) fd L (-1) (pageNum rid0) st
              Hwf Hfd Hav Hsz ltac:(lia)) as (pn & st1 & Hret).
  destruct (rhf_GetPageWithSpace_loop_spec _ _ _ _ _ _ _ _ _ Hwf Hret)
    as (st_mid & Hsame & Hcases).
  pose proof (pf_same_wf _ _ Hsame Hwf) as Hwfm.
  pose proof Hsame as (Hfdm & Hbm & Hsm & Hdm & Hpm & Hfm & Hdlm & _).
  unfold RHF_InsertRecord, rhf_GetPageWithSpace. rewrite Hret, obind_Ret_l, Z.eqb_refl.
  cbn [negb].
  (* the page the record goes to, and the state once it is written *)
  assert (exists pg s pg5 st2,
            page_at st1 pn = Ret pg /\
            insert_into_page pg record L = Ret (s, pg5) /\
            PF_UnfixPage fd pn true (put_page st1 pn pg5) = (PFE_OK, st2) /\
            0 <= pn /\ wf_page pg5 /\ pf_fd st2 = pf_fd st /\
            pf_bufsize st2 = pf_bufsize st /\
            length (pf_dirty st2) = length (pf_data st2) /\
            0 <= s < numSlots pg5 /\
            slot_record pg5 s = Some (take (Z.to_nat L) record) /\
            (forall s', 0 <= s' < numSlots pg5 -> s' <> s ->
               s' < numSlots pg /\ slot_record pg5 s' = slot_record pg s') /\
            numSlots pg <= numSlots pg5 /\
            (s < numSlots pg -> recordLength pg s = -1) /\
            ((valid_page st pn = true /\ page_at st pn = Ret pg /\
              pf_data st2 = <[Z.to_nat pn := pg5]> (pf_data st) /\
              pf_pin st2 = pf_pin st /\ pf_free st2 = pf_free st)
             \/ (valid_page st pn = false /\ numSlots pg = 0 /\
                 ((exists rest, pf_free st = Z.to_nat pn :: rest /\ pf_free st2 = rest /\
                     (Z.to_nat pn < num_pages st)%nat /\
                     pf_data st2 = <[Z.to_nat pn := pg5]> (pf_data st) /\
                     pf_pin st2 = pf_pin st)
                  \/ (pf_free st = [] /\ pf_free st2 = [] /\
                      pn = Z.of_nat (num_pages st) /\
                      pf_data st2 = pf_data st ++ [pg5] /\
                      pf_pin st2 = pf_pin st ++ [0%nat])))))
    as (pg & s & pg5 & st2 & Hpg1 & Hins & Eu & H0 & Hwf5 & Hfd2 & Hb2 & Hdl2 & Hs
        & Hrec & Hothers & Hnsle & Hfree_slot & Hshape).
  { destruct Hcases as [(_ & _ & Hlt & Hv & (pg & Hpg & Hsp) & _ & Hfix)
                       |[(_ & _ & _ & st3 & buf' & Halloc & Hinit & ->)|(Hne & _)]];
      [| |done].
    - pose proof (Hpages pn pg Hv Hpg) as Hwfp. pose proof Hwfp as (Hhdr & _).
      rewrite (page_has_space_hdr_ok pg L Hhdr ltac:(lia)) in Hsp.
      injection Hsp as Hsp. apply Z.geb_ge in Hsp.
      destruct (insert_into_page_wf pg record L Hwfp ltac:(lia) ltac:(lia))
        as (s & pg5 & Hins & Hwf5 & _ & Hs & Hnsle & Hfs & Hrec & Hothers).
      destruct (pf_fix_put_unfix fd pn st_mid st1 pg5 true ltac:(congruence) ltac:(lia) Hfix)
        as (st2 & Eu & Hfd2 & Hb2 & _ & Hd2 & Hp2 & Hf2 & Hdl2 & _).
      exists pg, s, pg5, st2.
      split. { by rewrite (pf_fix_page_at _ _ _ _ _ Hfix), (pf_same_page_at _ _ _ Hsame). }
      split; [done|]. split; [done|]. split; [lia|]. split; [done|].
      split; [congruence|]. split; [congruence|].
      split. { rewrite Hdl2, Hdlm, Hd2, length_insert, Hdm. by destruct Hwf as (_ & ? & _). }
      split; [done|]. split; [done|].
      split. { intros s' Hs' Hne. destruct (Hothers s' Hs' Hne) as (? & ? & _). done. }
      split; [done|]. split; [done|].
      left. repeat split; auto; congruence.
    - assert (0 <= pn /\ (Z.to_nat pn < num_pages st3)%nat) as [H0 Hlt].
      { pose proof (alloc_page_at _ _ _ _ Hwfm Halloc) as Hz.
        apply page_at_Ret in Hz as [? Hz]. apply lookup_lt_Some in Hz. done. }
      pose proof (wf_page_init _ Hinit) as Hwfp.
      destruct (rhf_InitPage_header _ Hinit) as (_ & Hns0 & Hfsp0 & Hnfs0).
      destruct (insert_into_page_wf buf' record L Hwfp ltac:(lia)) as
        (s & pg5 & Hins & Hwf5 & _ & Hs & Hnsle & Hfs & Hrec & Hothers).
      { unfold free_space, space_needed. rewrite Hns0, Hfsp0, Hnfs0.
        unfold PF_PAGE_SIZE, SIZEOF_HEADER, SIZEOF_SLOT. simpl. lia. }
      destruct (alloc_put_unfix fd st_mid pn st3 buf' pg5 true Hwfm Halloc)
        as (st2 & Eu & _ & Hfd2 & Hb2 & _ & _ & Hdl2 & Hc).
      exists buf', s, pg5, st2.
      split. { rewrite put_page_lookup by done. by destruct (decide (pn = pn)). }
      split; [done|]. split; [done|]. split; [done|]. split; [done|].
      split; [congruence|]. split; [congruence|]. split; [done|].
      split; [done|]. split; [done|].
      split. { intros s' Hs' Hne. destruct (Hothers s' Hs' Hne) as (? & ? & _). done. }
      split; [done|]. split; [done|].
      right. unfold num_pages in *.
      assert (valid_page st pn = false) as Hnv.
      { apply not_true_is_false. rewrite valid_page_spec. unfold num_pages.
        destruct Hc as [(rest & Hf & _)|(_ & _ & Hpn & _)].
        - rewrite <- Hfm, Hf. intros [_ Hnin]. apply Hnin. left.
        - unfold num_pages in Hpn. rewrite Hdm in Hpn. lia. }
      split; [done|]. split; [done|].
      destruct Hc as [(rest & Hf & Hf2 & Hlt2 & Hd & Hp)|(Hf & Hf2 & Hpn & Hd & Hp)].
      + left. exists rest. unfold num_pages in *. repeat split; congruence.
      + right. unfold num_pages in *. repeat split; congruence. }
  rewrite Hpg1, obind_Ret_l, Hins, obind_Ret_l. cbn [fst snd]. rewrite Eu.
  exists (mkRID pn s), st2. split; [done|].
  destruct (wf_file_update st st2 pn pg5 Hwff H0 Hwf5 Hb2 Hdl2) as (Hwf2 & Hv2 & Hpg2 & Hother).
  { destruct Hshape as [(? & _ & ? & ? & ?)|(_ & _ & [?|?])]; auto. }
  split; [done|]. split; [done|].
  split.
  { (* the RID designated nothing *)
    destruct Hshape as [(Hv & Hpg & _)|(Hnv & _)]; [|by apply record_at_invalid].
    rewrite (record_at_page st (mkRID pn s) pg Hv Hpg). simpl.
    destruct ((0 <=? s) && (s <? numSlots pg)) eqn:Er; [|done].
    apply andb_range in Er. unfold slot_record. rewrite Hfree_slot by lia. done. }
  split.
  { rewrite (record_at_page st2 (mkRID pn s) pg5 Hv2 Hpg2). simpl.
    assert ((0 <=? s) && (s <? numSlots pg5) = true) as -> by (by apply andb_range). done. }
  intros [q s'] Hne. destruct (decide (q = pn)) as [->|Hq].
  - assert (s' <> s) as Hs' by congruence.
    rewrite (record_at_page st2 (mkRID pn s') pg5 Hv2 Hpg2). simpl.
    destruct Hshape as [(Hv & Hpg & _)|(Hnv & Hns0 & _)].
    + rewrite (record_at_page st (mkRID pn s') pg Hv Hpg). simpl.
      destruct ((0 <=? s') && (s' <? numSlots pg5)) eqn:Er.
      * apply andb_range in Er. destruct (Hothers s' Er Hs') as [Hlt ->].
        assert ((0 <=? s') && (s' <? numSlots pg) = true) as -> by (apply andb_range; lia).
        done.
      * apply andb_range_false in Er.
        assert ((0 <=? s') && (s' <? numSlots pg) = false) as ->
          by (apply andb_range_false; lia).
        done.
    + rewrite (record_at_invalid st (mkRID pn s')) by done.
      destruct ((0 <=? s') && (s' <? numSlots pg5)) eqn:Er; [|done].
      apply andb_range in Er. destruct (Hothers s' Er Hs') as [Hlt _]. lia.
  - destruct (Hother q Hq) as [Hveq Hdeq]. by apply record_at_other_page.
Qed.

(** ** [RHF_DeleteRecord] and [RHF_GetRecord] on a well-formed file *)

Lemma PF_GetThisPage_valid fd pn st :
  wf_file st -> fd = pf_fd st -> valid_page st pn = true ->
  exists st1, PF_GetThisPage fd pn st = (PFE_OK, st1).
Proof.
  intros ((Hl1 & _) & _ & Hav & _) -> Hv. unfold PF_GetThisPage.
  rewrite Z.eqb_refl, Hv. cbn [negb].
  apply valid_page_spec in Hv as [Hr _]. unfold num_pages in Hr.
  destruct (lookup_lt_is_Some_2 (pf_pin st) (Z.to_nat pn)) as [n Hn]; [lia|].
  pose proof (pf_fix_succeeds _ st n Hn (or_intror Hav)) as Hok.
  destruct (pf_fix (Z.to_nat pn) st) as [rc st1]. simpl in Hok. subst rc. eauto.
Qed.

Lemma PF_GetThisPage_invalid fd pn st :
  fd = pf_fd st -> valid_page st pn = false ->
  PF_GetThisPage fd pn st = (PFE_INVALIDPAGE, st).
Proof. intros -> Hv. unfold PF_GetThisPage. by rewrite Z.eqb_refl, Hv. Qed.

Lemma slot_ok_record pg s :
  hdr_ok pg -> slot_ok pg s -> recordLength pg s <> -1 ->
  recordOffset pg s <> -1 /\ 0 <= recordLength pg s <= PF_PAGE_SIZE /\
  exists bs, slot_record pg s = Some bs /\ Z.of_nat (length bs) = recordLength pg s /\
             load_bytes pg (recordOffset pg s) (recordLength pg s) = Some bs.
Proof.
  intros (Hlen & Hns & Hfsp) [?|(Hl0 & Hoff & Hend)] Hlive; [done|].
  unfold SIZEOF_HEADER, SIZEOF_SLOT, PF_PAGE_SIZE in *.
  split; [lia|]. split; [lia|].
  unfold slot_record. destruct (recordLength pg s =? -1) eqn:E; [apply Z.eqb_eq in E; done|].
  rewrite load_bytes_in_buf by lia. eexists. split; [done|]. split; [|done].
  rewrite length_take, length_drop. lia.
Qed.

(** A call of [RHF_DeleteRecord] on a RID whose slot is not marked deleted:
    the record it designates, if any, is gone, and every other RID
    designates what it did. *)
Lemma RHF_DeleteRecord_wf fd rid st :
  wf_file st -> fd = pf_fd st -> ~ slot_deleted st rid ->
  exists rc st',
    RHF_DeleteRecord fd rid st = Ret (rc, st') /\
    wf_file st' /\ pf_fd st' = pf_fd st /\
    (forall r', r' <> rid -> record_at st' r' = record_at st r') /\
    record_at st' rid = None /\
    (rc = RHF_OK <-> is_Some (record_at st rid)).
Proof.
  intros Hwff Hfd Hnd. pose proof Hwff as (Hwf & Hsz & Hav & Hpages).
  unfold RHF_DeleteRecord.
  destruct (valid_page st (pageNum rid)) eqn:Hv.
  2:{ rewrite (PF_GetThisPage_invalid fd _ st Hfd Hv).
      change (negb (PFE_INVALIDPAGE =? PFE_OK)) with true. cbv iota.
      exists PFE_INVALIDPAGE, st. split; [done|]. split; [done|]. split; [done|].
      split; [done|]. rewrite (record_at_invalid _ _ Hv). split; [done|].
      split; [done|]. by intros [? ?]. }
  destruct (PF_GetThisPage_valid fd _ st Hwff Hfd Hv) as [st1 Efix].
  rewrite Efix, Z.eqb_refl. cbn [negb].
  destruct (fix_this_page_at _ _ _ _ Efix) as (pg & Hpg & Hpg1 & Hlook & H0).
  destruct (fix_this_unfix_same _ _ _ _ Efix) as (st2 & Eu & Hsame).
  pose proof (Hpages _ _ Hv Hpg) as Hwfp. pose proof Hwfp as (Hhdr & Hslots & _).
  pose proof Hhdr as (Hlen & Hns & Hfsp).
  rewrite Hpg1, obind_Ret_l.
  rewrite (load_geti pg OFF_numSlots) by (unfold OFF_numSlots, PF_PAGE_SIZE in *; lia).
  fold (numSlots pg). rewrite obind_Ret_l.
  rewrite (record_at_page st rid pg Hv Hpg).
  destruct ((slotNum rid <? 0) || (slotNum rid >=? numSlots pg)) eqn:Ebad.
  { (* no such slot *)
    rewrite Eu. cbn [snd]. exists RHF_INVALIDRID, st2. split; [done|].
    split; [by eapply pf_same_wf_file|]. split; [by destruct Hsame as (? & _)|].
    split. { intros r' _. by apply pf_same_record_at. }
    assert ((0 <=? slotNum rid) && (slotNum rid <? numSlots pg) = false) as Hr.
    { apply andb_range_false. apply orb_true_iff in Ebad.
      rewrite Z.ltb_lt, Z.geb_leb, Z.leb_le in Ebad. lia. }
    split.
    { rewrite (pf_same_record_at _ _ _ Hsame), (record_at_page st rid pg Hv Hpg). by rewrite Hr. }
    rewrite Hr. split; [done|]. by intros [? ?]. }
  apply orb_false_iff in Ebad as [Eb1 Eb2].
  apply Z.ltb_ge in Eb1. rewrite Z.geb_leb in Eb2. apply Z.leb_gt in Eb2.
  assert (recordLength pg (slotNum rid) <> -1) as Hlive.
  { intros Hd. apply Hnd. exists pg. repeat split; auto; lia. }
  destruct (delete_from_page_wf pg (slotNum rid) Hwfp ltac:(lia) Hlive)
    as (Hoff & pg3 & Hdel & Hwf3 & Hlen3 & Hns3 & Hl3 & Hothers).
  destruct (slot_ok_record pg (slotNum rid) Hhdr (Hslots (slotNum rid) ltac:(lia)) Hlive)
    as (_ & _ & bs & Hbs & _).
  unfold SIZEOF_HEADER, SIZEOF_SLOT, PF_PAGE_SIZE in *.
  rewrite (load_geti pg (OFF_recordOffset (slotNum rid)))
    by (unfold OFF_recordOffset, SIZEOF_HEADER, SIZEOF_SLOT; lia).
  fold (recordOffset pg (slotNum rid)). rewrite obind_Ret_l.
  destruct (recordOffset pg (slotNum rid) =? -1) eqn:Eo; [apply Z.eqb_eq in Eo; done|].
  rewrite Hdel, obind_Ret_l.
  destruct (fix_put_unfix _ _ _ _ pg3 true Efix)
    as (st3 & Eu3 & Hfd3 & Hb3 & _ & Hd3 & Hp3 & Hf3 & Hdl3 & _).
  rewrite Eu3. exists PFE_OK, st3. split; [done|].
  destruct (wf_file_update st st3 (pageNum rid) pg3 Hwff H0 Hwf3 Hb3)
    as (Hwff3 & Hv3 & Hpg3 & Hother).
  { rewrite Hdl3, Hd3, length_insert. by destruct Hwf as (_ & ? & _). }
  { left. done. }
  split; [done|]. split; [done|].
  split.
  { intros [q s'] Hne. destruct (decide (q = pageNum rid)) as [->|Hq].
    - assert (s' <> slotNum rid) as Hs' by (destruct rid; simpl in *; congruence).
      rewrite (record_at_page st3 (mkRID (pageNum rid) s') pg3 Hv3 Hpg3).
      rewrite (record_at_page st (mkRID (pageNum rid) s') pg Hv Hpg). simpl. rewrite Hns3.
      destruct ((0 <=? s') && (s' <? numSlots pg)) eqn:Er; [|done].
      apply andb_range in Er. by destruct (Hothers s' Er Hs') as [-> _].
    - destruct (Hother q Hq) as [Hveq Hdeq]. by apply record_at_other_page. }
  split.
  { rewrite (record_at_page st3 rid pg3 Hv3 Hpg3), Hns3.
    destruct ((0 <=? slotNum rid) && (slotNum rid <? numSlots pg)); [|done].
    unfold slot_record. by rewrite Hl3. }
  assert ((0 <=? slotNum rid) && (slotNum rid <? numSlots pg) = true) as ->
    by (apply andb_range; lia).
  rewrite Hbs. split; [eauto|done].
Qed.

(** [RHF_GetRecord] on a RID that designates a record returns the record. *)
Lemma RHF_GetRecord_wf fd rid recordBuf length0 st bs :
  wf_file st -> fd = pf_fd st ->
  record_at st rid = Some bs -> (length bs <= length recordBuf)%nat ->
  exists st',
    RHF_GetRecord fd rid recordBuf length0 st
      = Ret (RHF_OK, bs ++ drop (length bs) recordBuf, Z.of_nat (length bs), st') /\
    pf_same st st'.
Proof.
  intros Hwff Hfd Hrec Hbuf. pose proof Hwff as (Hwf & Hsz & Hav & Hpages).
  pose proof (record_at_valid _ _ _ Hrec) as Hv.
  unfold RHF_GetRecord.
  destruct (PF_GetThisPage_valid fd _ st Hwff Hfd Hv) as [st1 Efix].
  rewrite Efix, Z.eqb_refl. cbn [negb].
  destruct (fix_this_page_at _ _ _ _ Efix) as (pg & Hpg & Hpg1 & Hlook & H0).
  destruct (fix_this_unfix_same _ _ _ _ Efix) as (st2 & Eu & Hsame).
  pose proof (Hpages _ _ Hv Hpg) as Hwfp. pose proof Hwfp as (Hhdr & Hslots & _).
  pose proof Hhdr as (Hlen & Hns & Hfsp).
  rewrite (record_at_page st rid pg Hv Hpg) in Hrec.
  destruct ((0 <=? slotNum rid) && (slotNum rid <? numSlots pg)) eqn:Er; [|discriminate].
  apply andb_range in Er.
  assert (recordLength pg (slotNum rid) <> -1) as Hlive.
  { intros Hd. unfold slot_record in Hrec. rewrite Hd in Hrec. discriminate. }
  destruct (slot_ok_record pg (slotNum rid) Hhdr (Hslots _ Er) Hlive)
    as (Hoff & Hlr & bs' & Hbs & Hlbs & Hload).
  assert (bs' = bs) as -> by congruence.
  unfold SIZEOF_HEADER, SIZEOF_SLOT, PF_PAGE_SIZE in *.
  rewrite Hpg1, obind_Ret_l.
  rewrite (load_geti pg OFF_numSlots) by (unfold OFF_numSlots; lia).
  fold (numSlots pg). rewrite obind_Ret_l.
  assert ((slotNum rid <? 0) || (slotNum rid >=? numSlots pg) = false) as ->.
  { apply orb_false_iff. rewrite Z.ltb_ge, Z.geb_leb, Z.leb_gt. lia. }
  rewrite (load_geti pg (OFF_recordOffset (slotNum rid)))
    by (unfold OFF_recordOffset, SIZEOF_HEADER, SIZEOF_SLOT; lia).
  fold (recordOffset pg (slotNum rid)). rewrite obind_Ret_l.
  destruct (recordOffset pg (slotNum rid) =? -1) eqn:Eo; [apply Z.eqb_eq in Eo; done|].
  rewrite (load_geti pg (OFF_recordLength (slotNum rid)))
    by (unfold OFF_recordLength, SIZEOF_HEADER, SIZEOF_SLOT; lia).
  fold (recordLength pg (slotNum rid)). rewrite obind_Ret_l.
  unfold memcpy_from_page.
  assert ((recordLength pg (slotNum rid) <? 0)
          || (Z.of_nat (length recordBuf) <? recordLength pg (slotNum rid)) = false) as ->.
  { apply orb_false_iff. rewrite !Z.ltb_ge. lia. }
  rewrite Hload. cbn [of_option]. rewrite !obind_Ret_l, Eu.
  exists st2. split; [|done]. rewrite <- Hlbs, Nat2Z.id. done.
Qed.

(** [RHF_GetRecord] returns, whatever the RID, unless its slot is marked
    deleted; it leaves the file as it was. *)
Lemma RHF_GetRecord_returns fd rid recordBuf length0 st :
  wf_file st -> fd = pf_fd st -> ~ slot_deleted st rid ->
  PF_PAGE_SIZE <= Z.of_nat (length recordBuf) ->
  exists rc buf' len' st',
    RHF_GetRecord fd rid recordBuf length0 st = Ret (rc, buf', len', st') /\
    pf_same st st'.
Proof.
  intros Hwff Hfd Hnd Hbuf. pose proof Hwff as (Hwf & Hsz & Hav & Hpages).
  destruct (record_at st rid) as [bs|] eqn:Hrec.
  { assert (length bs <= length recordBuf)%nat as Hle.
    { pose proof (record_at_valid _ _ _ Hrec) as Hv.
      destruct (PF_GetThisPage_valid fd _ st Hwff Hfd Hv) as [st1 Efix].
      destruct (fix_this_page_at _ _ _ _ Efix) as (pg & Hpg & _).
      pose proof (Hpages _ _ Hv Hpg) as (Hhdr & Hslots & _).
      rewrite (record_at_page st rid pg Hv Hpg) in Hrec.
      destruct ((0 <=? slotNum rid) && (slotNum rid <? numSlots pg)) eqn:Er; [|discriminate].
      apply andb_range in Er.
      assert (recordLength pg (slotNum rid) <> -1) as Hlive.
      { intros Hd. unfold slot_record in Hrec. rewrite Hd in Hrec. discriminate. }
      destruct (slot_ok_record pg (slotNum rid) Hhdr (Hslots _ Er) Hlive)
        as (_ & Hlr & bs' & Hbs & Hlbs & _).
      assert (bs' = bs) as -> by congruence. lia. }
    destruct (RHF_GetRecord_wf fd rid recordBuf length0 st bs Hwff Hfd Hrec Hle)
      as (st' & -> & Hsame). eauto 10. }
  unfold RHF_GetRecord.
  destruct (valid_page st (pageNum rid)) eqn:Hv.
  2:{ rewrite (PF_GetThisPage_invalid fd _ st Hfd Hv).
      change (negb (PFE_INVALIDPAGE =? PFE_OK)) with true. cbv iota.
      do 4 eexists. split; [done|]. apply pf_same_refl. }
  destruct (PF_GetThisPage_valid fd _ st Hwff Hfd Hv) as [st1 Efix].
  rewrite Efix, Z.eqb_refl. cbn [negb].
  destruct (fix_this_page_at _ _ _ _ Efix) as (pg & Hpg & Hpg1 & Hlook & H0).
  destruct (fix_this_unfix_same _ _ _ _ Efix) as (st2 & Eu & Hsame).
  pose proof (Hpages _ _ Hv Hpg) as Hwfp. pose proof Hwfp as (Hhdr & Hslots & _).
  pose proof Hhdr as (Hlen & Hns & Hfsp).
  rewrite Hpg1, obind_Ret_l.
  rewrite (load_geti pg OFF_numSlots) by (unfold OFF_numSlots, PF_PAGE_SIZE in *; lia).
  fold (numSlots pg). rewrite obind_Ret_l.
  destruct ((slotNum rid <? 0) || (slotNum rid >=? numSlots pg)) eqn:Ebad.
  { rewrite Eu. do 4 eexists. split; [done|]. done. }
  exfalso.
  apply orb_false_iff in Ebad as [Eb1 Eb2].
  apply Z.ltb_ge in Eb1. rewrite Z.geb_leb in Eb2. apply Z.leb_gt in Eb2.
  rewrite (record_at_page st rid pg Hv Hpg) in Hrec.
  assert ((0 <=? slotNum rid) && (slotNum rid <? numSlots pg) = true) as Er
    by (apply andb_range; lia).
  rewrite Er in Hrec.
  assert (recordLength pg (slotNum rid) <> -1) as Hlive.
  { intros Hd. apply Hnd. exists pg. repeat split; auto; lia. }
  destruct (slot_ok_record pg (slotNum rid) Hhdr (Hslots (slotNum rid) ltac:(lia)) Hlive)
    as (_ & _ & bs & Hbs & _).
  congruence.
Qed.

(** ** Pages written are left dirty *)

Lemma lookup_insert_changed {A} (l : list A) (i q : nat) (x : A) :
  <[i := x]> l !! q <> l !! q -> q = i.
Proof.
  intros H. destruct (decide (q = i)) as [->|Hne]; [done|].
  by rewrite list_lookup_insert_ne in H.
Qed.

Lemma pf_same_flagged st st' : pf_same st st' -> writes_flagged st st'.
Proof. intros (_ & _ & _ & Hd & _) q Hq. by rewrite Hd in Hq. Qed.

Lemma alloc_put_unfix_dirty fd st pn st3 buf' pg' st2 :
  pf_wf st ->
  PF_AllocPage fd st = (PFE_OK, pn, st3) ->
  PF_UnfixPage fd pn true (put_page (put_page st3 pn buf') pn pg') = (PFE_OK, st2) ->
  pf_dirty st2 !! Z.to_nat pn = Some true.
Proof.
  intros Hwf Halloc Eu. pose proof Hwf as (Hl1 & Hl2 & _).
  pose proof (alloc_page_at _ _ _ _ Hwf Halloc) as Hz.
  apply page_at_Ret in Hz as [H0 Hz]. apply lookup_lt_Some in Hz.
  assert (length (pf_dirty st3) = length (pf_data st3)) as Hdl.
  { destruct (PF_AllocPage_spec _ _ _ _ _ Halloc) as [(_ & _ & _ & _ & _ & Hc)|[? _]]; [|done].
    destruct Hc as [(p & rest & n & _ & _ & _ & -> & _ & _ & ->)|(_ & _ & -> & _ & _ & ->)].
    - rewrite length_insert. lia.
    - rewrite length_app. simpl. lia. }
  destruct (PF_UnfixPage_spec _ _ _ _ _ _ Eu)
    as (_ & _ & _ & _ & _ & [[_ (m & _ & _ & ->)]|[? _]]); [|done].
  simpl. apply list_lookup_insert_eq. lia.
Qed.

(** [RHF_InsertRecord] changes no page but the one of the RID it returns,
    and leaves that page dirty. *)
Lemma RHF_InsertRecord_flagged fd record L rid0 st rc rid st' :
  pf_wf st ->
  RHF_InsertRecord fd record L rid0 st = Ret (rc, rid, st') ->
  writes_flagged st st' /\
  (rc = RHF_OK -> dirty_flag st' (Z.to_nat (pageNum rid)) = true).
Proof.
  intros Hwf H. pose proof H as Hins. unfold RHF_InsertRecord in H.
  apply obind_Ret in H as ([[e pn] st1] & Espace & H).
  unfold rhf_GetPageWithSpace in Espace.
  destruct (rhf_GetPageWithSpace_loop_spec _ _ _ _ _ _ _ _ _ Hwf Espace)
    as (st_mid & Hsame & Hcases).
  pose proof (pf_same_wf _ _ Hsame Hwf) as Hwfm.
  pose proof Hsame as (Hfdm & Hbm & Hsm & Hdm & Hpm & Hfm & Hdlm & _).
  pose proof Hwf as (Hl1 & Hl2 & _).
  assert (rc = RHF_OK -> pf_dirty st' !! Z.to_nat (pageNum rid) = Some true) as Hdirty.
  { intros ->.
    destruct Hcases as [(-> & Hfd & Hlt & Hv & (pg & Hpg & Hsp) & Hmin & Hfix)
                       |[(-> & Hfd & Hnone & st3 & buf' & Halloc & Hinit & ->)|(Hne & ->)]].
    - rewrite Z.eqb_refl in H. cbn [negb] in H.
      rewrite (pf_fix_page_at _ _ _ _ _ Hfix), (pf_same_page_at _ _ _ Hsame), Hpg,
        obind_Ret_l in H.
      apply obind_Ret in H as ([s pg5] & Eins & H). cbn [fst snd] in H.
      destruct (pf_fix_put_unfix fd pn st_mid st1 pg5 true ltac:(congruence) ltac:(lia) Hfix)
        as (st2 & Eu & _ & _ & _ & _ & _ & _ & _ & Hd).
      rewrite Eu in H. injection H as <- <-. simpl. apply Hd; [done|].
      apply page_at_Ret in Hpg as [_ Hpg]. apply lookup_lt_Some in Hpg. lia.
    - rewrite Z.eqb_refl in H. cbn [negb] in H.
      assert (0 <= pn /\ (Z.to_nat pn < num_pages st3)%nat) as [H0 Hlt].
      { pose proof (alloc_page_at _ _ _ _ Hwfm Halloc) as Hz.
        apply page_at_Ret in Hz as [? Hz]. apply lookup_lt_Some in Hz. done. }
      rewrite put_page_lookup in H by done.
      destruct (decide (pn = pn)); [|done]. rewrite obind_Ret_l in H.
      apply obind_Ret in H as ([s pg5] & Eins & H). cbn [fst snd] in H.
      destruct (alloc_put_unfix fd st_mid pn st3 buf' pg5 true Hwfm Halloc)
        as (st2 & Eu & _).
      pose proof (alloc_put_unfix_dirty _ _ _ _ _ _ _ Hwfm Halloc Eu) as Hd.
      rewrite Eu in H. injection H as <- <-. simpl. exact Hd.
    - destruct (e =? RHF_OK) eqn:Ee; [apply Z.eqb_eq in Ee; done|]. cbn [negb] in H.
      injection H as He _ _. done. }
  split; [|intros Hrc; by apply dirty_flag_true, Hdirty].
  destruct (RHF_InsertRecord_spec _ _ _ _ _ _ _ _ Hwf Hins)
    as [(_ & _ & Hs)|(Hrc & _ & _ & _ & _ & H0 & _ & pg & pg5 & _ & Hc)];
    [by apply pf_same_flagged|].
  intros q Hq. apply dirty_flag_true.
  assert (q = Z.to_nat (pageNum rid)) as ->; [|by apply Hdirty].
  destruct Hc as [(_ & _ & _ & _ & Hd & _)|(_ & _ & [(rest & _ & _ & _ & Hd & _)|(_ & _ & Hpn & Hd & _)])].
  - rewrite Hd in Hq. by apply lookup_insert_changed in Hq.
  - rewrite Hd in Hq. by apply lookup_insert_changed in Hq.
  - rewrite Hd in Hq. rewrite Hpn, Nat2Z.id. unfold num_pages.
    destruct (decide (q < length (pf_data st))%nat).
    + by rewrite lookup_app_l in Hq.
    + destruct (decide (q = length (pf_data st))); [done|].
      rewrite lookup_app_r, (lookup_ge_None_2 (pf_data st)) in Hq by lia.
      destruct (q - length (pf_data st))%nat eqn:E; [lia|]. simpl in Hq. done.
Qed.



(** [RHF_GetRecord] returns, whatever the RID, unless its slot is marked
    deleted, when the buffer is at least as long as the record that the RID
    designates; it leaves the file as it was. *)
Lemma RHF_GetRecord_returns_fit fd rid recordBuf length0 st :
  wf_file st -> fd = pf_fd st -> ~ slot_deleted st rid ->
  (forall bs, record_at st rid = Some bs -> (length bs <= length recordBuf)%nat) ->
  exists rc buf' len' st',
    RHF_GetRecord fd rid recordBuf length0 st = Ret (rc, buf', len', st') /\
    pf_same st st'.
Proof.
  intros Hwff Hfd Hnd Hbuf. pose proof Hwff as (Hwf & Hsz & Hav & Hpages).
  destruct (record_at st rid) as [bs|] eqn:Hrec.
  { destruct (RHF_GetRecord_wf fd rid recordBuf length0 st bs Hwff Hfd Hrec (Hbuf bs eq_refl))
      as (st' & -> & Hsame). eauto 10. }
  unfold RHF_GetRecord.
  destruct (valid_page st (pageNum rid)) eqn:Hv.
  2:{ rewrite (PF_GetThisPage_invalid fd _ st Hfd Hv).
      change (negb (PFE_INVALIDPAGE =? PFE_OK)) with true. cbv iota.
      do 4 eexists. split; [done|]. apply pf_same_refl. }
  destruct (PF_GetThisPage_valid fd _ st Hwff Hfd Hv) as [st1 Efix].
  rewrite Efix, Z.eqb_refl. cbn [negb].
  destruct (fix_this_page_at _ _ _ _ Efix) as (pg & Hpg & Hpg1 & Hlook & H0).
  destruct (fix_this_unfix_same _ _ _ _ Efix) as (st2 & Eu & Hsame).
  pose proof (Hpages _ _ Hv Hpg) as Hwfp. pose proof Hwfp as (Hhdr & Hslots & _).
  pose proof Hhdr as (Hlen & Hns & Hfsp).
  rewrite Hpg1, obind_Ret_l.
  rewrite (load_geti pg OFF_numSlots) by (unfold OFF_numSlots, PF_PAGE_SIZE in *; lia).
  fold (numSlots pg). rewrite obind_Ret_l.
  destruct ((slotNum rid <? 0) || (slotNum rid >=? numSlots pg)) eqn:Ebad.
  { rewrite Eu. do 4 eexists. split; [done|]. done. }
  exfalso.
  apply orb_false_iff in Ebad as [Eb1 Eb2].
  apply Z.ltb_ge in Eb1. rewrite Z.geb_leb in Eb2. apply Z.leb_gt in Eb2.
  rewrite (record_at_page st rid pg Hv Hpg) in Hrec.
  assert ((0 <=? slotNum rid) && (slotNum rid <? numSlots pg) = true) as Er
    by (apply andb_range; lia).
  rewrite Er in Hrec.
  assert (recordLength pg (slotNum rid) <> -1) as Hlive.
  { intros Hd. apply Hnd. exists pg. repeat split; auto; lia. }
  destruct (slot_ok_record pg (slotNum rid) Hhdr (Hslots (slotNum rid) ltac:(lia)) Hlive)
    as (_ & _ & bs & Hbs & _).
  congruence.
Qed.

(** [RHF_InsertRecord] of a record that fits a page, with the page before
    and after. *)
Lemma RHF_InsertRecord_page fd record L rid0 st rid st' :
  wf_file st -> 0 <= L <= MAX_RECORD -> L <= Z.of_nat (length record) ->
  RHF_InsertRecord fd record L rid0 st = Ret (RHF_OK, rid, st') ->
  exists pg pg5,
    ((valid_page st (pageNum rid) = true /\ page_at st (pageNum rid) = Ret pg)
     \/ (valid_page st (pageNum rid) = false /\ rhf_InitPage zero_page = Ret pg)) /\
    wf_page pg /\ free_space pg >= space_needed pg L /\
    insert_into_page pg record L = Ret (slotNum rid, pg5) /\
    valid_page st' (pageNum rid) = true /\ page_at st' (pageNum rid) = Ret pg5 /\
    forall q, q <> pageNum rid -> valid_page st q = true ->
      valid_page st' q = true /\ page_at st' q = page_at st q.
Proof.
  intros Hwff HL HLr Hins. pose proof Hwff as (Hwf & Hsz & Hav & Hpages).
  unfold MAX_RECORD, PF_PAGE_SIZE, SIZEOF_HEADER, SIZEOF_SLOT in HL.
  destruct (RHF_InsertRecord_spec _ _ _ _ _ _ _ _ Hwf Hins)
    as [(Hne & _)|(_ & Hfd & _ & Hb & _ & H0 & Hdl & pg & pg5 & Hip & Hcases)]; [done|].
  assert (wf_page pg /\ free_space pg >= space_needed pg L /\
          ((valid_page st (pageNum rid) = true /\ page_at st (pageNum rid) = Ret pg)
           \/ (valid_page st (pageNum rid) = false /\ rhf_InitPage zero_page = Ret pg)))
    as (Hwfp & Hspace & Hpage).
  { destruct Hcases as [(Hv & Hpg & Hsp & _)|(_ & Hinit & Hc)].
    - pose proof (Hpages _ _ Hv Hpg) as Hwfp. pose proof Hwfp as (Hhdr & _).
      rewrite (page_has_space_hdr_ok pg L Hhdr ltac:(lia)) in Hsp.
      injection Hsp as Hsp. apply Z.geb_ge in Hsp. auto.
    - split; [by apply wf_page_init|].
      destruct (rhf_InitPage_header _ Hinit) as (_ & Hns0 & Hfsp0 & Hnfs0).
      split.
      { unfold free_space, space_needed. rewrite Hns0, Hfsp0, Hnfs0.
        unfold PF_PAGE_SIZE, SIZEOF_HEADER, SIZEOF_SLOT. simpl. lia. }
      right. split; [|done]. apply not_true_is_false. rewrite valid_page_spec.
      destruct Hc as [(rest & Hf & _)|(_ & _ & Hpn & _)].
      + rewrite Hf. intros [_ Hnin]. apply Hnin. left.
      + lia. }
  destruct (insert_into_page_wf pg record L Hwfp ltac:(lia) Hspace)
    as (s & pg5' & Hip' & Hwf5 & _).
  rewrite Hip in Hip'. injection Hip' as <- <-.
  destruct (wf_file_update st st' (pageNum rid) pg5 Hwff H0 Hwf5 Hb Hdl)
    as (_ & Hv' & Hpg' & Hother).
  { destruct Hcases as [(? & _ & _ & _ & ? & ? & ?)|(_ & _ & [?|?])]; auto. }
  exists pg, pg5. split; [done|]. split; [done|]. split; [done|]. split; [done|].
  split; [done|]. split; [done|].
  intros q Hq Hvq. destruct (Hother q Hq) as [Hveq Hdeq].
  split; [congruence|]. unfold page_at. by rewrite (Hdeq Hvq).
Qed.

(** ** The records a scan returns *)

Lemma pf_but_pins_refl st : pf_but_pins st st.
Proof. unfold pf_but_pins. repeat split; auto. Qed.

Lemma pf_but_pins_fix st0 st p st1 :
  pf_but_pins st0 st -> pf_fix p st = (PFE_OK, st1) -> pf_but_pins st0 st1.
Proof.
  intros (?&?&?&?&?&?&Hm) Hx.
  destruct (pf_fix_spec _ _ _ _ Hx) as (?&?&?&?&?&Hm1&?&_).
  unfold pf_but_pins. repeat split; try congruence. auto.
Qed.

Lemma pf_but_pins_unfix st0 st fd p st1 :
  pf_but_pins st0 st -> PF_UnfixPage fd p false st = (PFE_OK, st1) -> pf_but_pins st0 st1.
Proof.
  intros (?&?&?&?&?&?&Hm) Hx.
  destruct (PF_UnfixPage_spec _ _ _ _ _ _ Hx) as (?&?&?&?&?&[[_ (n&_&_&Hd)]|[? _]]); [|done].
  unfold pf_but_pins. rewrite Hd. repeat split; try congruence. auto.
Qed.

Lemma pf_but_pins_same st0 st :
  pf_but_pins st0 st -> pf_pin st = pf_pin st0 -> pf_same st0 st.
Proof. intros (?&?&?&?&?&?&?) Hp. unfold pf_same. repeat split; auto. Qed.

Lemma pf_but_pins_valid st0 st q : pf_but_pins st0 st -> valid_page st q = valid_page st0 q.
Proof. intros (_&_&_&Hd&Hf&_). unfold valid_page, num_pages. by rewrite Hd, Hf. Qed.

Lemma bind_nil_all {A B} (f : A -> list B) (l : list A) :
  (forall x, x ∈ l -> f x = []) -> l ≫= f = [].
Proof.
  induction l as [|x l IH]; intros H; [done|].
  rewrite bind_cons, (H x) by left. apply IH. intros y Hy. apply H. by right.
Qed.

Lemma records_of_page_invalid st q : valid_page st q = false -> records_of_page st q = [].
Proof. intros H. unfold records_of_page. by rewrite H. Qed.

Lemma records_of_page_rest st q :
  valid_page st q = true -> records_of_page st q = rest_of_page st q 0.
Proof.
  intros H. unfold records_of_page, rest_of_page, page_records. rewrite H.
  destruct (pf_data st !! Z.to_nat q); [|done]. by rewrite Z.sub_0_r.
Qed.

Lemma rest_of_file_none st c :
  (forall q, c < q -> valid_page st q = false) -> rest_of_file st c = [].
Proof.
  intros H. apply bind_nil_all. intros q Hq. apply elem_of_seqZ in Hq.
  apply records_of_page_invalid, H. lia.
Qed.

Lemma rest_of_file_next st c pn :
  c < pn -> valid_page st pn = true ->
  (forall q, c < q < pn -> valid_page st q = false) ->
  rest_of_file st c = rest_of_page st pn 0 ++ rest_of_file st pn.
Proof.
  intros Hlt Hv Hmin. pose proof Hv as Hv'. apply valid_page_spec in Hv' as [Hr _].
  unfold rest_of_file.
  replace (Z.of_nat (num_pages st) - (c + 1))
    with ((pn - (c + 1)) + (Z.of_nat (num_pages st) - pn)) by lia.
  rewrite seqZ_app, bind_app by lia.
  rewrite bind_nil_all.
  2:{ intros q Hq. apply elem_of_seqZ in Hq. apply records_of_page_invalid, Hmin. lia. }
  replace (c + 1 + (pn - (c + 1))) with pn by lia.
  rewrite seqZ_cons by lia. rewrite bind_cons, records_of_page_rest by done.
  simpl. f_equal. f_equal. f_equal; lia.
Qed.

Lemma rest_of_page_end st p s pg :
  pf_data st !! Z.to_nat p = Some pg -> numSlots pg <= s -> rest_of_page st p s = [].
Proof. intros Hpg Hs. unfold rest_of_page. rewrite Hpg, seqZ_nil by lia. done. Qed.

Lemma rest_of_page_step st p s pg :
  pf_data st !! Z.to_nat p = Some pg -> s < numSlots pg ->
  rest_of_page st p s =
    match slot_record pg s with
    | Some bs => [(mkRID p s, bs)]
    | None => []
    end ++ rest_of_page st p (s + 1).
Proof.
  intros Hpg Hs. unfold rest_of_page. rewrite Hpg, seqZ_cons by lia.
  replace (Z.succ s) with (s + 1) by lia.
  replace (Z.pred (numSlots pg - s)) with (numSlots pg - (s + 1)) by lia.
  simpl. destruct (slot_record pg s); done.
Qed.

Lemma PF_GetNextPage_ok_or_eof fd pn st :
  fd = pf_fd st -> length (pf_pin st) = length (pf_data st) ->
  (pinned_frames st < pf_bufsize st)%nat ->
  fst (fst (PF_GetNextPage fd pn st)) = PFE_OK \/ fst (fst (PF_GetNextPage fd pn st)) = PFE_EOF.
Proof.
  intros -> Hl1 Hav. unfold PF_GetNextPage. rewrite Z.eqb_refl. cbn [negb].
  destruct (next_valid _ _ _) as [p|] eqn:En; [|by right].
  apply next_valid_spec in En as (_ & Hv & _). apply valid_page_spec in Hv as [Hr _].
  destruct (lookup_lt_is_Some_2 (pf_pin st) (Z.to_nat p)) as [n Hn].
  { unfold num_pages in Hr. lia. }
  pose proof (pf_fix_succeeds _ st n Hn (or_intror Hav)) as Hok.
  destruct (pf_fix (Z.to_nat p) st) as [rc st1]. simpl in Hok. subst rc.
  rewrite Z.eqb_refl. by left.
Qed.

(** One call of [RHF_GetNextRecord]: it returns the first of the records
    that remain, or [RHF_EOF] when none remains. *)
Lemma RHF_GetNextRecord_loop_spec st0 fuel scan recordBuf length0 rid st :
  wf_file st0 -> scan_pos st0 scan st ->
  scan_measure scan st <= Z.of_nat fuel ->
  PF_PAGE_SIZE <= Z.of_nat (length recordBuf) ->
  exists r,
    RHF_GetNextRecord_loop fuel scan recordBuf length0 rid st = Ret r /\
    scan_pos st0 (nr_scan r) (nr_state r) /\
    match remaining st0 scan with
    | [] => nr_rc r = RHF_EOF /\ remaining st0 (nr_scan r) = [] /\
            page_is_fixed (nr_scan r) = 0
    | (rid', bs) :: rest =>
        nr_rc r = RHF_OK /\ nr_rid r = rid' /\ nr_length r = Z.of_nat (length bs) /\
        nr_buf r = bs ++ drop (length bs) recordBuf /\
        remaining st0 (nr_scan r) = rest
    end.
Proof.
  intros Hwff. pose proof Hwff as (Hwf0 & Hsz0 & Hav0 & Hpages0).
  revert scan recordBuf length0 rid st.
  induction fuel as [|fuel IH]; intros scan recordBuf length0 rid st Hpos Hm Hbuf.
  { unfold scan_measure, pages_after in Hm. destruct (page_is_fixed scan =? 0); lia. }
  simpl.
  (* step 1 *)
  assert ((exists res,
             (if page_is_fixed scan =? 0 then
                let '(error, pn, st1) := PF_GetNextPage (scan_fd scan) (currentPage scan) st in
                if negb (error =? PFE_OK) then
                  Ret (inl (mkNext (if error =? PFE_EOF then RHF_EOF else error)
                                   scan recordBuf length0 rid st1))
                else Ret (inr (mkScan (scan_fd scan) pn 0 (Some pn) 1, st1))
              else Ret (inr (scan, st))) = Ret (inl res) /\
             scan_pos st0 (nr_scan res) (nr_state res) /\
             remaining st0 scan = [] /\ nr_rc res = RHF_EOF /\
             remaining st0 (nr_scan res) = [] /\ page_is_fixed (nr_scan res) = 0)
          \/ (exists scan1 st1,
                (if page_is_fixed scan =? 0 then
                   let '(error, pn, st1) :=
                     PF_GetNextPage (scan_fd scan) (currentPage scan) st in
                   if negb (error =? PFE_OK) then
                     Ret (inl (mkNext (if error =? PFE_EOF then RHF_EOF else error)
                                      scan recordBuf length0 rid st1))
                   else Ret (inr (mkScan (scan_fd scan) pn 0 (Some pn) 1, st1))
                 else Ret (inr (scan, st))) = Ret (inr (scan1, st1)) /\
                scan_pos st0 scan1 st1 /\ page_is_fixed scan1 = 1 /\
                remaining st0 scan1 = remaining st0 scan /\
                scan_measure scan1 st1 <= Z.of_nat (S fuel))) as Hx.
  { destruct Hpos as (Hinv & Hbp & Hsfd & Hval).
    pose proof Hbp as (Hfd & Hbs & Hstr & Hd & Hfr & Hdl & Hdm).
    destruct Hinv as (_ & _ & [(Hfix0 & Hpin)|(Hfix1 & Hrest)]).
    - rewrite Hfix0. change (0 =? 0) with true. cbv iota.
      destruct (PF_GetNextPage (scan_fd scan) (currentPage scan) st)
        as [[error pn] st1] eqn:Enext.
      pose proof (PF_GetNextPage_ok_or_eof (scan_fd scan) (currentPage scan) st
                    ltac:(congruence)) as Hrc.
      rewrite Enext in Hrc. simpl in Hrc.
      destruct Hrc as [->| ->].
      { rewrite Hpin, Hd. by destruct Hwf0 as (? & _). }
      { unfold pinned_frames. rewrite Hpin, Hbs. exact Hav0. }
      + (* a page *)
        destruct (PF_GetNextPage_spec _ _ _ _ _ _ Enext)
          as [(_ & _ & Hlt & Hv & Hmin & Hfixp)|[(? & _)|(? & _)]]; [|done..].
        rewrite Z.eqb_refl. cbn [negb]. right.
        exists (mkScan (scan_fd scan) pn 0 (Some pn) 1), st1. split; [done|].
        destruct (pf_fix_spec _ _ _ _ Hfixp)
          as (Hfd1 & _ & _ & Hd1 & _ & _ & _ & [[_ (n & Hn & Hp1)]|[? _]]); [|done].
        rewrite (pf_but_pins_valid _ _ _ Hbp) in Hv.
        pose proof Hv as Hv'. apply valid_page_spec in Hv' as [Hr _].
        split.
        { split.
          - split; [congruence|]. split; [congruence|]. right. simpl.
            repeat split; try congruence; try lia. exists n. rewrite <- Hpin. done.
          - split; [by eapply pf_but_pins_fix|]. split; [done|]. done. }
        split; [done|]. split.
        { unfold remaining. simpl. rewrite Hfix0. change (0 =? 0) with true. cbv iota.
          change (1 =? 0) with false. cbv iota. simpl. symmetry.
          apply rest_of_file_next; [done..|].
          intros q Hq. rewrite <- (pf_but_pins_valid _ _ _ Hbp). by apply Hmin. }
        unfold scan_measure, pages_after, num_pages in *. simpl.
        rewrite Hfix0 in Hm. change (0 =? 0) with true in Hm. rewrite Hd1, Hd.
        rewrite Hd in Hm. lia.
      + (* end of file *)
        destruct (PF_GetNextPage_spec _ _ _ _ _ _ Enext)
          as [(? & _)|[(_ & _ & _ & -> & Hnone)|(_ & ? & _)]]; [done| |done].
        change (negb (PFE_EOF =? PFE_OK)) with true. cbv iota.
        rewrite Z.eqb_refl. left. eexists. split; [done|]. simpl.
        assert (remaining st0 scan = []) as Hrem.
        { unfold remaining. rewrite Hfix0. change (0 =? 0) with true. cbv iota. simpl.
          apply rest_of_file_none. intros q Hq.
          rewrite <- (pf_but_pins_valid _ _ _ Hbp). by apply Hnone. }
        split.
        { split; [|split; [done|split; [done|done]]].
          split; [done|]. split; [done|]. left. done. }
        done.
    - rewrite Hfix1. change (1 =? 0) with false. cbv iota. right.
      exists scan, st. split; [done|]. split.
      { split; [|done]. split; [done|]. split; [done|]. right. done. }
      done. }
  destruct Hx as [(res & -> & Hpos' & Hrem & Hrc & Hrem' & Hfix')
                 |(scan1 & st1 & -> & Hpos1 & Hfix1 & Hrem1 & Hm1)].
  { rewrite obind_Ret_l. exists res. split; [done|]. split; [done|]. by rewrite Hrem. }
  rewrite obind_Ret_l. rewrite <- Hrem1. clear Hrem1 Hpos Hm.
  (* steps 2 to 5, on the fixed page *)
  destruct Hpos1 as (Hinv1 & Hbp1 & Hsfd1 & Hval1).
  pose proof Hbp1 as (Hfd1 & Hbs1 & Hstr1 & Hd1 & Hfr1 & Hdl1 & Hdm1).
  pose proof Hinv1 as (_ & _ & [(Hf0 & _)|(_ & _ & Hp0 & Hs0 & Hbufp & n & Hn & Hpin)]);
    [congruence|].
  specialize (Hval1 Hfix1).
  pose proof Hval1 as Hval1'. apply valid_page_spec in Hval1' as [Hr _].
  destruct (lookup_lt_is_Some_2 (pf_data st0) (Z.to_nat (currentPage scan1))) as [pg Hpg].
  { unfold num_pages in Hr. lia. }
  pose proof (Hpages0 _ pg Hval1 (page_at_lookup _ _ _ Hp0 Hpg)) as Hwfp.
  pose proof Hwfp as (Hhdr & Hslots & _). pose proof Hhdr as (Hlen & Hns & Hfsp).
  unfold SIZEOF_HEADER, SIZEOF_SLOT, PF_PAGE_SIZE in *.
  rewrite Hbufp. cbn [of_option]. rewrite obind_Ret_l.
  rewrite (page_at_lookup st1 _ pg Hp0) by (by rewrite Hd1). rewrite obind_Ret_l.
  rewrite (load_geti pg OFF_numSlots) by (unfold OFF_numSlots; lia).
  fold (numSlots pg). rewrite obind_Ret_l.
  unfold scan_measure in Hm1. rewrite Hfix1 in Hm1. change (1 =? 0) with false in Hm1.
  assert (remaining st0 scan1
          = rest_of_page st0 (currentPage scan1) (currentSlot scan1)
            ++ rest_of_file st0 (currentPage scan1)) as Hrem1.
  { unfold remaining. rewrite Hfix1. done. }
  rewrite Hrem1.
  destruct (currentSlot scan1 >=? numSlots pg) eqn:Eend.
  - (* the page is exhausted *)
    rewrite Z.geb_leb in Eend. apply Z.leb_le in Eend.
    rewrite (rest_of_page_end _ _ _ pg Hpg Eend). cbn [app].
    assert (pf_pin st1 !! Z.to_nat (currentPage scan1) = Some (S n)) as Hn1.
    { rewrite Hpin. apply list_lookup_insert_eq. by eapply lookup_lt_Some. }
    destruct (PF_UnfixPage (scan_fd scan1) (currentPage scan1) false st1) as [e st2] eqn:Eu.
    pose proof (PF_UnfixPage_pinned (scan_fd scan1) (currentPage scan1) false st1 n
                  ltac:(congruence) Hp0 Hn1) as Hrc.
    rewrite Eu in Hrc. simpl in Hrc. subst e. rewrite Z.eqb_refl. cbn [negb].
    destruct (PF_UnfixPage_spec _ _ _ _ _ _ Eu)
      as (Hfd2 & _ & _ & Hd2 & _ & [[_ (m & Hm2 & Hpin2 & _)]|[? _]]); [|done].
    assert (m = n) as -> by congruence.
    set (scan2 := mkScan (scan_fd scan1) (currentPage scan1) (currentSlot scan1)
                         (Some (currentPage scan1)) 0).
    destruct (IH scan2 recordBuf length0 rid st2) as (r & Hr' & Hposr & Hmatch); [| |done|].
    + split.
      * split; [congruence|]. split; [congruence|]. left. simpl. split; [done|].
        rewrite Hpin2, Hpin. by apply insert_insert_back.
      * split; [by eapply pf_but_pins_unfix|]. split; [done|]. simpl. discriminate.
    + unfold scan_measure, pages_after, num_pages in *. simpl. rewrite Hd2. lia.
    + exists r. split; [done|]. split; [done|].
      unfold remaining at 1 in Hmatch. simpl in Hmatch. done.
  - (* a slot *)
    rewrite Z.geb_leb in Eend. apply Z.leb_gt in Eend.
    set (s := currentSlot scan1) in *.
    set (scan2 := mkScan (scan_fd scan1) (currentPage scan1) (wrap32 (s + 1))
                         (Some (currentPage scan1)) (page_is_fixed scan1)).
    assert (scan_pos st0 scan2 st1) as Hpos2.
    { split.
      - split; [congruence|]. split; [congruence|]. right. simpl.
        rewrite wrap32_id by lia. repeat split; auto; try lia. eauto.
      - split; [done|]. split; [done|]. simpl. intros _. done. }
    assert (remaining st0 scan2
            = rest_of_page st0 (currentPage scan1) (s + 1)
              ++ rest_of_file st0 (currentPage scan1)) as Hrem2.
    { unfold remaining. simpl. rewrite Hfix1. change (1 =? 0) with false. cbv iota.
      rewrite wrap32_id by lia. done. }
    rewrite (rest_of_page_step _ _ _ pg Hpg Eend).
    rewrite (load_geti pg (OFF_recordLength s))
      by (unfold OFF_recordLength, SIZEOF_HEADER, SIZEOF_SLOT; lia).
    fold (recordLength pg s). rewrite obind_Ret_l.
    destruct (recordLength pg s =? -1) eqn:El; cbn [negb].
    + (* deleted *)
      apply Z.eqb_eq in El. unfold slot_record. rewrite El. cbn [Z.eqb app].
      change (-1 =? -1) with true. cbv iota. cbn [app].
      destruct (IH scan2 recordBuf length0 rid st1) as (r & Hr' & Hposr & Hmatch);
        [done| |done|].
      { unfold scan_measure. simpl. rewrite Hfix1. change (1 =? 0) with false.
        rewrite wrap32_id by lia. unfold pages_after in *. lia. }
      exists r. split; [done|]. split; [done|]. by rewrite Hrem2 in Hmatch.
    + (* a record *)
      apply Z.eqb_neq in El.
      destruct (slot_ok_record pg s Hhdr (Hslots s ltac:(lia)) El)
        as (Hoff & Hlr & bs & Hbs & Hlbs & Hload).
      rewrite Hbs. cbn [app].
      rewrite (load_geti pg (OFF_recordOffset s))
        by (unfold OFF_recordOffset, SIZEOF_HEADER, SIZEOF_SLOT; lia).
      fold (recordOffset pg s). rewrite obind_Ret_l.
      unfold memcpy_from_page.
      assert ((recordLength pg s <? 0)
              || (Z.of_nat (length recordBuf) <? recordLength pg s) = false) as ->.
      { apply orb_false_iff. rewrite !Z.ltb_ge. unfold PF_PAGE_SIZE in *. lia. }
      rewrite Hload. cbn [of_option]. rewrite !obind_Ret_l.
      eexists. split; [done|]. simpl. split; [done|].
      split; [done|]. split.
      { rewrite !wrap32_id by (rewrite ?wrap32_id; lia). f_equal. lia. }
      split; [lia|]. split.
      { rewrite <- Hlbs, Nat2Z.id. done. }
      done.
Qed.

(** ** A full scan *)


Lemma length_scan_buffer : Z.of_nat (length scan_buffer) = PF_PAGE_SIZE.
Proof. unfold scan_buffer. rewrite repeat_length. unfold PF_PAGE_SIZE. lia. Qed.


Lemma length_omap_le {A B} (f : A -> option B) (l : list A) :
  (length (omap f l) <= length l)%nat.
Proof. induction l as [|x l IH]; csimpl; [lia|]. destruct (f x); csimpl; lia. Qed.

Lemma length_bind_le {A B} (f : A -> list B) (l : list A) (k : nat) :
  (forall x, x ∈ l -> (length (f x) <= k)%nat) -> (length (l ≫= f) <= k * length l)%nat.
Proof.
  induction l as [|x l IH]; intros H; [simpl; lia|].
  rewrite bind_cons, length_app. simpl.
  pose proof (H x ltac:(left)). pose proof (IH ltac:(intros y Hy; apply H; by right)).
  rewrite Nat.mul_succ_r. lia.
Qed.

Lemma length_file_records st :
  wf_file st -> (length (file_records st) <= 510 * num_pages st)%nat.
Proof.
  intros (_ & _ & _ & Hpages). unfold file_records.
  etransitivity; [apply (length_bind_le _ _ 510%nat)|rewrite length_seqZ; lia].
  intros q Hq. unfold records_of_page.
  destruct (valid_page st q) eqn:Hv; [|simpl; lia].
  destruct (pf_data st !! Z.to_nat q) as [pg|] eqn:Hpg; [|simpl; lia].
  apply elem_of_seqZ in Hq.
  destruct (Hpages q pg Hv (page_at_lookup st q pg ltac:(lia) Hpg)) as ((_ & Hns & Hfsp) & _).
  rewrite length_fmap. unfold page_records.
  etransitivity; [apply length_omap_le|]. rewrite length_seqZ.
  unfold SIZEOF_HEADER, SIZEOF_SLOT, PF_PAGE_SIZE in *. lia.
Qed.


(** ** RIDs are stable *)

Lemma record_at_not_deleted st rid bs :
  record_at st rid = Some bs -> ~ slot_deleted st rid.
Proof.
  intros Hrec (pg & Hv & Hpg & Hr & Hd).
  rewrite (record_at_page st rid pg Hv Hpg) in Hrec.
  destruct ((0 <=? slotNum rid) && (slotNum rid <? numSlots pg)); [|discriminate].
  unfold slot_record in Hrec. rewrite Hd in Hrec. discriminate.
Qed.

(** One allowed call on a well-formed file returns and leaves the file well
    formed; a record stays behind its RID unless the call deletes it. *)
Lemma exec_wf fd op st :
  wf_file st -> fd = pf_fd st -> op_ok st op ->
  exists rc st',
    exec fd op st = Ret (rc, st') /\ wf_file st' /\ pf_fd st' = pf_fd st /\
    forall r bs, record_at st r = Some bs -> op <> OpDelete r -> record_at st' r = Some bs.
Proof.
  intros Hwff Hfd Hok. destruct op as [rec len|rid buf|rid]; cbn [op_ok] in Hok; cbn [exec].
  - destruct Hok as [HL HLr].
    destruct (RHF_InsertRecord_wf fd rec len (mkRID 0 0) st Hwff Hfd HL HLr)
      as (rid & st' & -> & Hwf' & Hfd' & Hnone & _ & Hothers).
    rewrite obind_Ret_l. cbn [fst snd]. exists RHF_OK, st'.
    split; [done|]. split; [done|]. split; [done|].
    intros r bs Hr _. rewrite Hothers; [done|]. intros ->. congruence.
  - destruct Hok as [Hnd Hbuf].
    destruct (RHF_GetRecord_returns_fit fd rid buf 0 st Hwff Hfd Hnd Hbuf)
      as (rc & buf' & len' & st' & -> & Hsame).
    rewrite obind_Ret_l. cbn [fst snd]. exists rc, st'.
    split; [done|]. split; [by eapply pf_same_wf_file|].
    split; [by destruct Hsame as (? & _)|].
    intros r bs Hr _. by rewrite (pf_same_record_at _ _ _ Hsame).
  - destruct (RHF_DeleteRecord_wf fd rid st Hwff Hfd Hok)
      as (rc & st' & -> & Hwf' & Hfd' & Hothers & _).
    exists rc, st'. split; [done|]. split; [done|]. split; [done|].
    intros r bs Hr Hne. rewrite Hothers; [done|]. congruence.
Qed.





(** ** Insert, scan, delete, scan *)










(** ** The page of an insertion *)




(** ** The properties on the small file *)

Lemma example_file_wf : pf_wf example_file.
Proof. repeat split; try reflexivity; constructor. Qed.

Lemma example_file_sized : pages_sized example_file.
Proof. repeat constructor. Qed.

Lemma example_file_page q pg :
  valid_page example_file q = true -> page_at example_file q = Ret pg ->
  q = 0 /\ pf_data example_file = [pg].
Proof.
  intros Hv Hpg. apply valid_page_spec in Hv as [Hr _].
  change (Z.of_nat (num_pages example_file)) with 1 in Hr.
  assert (q = 0) as -> by lia. split; [done|].
  unfold page_at in Hpg. change (0 <? 0) with false in Hpg. cbn iota in Hpg.
  destruct (pf_data example_file) as [|pg0 [|]] eqn:E; try discriminate.
  simpl in Hpg. congruence.
Qed.

Lemma example_file_hdrs : hdrs_ok example_file.
Proof.
  intros q pg Hv Hpg. destruct (example_file_page q pg Hv Hpg) as [_ E].
  injection E as <-. vm_compute. repeat split; discriminate.
Qed.

Lemma example_file_wf_file : wf_file example_file.
Proof.
  split; [exact example_file_wf|]. split; [exact example_file_sized|].
  split; [vm_compute; lia|].
  intros q pg Hv Hpg. pose proof (example_file_hdrs q pg Hv Hpg) as Hh.
  destruct (example_file_page q pg Hv Hpg) as [_ E]. injection E as <-.
  split; [exact Hh|]. split.
  - intros s Hs. change (numSlots _) with 2 in Hs.
    assert (s = 0 \/ s = 1) as [-> | ->] by lia.
    + left. vm_compute. reflexivity.
    + right. vm_compute. repeat split; discriminate.
  - exists [0]. split; [repeat constructor; by intros ?%elem_of_nil|].
    cbn [chain_ok]. repeat split; try (vm_compute; reflexivity); vm_compute; discriminate.
Qed.




(** C6 for the insertion in the small file, which takes slot 0 from
    the free slot list. *)
Lemma C6_slot_choice_witness :
  pf_wf example_file /\ hdrs_ok example_file /\ 0 <= 3 <= 4092 /\
  RHF_InsertRecord 0 [7; 8; 9] 3 (mkRID 0 0) example_file
    = Ret (RHF_OK, mkRID 0 0, example_inserted) /\
  exists pg pg',
    ((valid_page example_file (pageNum (mkRID 0 0)) = true /\
      page_at example_file (pageNum (mkRID 0 0)) = Ret pg)
     \/ (valid_page example_file (pageNum (mkRID 0 0)) = false /\
         rhf_InitPage zero_page = Ret pg)) /\
    page_at example_inserted (pageNum (mkRID 0 0)) = Ret pg' /\
    (nextFreeSlot pg <> -1 ->
       slotNum (mkRID 0 0) = nextFreeSlot pg /\
       nextFreeSlot pg' = recordOffset pg (nextFreeSlot pg) /\
       numSlots pg' = numSlots pg) /\
    (nextFreeSlot pg = -1 ->
       slotNum (mkRID 0 0) = numSlots pg /\ numSlots pg' = numSlots pg + 1).
Proof.
  assert (0 <= 3 <= 4092) as HL by lia.
  assert (RHF_InsertRecord 0 [7; 8; 9] 3 (mkRID 0 0) example_file
          = Ret (RHF_OK, mkRID 0 0, example_inserted)) as Hins
    by (vm_compute; reflexivity).
  split; [exact example_file_wf|]. split; [exact example_file_hdrs|].
  split; [exact HL|]. split; [exact Hins|].
  exact (C6_slot_choice 0 [7; 8; 9] 3 (mkRID 0 0) example_file (mkRID 0 0) example_inserted
           example_file_wf example_file_hdrs HL Hins).
Defined.

(** C7 for the deletion of the record in slot 1 of the small file. *)
Lemma C7_delete_updates_witness :
  pf_wf example_file /\
  RHF_DeleteRecord 0 (mkRID 0 1) example_file = Ret (RHF_OK, example_deleted) /\
  exists pg pg' ns nfs,
    pf_data example_file !! Z.to_nat (pageNum (mkRID 0 1)) = Some pg /\
    pf_data example_deleted = <[Z.to_nat (pageNum (mkRID 0 1)) := pg']> (pf_data example_file) /\
    load_int pg OFF_numSlots = Ret ns /\ 0 <= slotNum (mkRID 0 1) < ns /\
    load_int pg OFF_nextFreeSlot = Ret nfs /\
    load_int pg' (OFF_recordOffset (slotNum (mkRID 0 1))) = Ret nfs /\
    load_int pg' (OFF_recordLength (slotNum (mkRID 0 1))) = Ret (-1) /\
    load_int pg' OFF_nextFreeSlot = Ret (slotNum (mkRID 0 1)) /\
    length pg' = length pg /\
    (forall i : nat,
       ~ (OFF_nextFreeSlot <= Z.of_nat i < OFF_nextFreeSlot + 4) ->
       ~ (OFF_recordOffset (slotNum (mkRID 0 1)) <= Z.of_nat i
          < OFF_recordOffset (slotNum (mkRID 0 1)) + SIZEOF_SLOT) ->
       pg' !! i = pg !! i) /\
    load_int pg' OFF_numSlots = Ret ns /\
    load_int pg' OFF_freeSpacePtr = load_int pg OFF_freeSpacePtr /\
    (forall s, 0 <= s -> s <> slotNum (mkRID 0 1) ->
       load_int pg' (OFF_recordOffset s) = load_int pg (OFF_recordOffset s) /\
       load_int pg' (OFF_recordLength s) = load_int pg (OFF_recordLength s)) /\
    (forall off n, SIZEOF_HEADER + ns * SIZEOF_SLOT <= off ->
       load_bytes pg' off n = load_bytes pg off n) /\
    pf_pin example_deleted = pf_pin example_file /\
    pf_free example_deleted = pf_free example_file /\
    dirty_flag example_deleted (Z.to_nat (pageNum (mkRID 0 1))) = true.
Proof.
  assert (RHF_DeleteRecord 0 (mkRID 0 1) example_file = Ret (RHF_OK, example_deleted))
    as Hdel by (vm_compute; reflexivity).
  split; [exact example_file_wf|]. split; [exact Hdel|].
  exact (C7_delete_updates 0 (mkRID 0 1) example_file example_deleted example_file_wf Hdel).
Defined.

(** C8 for a scan that [RHF_StartScan] has just opened on the small
    file. *)
Lemma C8_scan_holds_one_page_witness :
  pages_sized example_file /\
  scan_run 0 example_file example_scan example_file /\
  (forall p, pin_count example_file p
             = (pin_count example_file p + scan_holds example_scan p)%nat) /\
  (forall p, (scan_holds example_scan p <= 1)%nat /\
             (scan_holds example_scan p = 1%nat -> Z.of_nat p = currentPage example_scan)) /\
  (forall recordBuf length rid,
     RHF_GetNextRecord example_scan recordBuf length rid example_file <> Fuel /\
     forall r, RHF_GetNextRecord example_scan recordBuf length rid example_file = Ret r ->
       (nr_rc r = RHF_OK -> page_is_fixed (nr_scan r) = 1) /\
       (nr_rc r <> RHF_OK -> page_is_fixed (nr_scan r) = 0) /\
       (forall p, pin_count (nr_state r) p
                  = (pin_count example_file p + scan_holds (nr_scan r) p)%nat)) /\
  exists scan' st',
    RHF_EndScan example_scan example_file = (RHF_OK, scan', st') /\
    page_is_fixed scan' = 0 /\
    (forall p, scan_holds scan' p = 0%nat) /\
    (forall p, pin_count st' p = pin_count example_file p).
Proof.
  pose proof (scan_run_start 0 example_file (mkScan 0 0 0 None 0)) as Hrun.
  split; [exact example_file_sized|]. split; [exact Hrun|].
  exact (C8_scan_holds_one_page 0 example_file example_scan example_file
           example_file_sized Hrun).
Defined.

(** C9 for slot 5 of page 0 of the small file, which has two slots. *)
Lemma C9_invalid_rid_witness :
  pages_sized example_file /\
  fst (PF_GetThisPage 0 (pageNum (mkRID 0 5)) example_file) = PFE_OK /\
  exists pg ns,
    page_at example_file (pageNum (mkRID 0 5)) = Ret pg /\
    load_int pg OFF_numSlots = Ret ns /\
    ((slotNum (mkRID 0 5) < 0 \/ slotNum (mkRID 0 5) >= ns) ->
       (exists st', RHF_GetRecord 0 (mkRID 0 5) [0; 0; 0; 0] 0 example_file
                      = Ret (RHF_INVALIDRID, [0; 0; 0; 0], 0, st') /\
                    pf_same example_file st') /\
       (exists st', RHF_DeleteRecord 0 (mkRID 0 5) example_file = Ret (RHF_INVALIDRID, st') /\
                    pf_same example_file st')) /\
    (0 <= slotNum (mkRID 0 5) < ns ->
       (forall rc buf' len' st',
          RHF_GetRecord 0 (mkRID 0 5) [0; 0; 0; 0] 0 example_file = Ret (rc, buf', len', st') ->
          rc <> RHF_INVALIDRID) /\
       (forall rc st', RHF_DeleteRecord 0 (mkRID 0 5) example_file = Ret (rc, st') ->
          rc <> RHF_INVALIDRID)).
Proof.
  assert (fst (PF_GetThisPage 0 (pageNum (mkRID 0 5)) example_file) = PFE_OK) as Hfix
    by (vm_compute; reflexivity).
  split; [exact example_file_sized|]. split; [exact Hfix|].
  exact (C9_invalid_rid 0 (mkRID 0 5) [0; 0; 0; 0] 0 example_file example_file_sized Hfix).
Defined.

(** C10 for [RHF_GetRecord] of slot 5 of page 0 of the small file. *)
Lemma C10_calls_release_pages_witness :
  pf_wf example_file /\
  exec 0 (OpGet (mkRID 0 5) [0; 0; 0; 0]) example_file = Ret (RHF_INVALIDRID, example_got) /\
  (forall p, pin_count example_got p = pin_count example_file p) /\
  (RHF_INVALIDRID = RHF_INVALIDRID \/ RHF_INVALIDRID = RHF_NORECORD ->
   pf_same example_file example_got).
Proof.
  assert (exec 0 (OpGet (mkRID 0 5) [0; 0; 0; 0]) example_file
          = Ret (RHF_INVALIDRID, example_got)) as Hex by (vm_compute; reflexivity).
  split; [exact example_file_wf|]. split; [exact Hex|].
  exact (C10_calls_release_pages 0 (OpGet (mkRID 0 5) [0; 0; 0; 0]) example_file
           RHF_INVALIDRID example_got example_file_wf Hex).
Defined.

(** ** More on scans *)

Lemma StronglySorted_seq a n : StronglySorted lt (seq a n).
Proof.
  revert a. induction n as [|n IH]; intros a; simpl; constructor; [apply IH|].
  apply Forall_forall. intros x Hx. apply elem_of_seq in Hx. lia.
Qed.

Lemma StronglySorted_seqZ a n : StronglySorted Z.lt (seqZ a n).
Proof.
  unfold seqZ. apply (StronglySorted_fmap _ lt); [|apply StronglySorted_seq].
  intros x y Hxy. lia.
Qed.

Lemma StronglySorted_omap {A B} (R : relation A) (R' : relation B) (f : A -> option B) l :
  (forall x x' y y', R x x' -> f x = Some y -> f x' = Some y' -> R' y y') ->
  StronglySorted R l -> StronglySorted R' (omap f l).
Proof.
  intros Hf. induction 1 as [|x l Hs IH Hall]; csimpl; [constructor|].
  destruct (f x) as [y|] eqn:E; [|done]. constructor; [done|].
  apply Forall_forall. intros y' Hy'. apply list_elem_of_omap in Hy' as (x' & Hx' & Hfx').
  rewrite Forall_forall in Hall. eauto.
Qed.

Lemma StronglySorted_bind {A B} (R : relation A) (R' : relation B) (f : A -> list B) l :
  (forall x, StronglySorted R' (f x)) ->
  (forall x x' y y', R x x' -> y ∈ f x -> y' ∈ f x' -> R' y y') ->
  StronglySorted R l -> StronglySorted R' (l ≫= f).
Proof.
  intros Hs Hf. induction 1 as [|x l Hl IH Hall]; csimpl; [constructor|].
  apply StronglySorted_app. split; [|split; [apply Hs|done]].
  intros y y' Hy Hy'. apply list_elem_of_bind in Hy' as (x' & Hy' & Hx').
  rewrite Forall_forall in Hall. eauto.
Qed.

Lemma file_records_sorted st : StronglySorted rid_lt (file_records st).*1.
Proof.
  apply (StronglySorted_fmap _ (fun a b => rid_lt a.1 b.1)); [by intros a b|].
  unfold file_records.
  apply (StronglySorted_bind Z.lt); [| |apply StronglySorted_seqZ].
  - intros q. unfold records_of_page.
    destruct (valid_page st q); [|constructor].
    destruct (pf_data st !! Z.to_nat q) as [pg|]; [|constructor].
    apply (StronglySorted_fmap _ (fun a b => a.1 < b.1)).
    { intros a b Hab. right. done. }
    unfold page_records. apply (StronglySorted_omap Z.lt); [|apply StronglySorted_seqZ].
    intros x x' y y' Hx Hy Hy'.
    destruct (slot_record pg x); [|discriminate]. destruct (slot_record pg x'); [|discriminate].
    simpl in *. injection Hy as <-. injection Hy' as <-. done.
  - intros q q' [r bs] [r' bs'] Hq Hr Hr'.
    apply elem_of_records_of_page in Hr as [<- _].
    apply elem_of_records_of_page in Hr' as [<- _]. left. done.
Qed.

Lemma scan_entries_S n scan st :
  scan_entries (S n) scan st =
    (r <-- RHF_GetNextRecord scan scan_buffer 0 (mkRID 0 0) st ;;
     if nr_rc r =? RHF_OK then
       r' <-- scan_entries n (nr_scan r) (nr_state r) ;;
       Ret (fst (fst (fst r')),
            (nr_rid r, take (Z.to_nat (nr_length r)) (nr_buf r)) :: snd (fst (fst r')),
            snd (fst r'), snd r')
     else Ret (nr_rc r, [], nr_scan r, nr_state r)).
Proof. reflexivity. Qed.

Lemma scan_entries_spec st0 n scan st :
  wf_file st0 -> scan_pos st0 scan st ->
  (length (remaining st0 scan) < n)%nat ->
  exists scan' st',
    scan_entries n scan st = Ret (RHF_EOF, remaining st0 scan, scan', st') /\
    scan_pos st0 scan' st' /\ page_is_fixed scan' = 0.
Proof.
  intros Hwff. revert scan st. induction n as [|n IH]; intros scan st Hpos Hlen; [lia|].
  rewrite scan_entries_S. unfold RHF_GetNextRecord.
  destruct (RHF_GetNextRecord_loop_spec st0 (scan_fuel st) scan
              scan_buffer 0 (mkRID 0 0) st Hwff Hpos)
    as (r & -> & Hposr & Hmatch).
  { apply (scan_measure_fuel st0). by destruct Hpos as (? & _). }
  { rewrite length_scan_buffer. lia. }
  rewrite obind_Ret_l.
  destruct (remaining st0 scan) as [|[rid bs] rest] eqn:Hrem.
  - destruct Hmatch as (-> & _ & Hfix). change (RHF_EOF =? RHF_OK) with false. cbv iota.
    eauto.
  - destruct Hmatch as (-> & Hrid & Hl & Hb & Hrest). rewrite Z.eqb_refl.
    destruct (IH (nr_scan r) (nr_state r) Hposr) as (scan' & st' & -> & Hpos' & Hfix').
    { rewrite Hrest. simpl in Hlen. lia. }
    rewrite obind_Ret_l. cbn [fst snd]. exists scan', st'. split; [|done].
    rewrite Hrid, Hl, Hb, Nat2Z.id, Hrest. rewrite take_app_length. done.
Qed.

Lemma full_scan_entries_spec fd st :
  wf_file st -> fd = pf_fd st ->
  exists st', full_scan_entries fd st = Ret (RHF_EOF, file_records st, st') /\ pf_same st st'.
Proof.
  intros Hwff Hfd. unfold full_scan_entries. cbn [RHF_StartScan snd].
  set (scan0 := mkScan fd (-1) (-1) None 0).
  assert (scan_pos st scan0 st) as Hpos.
  { split; [|split; [apply pf_but_pins_refl|split; [done|simpl; discriminate]]].
    split; [done|]. split; [done|]. left. done. }
  assert (remaining st scan0 = file_records st) as Hrem.
  { unfold remaining, rest_of_file, file_records. unfold scan0.
    cbn [page_is_fixed currentPage]. change (0 =? 0) with true. cbv iota. cbn [app].
    change (-1 + 1) with 0. by rewrite Z.sub_0_r. }
  destruct (scan_entries_spec st (S (510 * num_pages st)) scan0 st Hwff Hpos)
    as (scan' & st' & -> & Hpos' & Hfix').
  { rewrite Hrem. pose proof (length_file_records st Hwff). lia. }
  rewrite obind_Ret_l. cbn [fst snd]. rewrite Hrem.
  destruct Hpos' as ((_ & _ & [(_ & Hpin)|(? & _)]) & Hbp & _); [|congruence].
  unfold RHF_EndScan. rewrite Hfix'. change (negb (0 =? 0)) with false. cbv iota.
  rewrite Z.eqb_refl. cbn [negb]. rewrite Z.eqb_refl.
  exists st'. split; [done|]. by apply pf_but_pins_same.
Qed.


(** X1.  A full scan of a well-formed file ends with [RHF_EOF] and has returned,
    with their RIDs, the records of the file and nothing else, in the order
    of the RIDs: page after page and, in a page, slot after slot; the slots
    marked deleted are passed over.  The scan leaves the file as it was: the
    pages, the pin counts and the free list are the same and no page is
    newly dirty. *)
Theorem scan_returns_records_in_rid_order fd st :
  wf_file st -> fd = pf_fd st ->
  exists out st',
    full_scan_entries fd st = Ret (RHF_EOF, out, st') /\ pf_same st st' /\
    StronglySorted rid_lt out.*1 /\
    forall rid bs, (rid, bs) ∈ out <-> record_at st rid = Some bs.
Proof.
  intros Hwff Hfd.
  destruct (full_scan_entries_spec fd st Hwff Hfd) as (st' & Hscan & Hsame).
  exists (file_records st), st'. split; [done|]. split; [done|].
  split; [apply file_records_sorted|]. intros rid bs. apply elem_of_file_records.
Qed.

(** X1 on the small file. *)
Lemma scan_returns_records_in_rid_order_witness :
  wf_file example_file /\ 0 = pf_fd example_file /\
  exists out st',
    full_scan_entries 0 example_file = Ret (RHF_EOF, out, st') /\
    pf_same example_file st' /\
    StronglySorted rid_lt out.*1 /\
    forall rid bs, (rid, bs) ∈ out <-> record_at example_file rid = Some bs.
Proof.
  split; [exact example_file_wf_file|]. split; [reflexivity|].
  exact (scan_returns_records_in_rid_order 0 example_file example_file_wf_file eq_refl).
Defined.

(** X2.  A RID that a full scan has returned with a record designates that
    record: [RHF_GetRecord] of the RID, after the scan, returns [RHF_OK],
    the length and the bytes that the scan returned, and leaves the file as
    it was. *)
Theorem scanned_rid_gets_record fd st rc out st' rid bs recordBuf length0 :
  wf_file st -> fd = pf_fd st ->
  full_scan_entries fd st = Ret (rc, out, st') -> (rid, bs) ∈ out ->
  (length bs <= length recordBuf)%nat ->
  exists st'',
    RHF_GetRecord fd rid recordBuf length0 st'
      = Ret (RHF_OK, bs ++ drop (length bs) recordBuf, Z.of_nat (length bs), st'') /\
    pf_same st' st''.
Proof.
  intros Hwff Hfd Hscan Hin Hbuf.
  destruct (full_scan_entries_spec fd st Hwff Hfd) as (st1 & Hscan1 & Hsame).
  rewrite Hscan in Hscan1. injection Hscan1 as -> -> ->.
  apply elem_of_file_records in Hin.
  apply (RHF_GetRecord_wf fd rid recordBuf length0 st1 bs).
  - by eapply pf_same_wf_file.
  - destruct Hsame as (-> & _). done.
  - by rewrite (pf_same_record_at _ _ _ Hsame).
  - done.
Qed.

(** X2 on the small file. *)
Lemma scanned_rid_gets_record_witness :
  wf_file example_file /\ 0 = pf_fd example_file /\
  full_scan_entries 0 example_file = Ret (RHF_EOF, [(mkRID 0 1, [4; 5])], example_scanned) /\
  (mkRID 0 1, [4; 5]) ∈ [(mkRID 0 1, [4; 5])] /\
  (length [4; 5] <= length [9; 9; 9])%nat /\
  exists st'',
    RHF_GetRecord 0 (mkRID 0 1) [9; 9; 9] 7 example_scanned
      = Ret (RHF_OK, [4; 5] ++ drop (length [4; 5]) [9; 9; 9], Z.of_nat (length [4; 5]), st'') /\
    pf_same example_scanned st''.
Proof.
  assert (full_scan_entries 0 example_file
          = Ret (RHF_EOF, [(mkRID 0 1, [4; 5])], example_scanned)) as Hscan
    by (vm_compute; reflexivity).
  assert ((mkRID 0 1, [4; 5]) ∈ [(mkRID 0 1, [4; 5])]) as Hin by left.
  assert (length [4; 5] <= length [9; 9; 9])%nat as Hlen by (simpl; lia).
  split; [exact example_file_wf_file|]. split; [reflexivity|]. split; [exact Hscan|].
  split; [exact Hin|]. split; [exact Hlen|].
  exact (scanned_rid_gets_record 0 example_file RHF_EOF [(mkRID 0 1, [4; 5])] example_scanned
           (mkRID 0 1) [4; 5] [9; 9; 9] 7 example_file_wf_file eq_refl Hscan Hin Hlen).
Defined.


(** ** More on records *)

Lemma record_at_fresh st rid : record_at st rid = None -> rid ∉ (file_records st).*1.
Proof.
  intros Hnone Hin. apply list_elem_of_fmap in Hin as ([r bs] & -> & Hin).
  apply elem_of_file_records in Hin. simpl in Hnone. congruence.
Qed.

(** [RHF_DeleteRecord] of a record, with the page before and after. *)
Lemma RHF_DeleteRecord_live fd rid st bs :
  wf_file st -> fd = pf_fd st -> record_at st rid = Some bs ->
  exists pg pg3 st1,
    RHF_DeleteRecord fd rid st = Ret (RHF_OK, st1) /\
    valid_page st (pageNum rid) = true /\ page_at st (pageNum rid) = Ret pg /\
    wf_page pg /\ 0 <= slotNum rid < numSlots pg /\
    delete_from_page pg (slotNum rid) = Ret pg3 /\ wf_page pg3 /\
    numSlots pg3 = numSlots pg /\
    wf_file st1 /\ pf_fd st1 = pf_fd st /\
    valid_page st1 (pageNum rid) = true /\ page_at st1 (pageNum rid) = Ret pg3 /\
    (forall q, q <> pageNum rid -> valid_page st q = true ->
       valid_page st1 q = true /\ page_at st1 q = page_at st q) /\
    record_at st1 rid = None /\
    (forall r', r' <> rid -> record_at st1 r' = record_at st r').
Proof.
  intros Hwff Hfd Hrec. pose proof Hwff as (Hwf & Hsz & Hav & Hpages).
  destruct (RHF_DeleteRecord_wf fd rid st Hwff Hfd (record_at_not_deleted _ _ _ Hrec))
    as (rc & st1 & Hdel & Hwf1 & Hfd1 & Hothers & Hgone & Hrc).
  assert (rc = RHF_OK) as -> by (apply Hrc; eauto).
  pose proof (record_at_valid _ _ _ Hrec) as Hv.
  destruct (RHF_DeleteRecord_spec _ _ _ _ _ Hdel)
    as [(Hne & _)|(_ & pg & ns & Hpg & Hns & [(_ & Hbad & _)|(Hs & off & _ & Hcase)])];
    [done|discriminate|].
  destruct Hcase as [(_ & Hbad & _)|(_ & _ & pg3 & Hdp & _ & Hb1 & _ & Hd1 & Hp1 & Hf1 & Hdl1)];
    [discriminate|].
  pose proof (Hpages _ _ Hv Hpg) as Hwfp.
  apply geti_load in Hns. fold (numSlots pg) in Hns. subst ns.
  assert (recordLength pg (slotNum rid) <> -1) as Hlive.
  { intros Hd. rewrite (record_at_page st rid pg Hv Hpg) in Hrec.
    destruct ((0 <=? slotNum rid) && (slotNum rid <? numSlots pg)); [|discriminate].
    unfold slot_record in Hrec. rewrite Hd in Hrec. discriminate. }
  destruct (delete_from_page_wf pg (slotNum rid) Hwfp Hs Hlive)
    as (_ & pg3' & Hdp' & Hwf3 & _ & Hns3 & _).
  assert (pg3' = pg3) as -> by congruence.
  apply page_at_Ret in Hpg as [H0 Hlook]. pose proof (page_at_lookup _ _ _ H0 Hlook) as Hpg.
  destruct (wf_file_update st st1 (pageNum rid) pg3 Hwff H0 Hwf3 Hb1)
    as (_ & Hv1 & Hpg1 & Hother).
  { rewrite Hdl1, Hd1, length_insert. by destruct Hwf as (_ & ? & _). }
  { left. done. }
  exists pg, pg3, st1.
  split; [done|]. split; [done|]. split; [done|]. split; [done|]. split; [done|].
  split; [done|]. split; [done|]. split; [done|]. split; [done|]. split; [done|].
  split; [done|]. split; [done|]. split; [|done].
  intros q Hq Hvq. destruct (Hother q Hq) as [Hveq Hdeq].
  split; [congruence|]. unfold page_at. by rewrite (Hdeq Hvq).
Qed.

(** X4.  On a well-formed file, with a record of at most [MAX_RECORD] bytes,
    [RHF_InsertRecord] returns [RHF_OK]; the file stays well formed, the
    RID was that of no record, and the records of the file are those from
    before and the new one. *)
Theorem insert_adds_one_record fd record L rid0 st :
  wf_file st -> fd = pf_fd st ->
  0 <= L <= MAX_RECORD -> L <= Z.of_nat (length record) ->
  exists rid st',
    RHF_InsertRecord fd record L rid0 st = Ret (RHF_OK, rid, st') /\
    wf_file st' /\ (rid ∉ (file_records st).*1) /\
    file_records st' ≡ₚ ((rid, take (Z.to_nat L) record) :: file_records st).
Proof.
  intros Hwff Hfd HL HLr.
  destruct (RHF_InsertRecord_wf fd record L rid0 st Hwff Hfd HL HLr)
    as (rid & st' & Hins & Hwf' & _ & Hnone & Hnew & Hothers).
  exists rid, st'. split; [done|]. split; [done|].
  split; [by apply record_at_fresh|].
  apply file_records_perm.
  - apply NoDup_cons. split; [|apply NoDup_file_records].
    rewrite elem_of_file_records. congruence.
  - intros r bs. rewrite elem_of_cons, elem_of_file_records.
    destruct (decide (r = rid)) as [->|Hne].
    + rewrite Hnew, Hnone. split; [intros [?|?]; congruence|intros ?; left; congruence].
    + rewrite (Hothers r Hne). split; [intros [?|?]; [congruence|done]|by right].
Qed.

(** X4 on the small file. *)
Lemma insert_adds_one_record_witness :
  wf_file example_file /\ 0 = pf_fd example_file /\
  0 <= 3 <= MAX_RECORD /\ 3 <= Z.of_nat (length [7; 8; 9]) /\
  exists rid st',
    RHF_InsertRecord 0 [7; 8; 9] 3 (mkRID 0 0) example_file = Ret (RHF_OK, rid, st') /\
    wf_file st' /\ (rid ∉ (file_records example_file).*1) /\
    file_records st' ≡ₚ ((rid, take (Z.to_nat 3) [7; 8; 9]) :: file_records example_file).
Proof.
  assert (0 <= 3 <= MAX_RECORD) as HL by (vm_compute; split; discriminate).
  assert (3 <= Z.of_nat (length [7; 8; 9])) as Hlen by (simpl; lia).
  split; [exact example_file_wf_file|]. split; [reflexivity|].
  split; [exact HL|]. split; [exact Hlen|].
  exact (insert_adds_one_record 0 [7; 8; 9] 3 (mkRID 0 0) example_file
           example_file_wf_file eq_refl HL Hlen).
Defined.

(** X5.  On a well-formed file, [RHF_DeleteRecord] of a RID that designates a
    record returns [RHF_OK]; the file stays well formed and its records are
    those from before but that one. *)
Theorem delete_removes_one_record fd rid st bs :
  wf_file st -> fd = pf_fd st -> record_at st rid = Some bs ->
  exists st',
    RHF_DeleteRecord fd rid st = Ret (RHF_OK, st') /\
    wf_file st' /\ (rid ∉ (file_records st').*1) /\
    file_records st ≡ₚ ((rid, bs) :: file_records st').
Proof.
  intros Hwff Hfd Hrec.
  destruct (RHF_DeleteRecord_live fd rid st bs Hwff Hfd Hrec)
    as (pg & pg3 & st1 & Hdel & _ & _ & _ & _ & _ & _ & _ & Hwf1 & _ & _ & _ & _
        & Hgone & Hothers).
  exists st1. split; [done|]. split; [done|]. split; [by apply record_at_fresh|].
  apply file_records_perm.
  - apply NoDup_cons. split; [|apply NoDup_file_records].
    rewrite elem_of_file_records. congruence.
  - intros r b. rewrite elem_of_cons, elem_of_file_records.
    destruct (decide (r = rid)) as [->|Hne].
    + rewrite Hrec, Hgone. split; [intros [?|?]; congruence|intros ?; left; congruence].
    + rewrite (Hothers r Hne). split; [intros [?|?]; [congruence|done]|by right].
Qed.

(** X5 on the small file. *)
Lemma delete_removes_one_record_witness :
  wf_file example_file /\ 0 = pf_fd example_file /\
  record_at example_file (mkRID 0 1) = Some [4; 5] /\
  exists st',
    RHF_DeleteRecord 0 (mkRID 0 1) example_file = Ret (RHF_OK, st') /\
    wf_file st' /\ (mkRID 0 1 ∉ (file_records st').*1) /\
    file_records example_file ≡ₚ ((mkRID 0 1, [4; 5]) :: file_records st').
Proof.
  assert (record_at example_file (mkRID 0 1) = Some [4; 5]) as Hrec
    by (vm_compute; reflexivity).
  split; [exact example_file_wf_file|]. split; [reflexivity|]. split; [exact Hrec|].
  exact (delete_removes_one_record 0 (mkRID 0 1) example_file [4; 5]
           example_file_wf_file eq_refl Hrec).
Defined.

(** X6.  A RID that designates no record and no slot marked deleted is rejected
    by [RHF_GetRecord] and by [RHF_DeleteRecord]: they return the paged file
    layer's error for a page that is not in the file, or [RHF_INVALIDRID]
    for a slot that is not in the page.  The caller's buffer and length and
    the file are as before. *)
Theorem unknown_rid_rejected fd rid recordBuf length0 st :
  wf_file st -> fd = pf_fd st ->
  record_at st rid = None -> ~ slot_deleted st rid ->
  exists rc st1 st2,
    (rc = PFE_INVALIDPAGE \/ rc = RHF_INVALIDRID) /\
    RHF_GetRecord fd rid recordBuf length0 st = Ret (rc, recordBuf, length0, st1) /\
    pf_same st st1 /\
    RHF_DeleteRecord fd rid st = Ret (rc, st2) /\ pf_same st st2.
Proof.
  intros Hwff Hfd Hnone Hnd. pose proof Hwff as (Hwf & Hsz & Hav & Hpages).
  unfold RHF_GetRecord, RHF_DeleteRecord.
  destruct (valid_page st (pageNum rid)) eqn:Hv.
  2:{ rewrite (PF_GetThisPage_invalid fd _ st Hfd Hv).
      change (negb (PFE_INVALIDPAGE =? PFE_OK)) with true. cbv iota.
      exists PFE_INVALIDPAGE, st, st. split; [by left|].
      split; [done|]. split; [apply pf_same_refl|]. split; [done|apply pf_same_refl]. }
  destruct (PF_GetThisPage_valid fd _ st Hwff Hfd Hv) as [st1 Efix].
  rewrite Efix, Z.eqb_refl. cbn [negb].
  destruct (fix_this_page_at _ _ _ _ Efix) as (pg & Hpg & Hpg1 & Hlook & H0).
  destruct (fix_this_unfix_same _ _ _ _ Efix) as (st2 & Eu & Hsame).
  pose proof (Hpages _ _ Hv Hpg) as Hwfp. pose proof Hwfp as (Hhdr & Hslots & _).
  pose proof Hhdr as (Hlen & Hns & Hfsp).
  rewrite Hpg1, !obind_Ret_l.
  rewrite (load_geti pg OFF_numSlots) by (unfold OFF_numSlots, PF_PAGE_SIZE in *; lia).
  fold (numSlots pg). rewrite !obind_Ret_l.
  assert ((slotNum rid <? 0) || (slotNum rid >=? numSlots pg) = true) as ->.
  { apply not_false_is_true. intros Ebad.
    apply orb_false_iff in Ebad as [Eb1 Eb2].
    apply Z.ltb_ge in Eb1. rewrite Z.geb_leb in Eb2. apply Z.leb_gt in Eb2.
    rewrite (record_at_page st rid pg Hv Hpg) in Hnone.
    assert ((0 <=? slotNum rid) && (slotNum rid <? numSlots pg) = true) as Er
      by (apply andb_range; lia).
    rewrite Er in Hnone.
    assert (recordLength pg (slotNum rid) <> -1) as Hlive.
    { intros Hd. apply Hnd. exists pg. repeat split; auto; lia. }
    destruct (slot_ok_record pg (slotNum rid) Hhdr (Hslots (slotNum rid) ltac:(lia)) Hlive)
      as (_ & _ & bs & Hbs & _).
    congruence. }
  rewrite Eu. cbn [snd]. exists RHF_INVALIDRID, st2, st2.
  split; [by right|]. done.
Qed.

(** X6 on the small file. *)
Lemma unknown_rid_rejected_witness :
  wf_file example_file /\ 0 = pf_fd example_file /\
  record_at example_file (mkRID 0 5) = None /\ ~ slot_deleted example_file (mkRID 0 5) /\
  exists rc st1 st2,
    (rc = PFE_INVALIDPAGE \/ rc = RHF_INVALIDRID) /\
    RHF_GetRecord 0 (mkRID 0 5) [9; 9; 9] 7 example_file = Ret (rc, [9; 9; 9], 7, st1) /\
    pf_same example_file st1 /\
    RHF_DeleteRecord 0 (mkRID 0 5) example_file = Ret (rc, st2) /\
    pf_same example_file st2.
Proof.
  assert (record_at example_file (mkRID 0 5) = None) as Hnone by (vm_compute; reflexivity).
  assert (~ slot_deleted example_file (mkRID 0 5)) as Hnd.
  { intros (pg & Hv & Hpg & Hr & _). destruct (example_file_page _ _ Hv Hpg) as [_ E].
    injection E as <-. vm_compute in Hr. destruct Hr as [_ Hr]. discriminate. }
  split; [exact example_file_wf_file|]. split; [reflexivity|].
  split; [exact Hnone|]. split; [exact Hnd|].
  exact (unknown_rid_rejected 0 (mkRID 0 5) [9; 9; 9] 7 example_file
           example_file_wf_file eq_refl Hnone Hnd).
Defined.

(** X7.  From a well-formed file, calls of [RHF_InsertRecord] with records of at
    most [MAX_RECORD] bytes and of [RHF_GetRecord] and [RHF_DeleteRecord] on
    slots not marked deleted, every [RHF_GetRecord] with a buffer that
    holds the record it copies, all return, none leaving the page buffer,
    and the file stays well formed: in every page the slot array ends
    before the records start, every slot in use describes bytes inside the
    page and the free slot list has no cycle. *)
Theorem allowed_calls_keep_file_well_formed fd ops st :
  wf_file st -> fd = pf_fd st -> ops_ok fd ops st ->
  exists rcs st',
    exec_all fd ops st = Ret (rcs, st') /\ length rcs = length ops /\
    wf_file st' /\ pf_fd st' = pf_fd st.
Proof.
  revert st. induction ops as [|op ops IH]; intros st Hwff Hfd Hok.
  - exists [], st. done.
  - destruct Hok as [Hop Hrest]. cbn [exec_all].
    destruct (exec_wf fd op st Hwff Hfd Hop) as (rc & st1 & E & Hwf1 & Hfd1 & _).
    rewrite E, obind_Ret_l. cbn [fst snd].
    destruct (IH st1 Hwf1 ltac:(congruence) (Hrest _ _ E)) as (rcs & st' & -> & Hlen & Hwf' & Hfd').
    rewrite obind_Ret_l. cbn [fst snd]. exists (rc :: rcs), st'.
    split; [done|]. split; [simpl; congruence|]. split; [done|congruence].
Qed.

(** X7 on the small file: the record in slot 1, of two bytes, is read
    into a buffer of 60 bytes and deleted, and a record is inserted. *)
Lemma allowed_calls_keep_file_well_formed_witness :
  wf_file example_file /\ 0 = pf_fd example_file /\
  ops_ok 0 [OpGet (mkRID 0 1) (repeat 0 60); OpDelete (mkRID 0 1); OpInsert [7; 8; 9] 3]
    example_file /\
  exists rcs st',
    exec_all 0 [OpGet (mkRID 0 1) (repeat 0 60); OpDelete (mkRID 0 1); OpInsert [7; 8; 9] 3]
      example_file = Ret (rcs, st') /\
    length rcs
    = length [OpGet (mkRID 0 1) (repeat 0 60); OpDelete (mkRID 0 1); OpInsert [7; 8; 9] 3] /\
    wf_file st' /\ pf_fd st' = pf_fd example_file.
Proof.
  assert (ops_ok 0 [OpGet (mkRID 0 1) (repeat 0 60); OpDelete (mkRID 0 1);
                    OpInsert [7; 8; 9] 3] example_file) as Hok.
  { split; [split|].
    - intros (pg & Hv & Hpg & _ & Hd). destruct (example_file_page _ _ Hv Hpg) as [_ E].
      injection E as <-. vm_compute in Hd. discriminate.
    - intros bs Hbs. vm_compute in Hbs. injection Hbs as <-. simpl. lia.
    - intros rc st' Hget. vm_compute in Hget. injection Hget as <- <-.
      split.
      + intros (pg & Hv & Hpg & _ & Hd). vm_compute in Hpg. injection Hpg as <-.
        vm_compute in Hd. discriminate.
      + intros rc st' _. split; [|done]. simpl. vm_compute. repeat split; discriminate. }
  split; [exact example_file_wf_file|]. split; [reflexivity|]. split; [exact Hok|].
  exact (allowed_calls_keep_file_well_formed 0
           [OpGet (mkRID 0 1) (repeat 0 60); OpDelete (mkRID 0 1); OpInsert [7; 8; 9] 3]
           example_file example_file_wf_file eq_refl Hok).
Defined.

(** ** Deleted slots and their reuse *)

Lemma wf_page_slot_range pg s : wf_page pg -> 0 <= s < numSlots pg -> 0 <= s < 510.
Proof.
  intros ((_ & _ & Hfsp) & _) Hs.
  unfold SIZEOF_HEADER, SIZEOF_SLOT, PF_PAGE_SIZE in Hfsp. lia.
Qed.

Lemma delete_from_page_heads pg s pg3 :
  0 <= s < 510 -> Z.of_nat (length pg) = PF_PAGE_SIZE ->
  delete_from_page pg s = Ret pg3 ->
  nextFreeSlot pg3 = s /\ recordOffset pg3 s = nextFreeSlot pg.
Proof.
  intros Hs Hlen Hdel.
  destruct (delete_from_page_spec pg s pg3 ltac:(lia) Hdel)
    as (nfs & Hnfs & Hoff & _ & Hhead & _).
  unfold nextFreeSlot, recordOffset.
  by rewrite (geti_load _ _ _ Hhead), (geti_load _ _ _ Hoff), (geti_load _ _ _ Hnfs).
Qed.

(** X8.  Where the sentinel works.  A record deleted from a page that had no
    free slot gets -1 in [recordOffset], the sign that [RHF_GetRecord] and
    [RHF_DeleteRecord] look for: both then return [RHF_NORECORD] for its
    RID, and the caller's buffer and length and the file are as before the
    call. *)
Theorem deleted_record_reported_when_no_slot_was_free
    fd rid st bs pg recordBuf length0 :
  wf_file st -> fd = pf_fd st -> record_at st rid = Some bs ->
  page_at st (pageNum rid) = Ret pg -> nextFreeSlot pg = -1 ->
  exists st1 st2 st3,
    RHF_DeleteRecord fd rid st = Ret (RHF_OK, st1) /\
    RHF_GetRecord fd rid recordBuf length0 st1
      = Ret (RHF_NORECORD, recordBuf, length0, st2) /\
    pf_same st1 st2 /\
    RHF_DeleteRecord fd rid st1 = Ret (RHF_NORECORD, st3) /\ pf_same st1 st3.
Proof.
  intros Hwff Hfd Hrec Hpg0 Hnfs.
  destruct (RHF_DeleteRecord_live fd rid st bs Hwff Hfd Hrec)
    as (pg' & pg3 & st1 & Hdel & Hv & Hpg & Hwfp & Hs & Hdp & Hwf3 & Hns3 & Hwf1 & Hfd1
        & Hv1 & Hpg1 & _).
  assert (pg' = pg) as -> by congruence.
  pose proof Hwfp as ((Hlen & _) & _).
  destruct (delete_from_page_heads pg (slotNum rid) pg3
              (wf_page_slot_range _ _ Hwfp Hs) Hlen Hdp) as [_ Hoff3].
  rewrite Hnfs in Hoff3.
  exists st1. unfold RHF_GetRecord, RHF_DeleteRecord at 2.
  destruct (PF_GetThisPage_valid fd _ st1 Hwf1 ltac:(congruence) Hv1) as [st1' Efix].
  rewrite Efix, Z.eqb_refl. cbn [negb].
  destruct (fix_this_page_at _ _ _ _ Efix) as (pgx & Hpgx & Hpgx1 & _ & H0).
  assert (pgx = pg3) as -> by congruence.
  destruct (fix_this_unfix_same _ _ _ _ Efix) as (st2 & Eu & Hsame).
  pose proof Hwf3 as ((Hlen3 & Hns0 & Hfsp3) & _).
  unfold SIZEOF_HEADER, SIZEOF_SLOT, PF_PAGE_SIZE in *.
  rewrite Hpgx1, !obind_Ret_l.
  rewrite (load_geti pg3 OFF_numSlots) by (unfold OFF_numSlots; lia).
  fold (numSlots pg3). rewrite !obind_Ret_l.
  assert ((slotNum rid <? 0) || (slotNum rid >=? numSlots pg3) = false) as ->.
  { apply orb_false_iff. rewrite Z.ltb_ge, Z.geb_leb, Z.leb_gt. lia. }
  rewrite (load_geti pg3 (OFF_recordOffset (slotNum rid)))
    by (unfold OFF_recordOffset, SIZEOF_HEADER, SIZEOF_SLOT; lia).
  fold (recordOffset pg3 (slotNum rid)). rewrite !obind_Ret_l, Hoff3.
  change (-1 =? -1) with true. cbv iota. rewrite Eu. cbn [snd].
  exists st2, st2. done.
Qed.

Lemma example_inserted_wf_file : wf_file example_inserted.
Proof.
  destruct (RHF_InsertRecord_wf 0 [7; 8; 9] 3 (mkRID 0 0) example_file
              example_file_wf_file eq_refl) as (rid & st' & Hins & Hwf' & _);
    [vm_compute; split; discriminate|simpl; lia|].
  assert (RHF_InsertRecord 0 [7; 8; 9] 3 (mkRID 0 0) example_file
          = Ret (RHF_OK, mkRID 0 0, example_inserted)) as E by (vm_compute; reflexivity).
  rewrite E in Hins. injection Hins as <- <-. exact Hwf'.
Qed.

(** X8 on the small file. *)
Lemma deleted_record_reported_when_no_slot_was_free_witness :
  wf_file example_inserted /\ 0 = pf_fd example_inserted /\
  record_at example_inserted (mkRID 0 1) = Some [4; 5] /\
  page_at example_inserted (pageNum (mkRID 0 1)) = Ret example_inserted_page /\
  nextFreeSlot example_inserted_page = -1 /\
  exists st1 st2 st3,
    RHF_DeleteRecord 0 (mkRID 0 1) example_inserted = Ret (RHF_OK, st1) /\
    RHF_GetRecord 0 (mkRID 0 1) [9; 9; 9] 7 st1 = Ret (RHF_NORECORD, [9; 9; 9], 7, st2) /\
    pf_same st1 st2 /\
    RHF_DeleteRecord 0 (mkRID 0 1) st1 = Ret (RHF_NORECORD, st3) /\ pf_same st1 st3.
Proof.
  assert (record_at example_inserted (mkRID 0 1) = Some [4; 5]) as Hrec
    by (vm_compute; reflexivity).
  assert (page_at example_inserted (pageNum (mkRID 0 1)) = Ret example_inserted_page) as Hpg
    by (vm_compute; reflexivity).
  assert (nextFreeSlot example_inserted_page = -1) as Hnfs by (vm_compute; reflexivity).
  split; [exact example_inserted_wf_file|]. split; [reflexivity|]. split; [exact Hrec|].
  split; [exact Hpg|]. split; [exact Hnfs|].
  exact (deleted_record_reported_when_no_slot_was_free 0 (mkRID 0 1) example_inserted
           [4; 5] example_inserted_page [9; 9; 9] 7
           example_inserted_wf_file eq_refl Hrec Hpg Hnfs).
Defined.

(** X10.  RIDs are used again.  When [RHF_DeleteRecord] has deleted a record and
    the next [RHF_InsertRecord] puts its record on the same page, the new
    record gets the RID of the deleted one: the slot deleted last is the
    head of the free slot list.  The old RID then designates the new
    record. *)
Theorem insert_reuses_rid_of_last_delete fd r st bs st1 record L rid0 rid st2 :
  wf_file st -> fd = pf_fd st -> record_at st r = Some bs ->
  RHF_DeleteRecord fd r st = Ret (RHF_OK, st1) ->
  0 <= L <= MAX_RECORD -> L <= Z.of_nat (length record) ->
  RHF_InsertRecord fd record L rid0 st1 = Ret (RHF_OK, rid, st2) ->
  pageNum rid = pageNum r ->
  rid = r /\ record_at st2 r = Some (take (Z.to_nat L) record).
Proof.
  intros Hwff Hfd Hrec Hdel HL HLr Hins Hpn.
  destruct (RHF_DeleteRecord_live fd r st bs Hwff Hfd Hrec)
    as (pg & pg3 & st1' & Hdel' & Hv & Hpg & Hwfp & Hs & Hdp & Hwf3 & Hns3 & Hwf1 & Hfd1
        & Hv1 & Hpg1 & _).
  rewrite Hdel in Hdel'. injection Hdel' as <-.
  pose proof Hwfp as ((Hlen & _) & _).
  destruct (delete_from_page_heads pg (slotNum r) pg3
              (wf_page_slot_range _ _ Hwfp Hs) Hlen Hdp) as [Hhead _].
  destruct (RHF_InsertRecord_page fd record L rid0 st1 rid st2 Hwf1 HL HLr Hins)
    as (pgi & pg5 & Hpage & Hwfi & Hspace & Hip & _).
  rewrite Hpn in Hpage.
  destruct Hpage as [(_ & Hpgi)|(Hnv & _)]; [|congruence].
  assert (pgi = pg3) as -> by congruence.
  pose proof Hwf3 as (Hhdr3 & _ & chain & _ & Hchain).
  destruct (insert_into_page_fields pg3 record L Hhdr3 ltac:(lia)) as
    (s & pg5' & Hip' & _ & _ & _ & _ & _ & _ & Hslot); [rewrite Hhead; lia|done|].
  rewrite Hip in Hip'. injection Hip' as <- <-.
  assert (rid = r) as ->.
  { destruct Hslot as [(_ & Hsr & _)|(Hnone & _)]; [|lia].
    destruct rid, r. simpl in *. congruence. }
  split; [done|].
  destruct (RHF_InsertRecord_wf fd record L rid0 st1 Hwf1 ltac:(congruence) HL HLr)
    as (rid' & st2' & Hins' & _ & _ & _ & Hnew & _).
  rewrite Hins in Hins'. by injection Hins' as <- <-.
Qed.

(** X10 on the small file. *)
Lemma insert_reuses_rid_of_last_delete_witness :
  wf_file example_inserted /\ 0 = pf_fd example_inserted /\
  record_at example_inserted (mkRID 0 0) = Some [7; 8; 9] /\
  RHF_DeleteRecord 0 (mkRID 0 0) example_inserted = Ret (RHF_OK, example_redeleted) /\
  0 <= 2 <= MAX_RECORD /\ 2 <= Z.of_nat (length [5; 6]) /\
  RHF_InsertRecord 0 [5; 6] 2 (mkRID 0 0) example_redeleted
    = Ret (RHF_OK, mkRID 0 0, example_reinserted) /\
  pageNum (mkRID 0 0) = pageNum (mkRID 0 0) /\
  mkRID 0 0 = mkRID 0 0 /\
  record_at example_reinserted (mkRID 0 0) = Some (take (Z.to_nat 2) [5; 6]).
Proof.
  assert (record_at example_inserted (mkRID 0 0) = Some [7; 8; 9]) as Hrec
    by (vm_compute; reflexivity).
  assert (RHF_DeleteRecord 0 (mkRID 0 0) example_inserted = Ret (RHF_OK, example_redeleted))
    as Hdel by (vm_compute; reflexivity).
  assert (0 <= 2 <= MAX_RECORD) as HL by (vm_compute; split; discriminate).
  assert (2 <= Z.of_nat (length [5; 6])) as Hlen by (simpl; lia).
  assert (RHF_InsertRecord 0 [5; 6] 2 (mkRID 0 0) example_redeleted
          = Ret (RHF_OK, mkRID 0 0, example_reinserted)) as Hins by (vm_compute; reflexivity).
  split; [exact example_inserted_wf_file|]. split; [reflexivity|]. split; [exact Hrec|].
  split; [exact Hdel|]. split; [exact HL|]. split; [exact Hlen|]. split; [exact Hins|].
  split; [reflexivity|].
  exact (insert_reuses_rid_of_last_delete 0 (mkRID 0 0) example_inserted [7; 8; 9]
           example_redeleted [5; 6] 2 (mkRID 0 0) (mkRID 0 0) example_reinserted
           example_inserted_wf_file eq_refl Hrec Hdel HL Hlen Hins eq_refl).
Defined.

(** X11.  What a record costs.  [RHF_InsertRecord] of a record of [L] bytes takes
    from the free space of its page [L] bytes, and 8 more for a new slot
    when the page has no free slot; the record lies at the end of what was
    the free space, from the new [freeSpacePtr] on.  The free space stays
    non-negative, and no other page of the file changes. *)
Theorem insert_takes_length_and_slot fd record L rid0 st rid st' :
  wf_file st -> 0 <= L <= MAX_RECORD -> L <= Z.of_nat (length record) ->
  RHF_InsertRecord fd record L rid0 st = Ret (RHF_OK, rid, st') ->
  exists pg pg',
    ((valid_page st (pageNum rid) = true /\ page_at st (pageNum rid) = Ret pg)
     \/ (valid_page st (pageNum rid) = false /\ rhf_InitPage zero_page = Ret pg)) /\
    page_at st' (pageNum rid) = Ret pg' /\
    free_space pg' = free_space pg - space_needed pg L /\ 0 <= free_space pg' /\
    freeSpacePtr pg' = freeSpacePtr pg - L /\
    recordOffset pg' (slotNum rid) = freeSpacePtr pg' /\
    recordLength pg' (slotNum rid) = L /\
    forall q, q <> pageNum rid -> valid_page st q = true -> page_at st' q = page_at st q.
Proof.
  intros Hwff HL HLr Hins.
  destruct (RHF_InsertRecord_page fd record L rid0 st rid st' Hwff HL HLr Hins)
    as (pg & pg5 & Hpage & Hwfp & Hspace & Hip & _ & Hpg5 & Hother).
  pose proof Hwfp as (Hhdr & _ & chain & _ & Hchain).
  assert (nextFreeSlot pg = -1 \/ 0 <= nextFreeSlot pg < numSlots pg) as Hnfs.
  { destruct chain as [|c cs]; [by left|]. destruct Hchain as (-> & ? & _). by right. }
  destruct (insert_into_page_fields pg record L Hhdr ltac:(lia) Hnfs Hspace)
    as (s & pg5' & Hip' & _ & Hfsp & Hoff & Hlen & _ & _ & Hslot).
  rewrite Hip in Hip'. injection Hip' as <- <-.
  exists pg, pg5. split; [done|]. split; [done|].
  assert (free_space pg5 = free_space pg - space_needed pg L) as Hfree.
  { unfold free_space, space_needed in *. rewrite Hfsp.
    destruct Hslot as [(Hne & _ & -> & _)|(-> & _ & -> & _)].
    - destruct (nextFreeSlot pg =? -1) eqn:E; [apply Z.eqb_eq in E; done|].
      unfold SIZEOF_HEADER, SIZEOF_SLOT. lia.
    - unfold SIZEOF_HEADER, SIZEOF_SLOT. simpl. lia. }
  split; [done|]. split; [lia|]. split; [done|]. split; [congruence|]. split; [done|].
  intros q Hq Hvq. by destruct (Hother q Hq Hvq).
Qed.

(** X11 on the small file. *)
Lemma insert_takes_length_and_slot_witness :
  wf_file example_file /\ 0 <= 3 <= MAX_RECORD /\ 3 <= Z.of_nat (length [7; 8; 9]) /\
  RHF_InsertRecord 0 [7; 8; 9] 3 (mkRID 0 0) example_file
    = Ret (RHF_OK, mkRID 0 0, example_inserted) /\
  exists pg pg',
    ((valid_page example_file (pageNum (mkRID 0 0)) = true /\
      page_at example_file (pageNum (mkRID 0 0)) = Ret pg)
     \/ (valid_page example_file (pageNum (mkRID 0 0)) = false /\
         rhf_InitPage zero_page = Ret pg)) /\
    page_at example_inserted (pageNum (mkRID 0 0)) = Ret pg' /\
    free_space pg' = free_space pg - space_needed pg 3 /\ 0 <= free_space pg' /\
    freeSpacePtr pg' = freeSpacePtr pg - 3 /\
    recordOffset pg' (slotNum (mkRID 0 0)) = freeSpacePtr pg' /\
    recordLength pg' (slotNum (mkRID 0 0)) = 3 /\
    forall q, q <> pageNum (mkRID 0 0) -> valid_page example_file q = true ->
      page_at example_inserted q = page_at example_file q.
Proof.
  assert (0 <= 3 <= MAX_RECORD) as HL by (vm_compute; split; discriminate).
  assert (3 <= Z.of_nat (length [7; 8; 9])) as Hlen by (simpl; lia).
  assert (RHF_InsertRecord 0 [7; 8; 9] 3 (mkRID 0 0) example_file
          = Ret (RHF_OK, mkRID 0 0, example_inserted)) as Hins by (vm_compute; reflexivity).
  split; [exact example_file_wf_file|]. split; [exact HL|]. split; [exact Hlen|].
  split; [exact Hins|].
  exact (insert_takes_length_and_slot 0 [7; 8; 9] 3 (mkRID 0 0) example_file (mkRID 0 0)
           example_inserted example_file_wf_file HL Hlen Hins).
Defined.

(** X12.  [RHF_GetRecord] does not know the size of the caller's buffer: with a
    buffer shorter than the record, its [memcpy] writes past the end of the
    buffer. *)
Theorem get_into_short_buffer_overruns fd rid recordBuf length0 st bs :
  wf_file st -> fd = pf_fd st ->
  record_at st rid = Some bs -> (length recordBuf < length bs)%nat ->
  RHF_GetRecord fd rid recordBuf length0 st = Undef.
Proof.
  intros Hwff Hfd Hrec Hbuf. pose proof Hwff as (Hwf & Hsz & Hav & Hpages).
  pose proof (record_at_valid _ _ _ Hrec) as Hv.
  unfold RHF_GetRecord.
  destruct (PF_GetThisPage_valid fd _ st Hwff Hfd Hv) as [st1 Efix].
  rewrite Efix, Z.eqb_refl. cbn [negb].
  destruct (fix_this_page_at _ _ _ _ Efix) as (pg & Hpg & Hpg1 & Hlook & H0).
  pose proof (Hpages _ _ Hv Hpg) as Hwfp. pose proof Hwfp as (Hhdr & Hslots & _).
  pose proof Hhdr as (Hlen & Hns & Hfsp).
  rewrite (record_at_page st rid pg Hv Hpg) in Hrec.
  destruct ((0 <=? slotNum rid) && (slotNum rid <? numSlots pg)) eqn:Er; [|discriminate].
  apply andb_range in Er.
  assert (recordLength pg (slotNum rid) <> -1) as Hlive.
  { intros Hd. unfold slot_record in Hrec. rewrite Hd in Hrec. discriminate. }
  destruct (slot_ok_record pg (slotNum rid) Hhdr (Hslots _ Er) Hlive)
    as (Hoff & Hlr & bs' & Hbs & Hlbs & Hload).
  assert (bs' = bs) as -> by congruence.
  unfold SIZEOF_HEADER, SIZEOF_SLOT, PF_PAGE_SIZE in *.
  rewrite Hpg1, obind_Ret_l.
  rewrite (load_geti pg OFF_numSlots) by (unfold OFF_numSlots; lia).
  fold (numSlots pg). rewrite obind_Ret_l.
  assert ((slotNum rid <? 0) || (slotNum rid >=? numSlots pg) = false) as ->.
  { apply orb_false_iff. rewrite Z.ltb_ge, Z.geb_leb, Z.leb_gt. lia. }
  rewrite (load_geti pg (OFF_recordOffset (slotNum rid)))
    by (unfold OFF_recordOffset, SIZEOF_HEADER, SIZEOF_SLOT; lia).
  fold (recordOffset pg (slotNum rid)). rewrite obind_Ret_l.
  destruct (recordOffset pg (slotNum rid) =? -1) eqn:Eo; [apply Z.eqb_eq in Eo; done|].
  rewrite (load_geti pg (OFF_recordLength (slotNum rid)))
    by (unfold OFF_recordLength, SIZEOF_HEADER, SIZEOF_SLOT; lia).
  fold (recordLength pg (slotNum rid)). rewrite obind_Ret_l.
  unfold memcpy_from_page.
  assert ((recordLength pg (slotNum rid) <? 0)
          || (Z.of_nat (length recordBuf) <? recordLength pg (slotNum rid)) = true) as ->.
  { apply orb_true_iff. right. apply Z.ltb_lt. lia. }
  done.
Qed.

(** X12 on the small file. *)
Lemma get_into_short_buffer_overruns_witness :
  wf_file example_file /\ 0 = pf_fd example_file /\
  record_at example_file (mkRID 0 1) = Some [4; 5] /\
  (length [9] < length [4; 5])%nat /\
  RHF_GetRecord 0 (mkRID 0 1) [9] 7 example_file = Undef.
Proof.
  assert (record_at example_file (mkRID 0 1) = Some [4; 5]) as Hrec
    by (vm_compute; reflexivity).
  assert (length [9] < length [4; 5])%nat as Hlen by (simpl; lia).
  split; [exact example_file_wf_file|]. split; [reflexivity|]. split; [exact Hrec|].
  split; [exact Hlen|].
  exact (get_into_short_buffer_overruns 0 (mkRID 0 1) [9] 7 example_file [4; 5]
           example_file_wf_file eq_refl Hrec Hlen).
Defined.

Lemma delete_from_page_returns pg s :
  Z.of_nat (length pg) = PF_PAGE_SIZE -> 0 <= s < 510 ->
  exists pg3, delete_from_page pg s = Ret pg3.
Proof.
  intros Hlen Hs. unfold PF_PAGE_SIZE in Hlen.
  unfold delete_from_page, OFF_nextFreeSlot, OFF_recordOffset, OFF_recordLength,
    SIZEOF_HEADER, SIZEOF_SLOT.
  rewrite (load_geti pg 8) by lia. rewrite obind_Ret_l.
  destruct (store_int_in_buf pg (12 + s * 8) (geti pg 8)) as [pg1 E1]; [lia..|].
  pose proof (store_int_Ret _ _ _ _ E1) as (_ & _ & Hl1).
  rewrite E1, obind_Ret_l.
  destruct (store_int_in_buf pg1 (12 + s * 8 + 4) (-1)) as [pg2 E2]; [lia..|].
  pose proof (store_int_Ret _ _ _ _ E2) as (_ & _ & Hl2).
  rewrite E2, obind_Ret_l.
  destruct (store_int_in_buf pg2 8 s) as [pg3 E3]; [lia..|]. eauto.
Qed.

(** X9.  Where the sentinel fails.  A record deleted from a page that had a free
    slot gets the number of that slot in [recordOffset], not -1.
    [RHF_GetRecord] of its RID then takes the slot for a record and calls
    [memcpy] with the length -1; a second [RHF_DeleteRecord] returns
    [RHF_OK] and makes the slot its own successor on the free slot list. *)
Theorem deleted_record_mistaken_when_a_slot_was_free
    fd rid st bs pg recordBuf length0 :
  wf_file st -> fd = pf_fd st -> record_at st rid = Some bs ->
  page_at st (pageNum rid) = Ret pg -> nextFreeSlot pg <> -1 ->
  exists st1 st2 pg2,
    RHF_DeleteRecord fd rid st = Ret (RHF_OK, st1) /\
    RHF_GetRecord fd rid recordBuf length0 st1 = Undef /\
    RHF_DeleteRecord fd rid st1 = Ret (RHF_OK, st2) /\
    page_at st2 (pageNum rid) = Ret pg2 /\
    nextFreeSlot pg2 = slotNum rid /\ recordOffset pg2 (slotNum rid) = slotNum rid.
Proof.
  intros Hwff Hfd Hrec Hpg0 Hnfs.
  destruct (RHF_DeleteRecord_live fd rid st bs Hwff Hfd Hrec)
    as (pg' & pg3 & st1 & Hdel & Hv & Hpg & Hwfp & Hs & Hdp & Hwf3 & Hns3 & Hwf1 & Hfd1
        & Hv1 & Hpg1 & _).
  assert (pg' = pg) as -> by congruence.
  pose proof Hwfp as ((Hlen & _) & _).
  pose proof (wf_page_slot_range _ _ Hwfp Hs) as Hs511.
  destruct (delete_from_page_heads pg (slotNum rid) pg3 Hs511 Hlen Hdp) as [Hhead3 Hoff3].
  destruct (delete_from_page_spec pg (slotNum rid) pg3 ltac:(lia) Hdp)
    as (_ & _ & _ & Hl3 & _).
  exists st1. unfold RHF_GetRecord, RHF_DeleteRecord at 2.
  destruct (PF_GetThisPage_valid fd _ st1 Hwf1 ltac:(congruence) Hv1) as [st1' Efix].
  rewrite Efix, Z.eqb_refl. cbn [negb].
  destruct (fix_this_page_at _ _ _ _ Efix) as (pgx & Hpgx & Hpgx1 & Hlook1 & H0).
  assert (pgx = pg3) as -> by congruence.
  pose proof Hwf3 as ((Hlen3 & Hns0 & Hfsp3) & _).
  destruct (delete_from_page_returns pg3 (slotNum rid) Hlen3 Hs511) as [pg4 Hdp4].
  destruct (delete_from_page_heads pg3 (slotNum rid) pg4 Hs511 Hlen3 Hdp4) as [Hhead4 Hoff4].
  destruct (fix_put_unfix _ _ _ _ pg4 true Efix) as (st2 & Eu & _ & _ & _ & Hd2 & _).
  unfold SIZEOF_HEADER, SIZEOF_SLOT, PF_PAGE_SIZE in *.
  rewrite Hpgx1, !obind_Ret_l.
  rewrite (load_geti pg3 OFF_numSlots) by (unfold OFF_numSlots; lia).
  fold (numSlots pg3). rewrite !obind_Ret_l.
  assert ((slotNum rid <? 0) || (slotNum rid >=? numSlots pg3) = false) as ->.
  { apply orb_false_iff. rewrite Z.ltb_ge, Z.geb_leb, Z.leb_gt. lia. }
  rewrite (load_geti pg3 (OFF_recordOffset (slotNum rid)))
    by (unfold OFF_recordOffset, SIZEOF_HEADER, SIZEOF_SLOT; lia).
  fold (recordOffset pg3 (slotNum rid)). rewrite !obind_Ret_l, Hoff3.
  destruct (nextFreeSlot pg =? -1) eqn:E; [apply Z.eqb_eq in E; done|].
  rewrite Hl3, Hdp4, !obind_Ret_l, Eu.
  exists st2, pg4. split; [done|]. split; [done|]. split; [done|].
  split.
  { apply page_at_lookup; [done|]. rewrite Hd2. apply list_lookup_insert_eq.
    by eapply lookup_lt_Some. }
  split; [done|]. by rewrite Hoff4.
Qed.

(** X9 on the small file. *)
Lemma deleted_record_mistaken_when_a_slot_was_free_witness :
  wf_file example_file /\ 0 = pf_fd example_file /\
  record_at example_file (mkRID 0 1) = Some [4; 5] /\
  page_at example_file (pageNum (mkRID 0 1)) = Ret example_page /\
  nextFreeSlot example_page <> -1 /\
  exists st1 st2 pg2,
    RHF_DeleteRecord 0 (mkRID 0 1) example_file = Ret (RHF_OK, st1) /\
    RHF_GetRecord 0 (mkRID 0 1) [9; 9; 9] 7 st1 = Undef /\
    RHF_DeleteRecord 0 (mkRID 0 1) st1 = Ret (RHF_OK, st2) /\
    page_at st2 (pageNum (mkRID 0 1)) = Ret pg2 /\
    nextFreeSlot pg2 = slotNum (mkRID 0 1) /\
    recordOffset pg2 (slotNum (mkRID 0 1)) = slotNum (mkRID 0 1).
Proof.
  assert (record_at example_file (mkRID 0 1) = Some [4; 5]) as Hrec
    by (vm_compute; reflexivity).
  assert (page_at example_file (pageNum (mkRID 0 1)) = Ret example_page) as Hpg
    by (vm_compute; reflexivity).
  assert (nextFreeSlot example_page <> -1) as Hnfs by (vm_compute; discriminate).
  split; [exact example_file_wf_file|]. split; [reflexivity|]. split; [exact Hrec|].
  split; [exact Hpg|]. split; [exact Hnfs|].
  exact (deleted_record_mistaken_when_a_slot_was_free 0 (mkRID 0 1) example_file
           [4; 5] example_page [9; 9; 9] 7
           example_file_wf_file eq_refl Hrec Hpg Hnfs).
Defined.

(** X14.  [RHF_InsertRecord] hands its page back dirty.  A call that returns
    [RHF_OK] leaves the page of the RID dirty, and a call that returns,
    whatever its code, has changed the bytes of no other page: the paged
    file layer is told of every page it has to write to disk. *)
Theorem insert_leaves_its_page_dirty fd record L rid0 st rc rid st' :
  pf_wf st ->
  RHF_InsertRecord fd record L rid0 st = Ret (rc, rid, st') ->
  (rc = RHF_OK -> dirty_flag st' (Z.to_nat (pageNum rid)) = true) /\
  (forall q, pf_data st' !! q <> pf_data st !! q ->
     rc = RHF_OK /\ q = Z.to_nat (pageNum rid)).
Proof.
  intros Hwf Hins.
  destruct (RHF_InsertRecord_flagged _ _ _ _ _ _ _ _ Hwf Hins) as [_ Hdirty].
  split; [done|]. intros q Hq.
  destruct (RHF_InsertRecord_spec _ _ _ _ _ _ _ _ Hwf Hins)
    as [(_ & _ & (_ & _ & _ & Hd & _))|(Hrc & _ & _ & _ & _ & H0 & _ & pg & pg5 & _ & Hc)].
  { by rewrite Hd in Hq. }
  split; [done|].
  destruct Hc as [(_ & _ & _ & _ & Hd & _)
                 |(_ & _ & [(rest & _ & _ & _ & Hd & _)|(_ & _ & Hpn & Hd & _)])].
  - rewrite Hd in Hq. by apply lookup_insert_changed in Hq.
  - rewrite Hd in Hq. by apply lookup_insert_changed in Hq.
  - rewrite Hd in Hq. rewrite Hpn, Nat2Z.id. unfold num_pages.
    destruct (decide (q < length (pf_data st))%nat).
    + by rewrite lookup_app_l in Hq.
    + destruct (decide (q = length (pf_data st))); [done|].
      rewrite lookup_app_r, (lookup_ge_None_2 (pf_data st)) in Hq by lia.
      destruct (q - length (pf_data st))%nat eqn:E; [lia|]. simpl in Hq. done.
Qed.

(** X14 on the small file. *)
Lemma insert_leaves_its_page_dirty_witness :
  pf_wf example_file /\
  RHF_InsertRecord 0 [7; 8; 9] 3 (mkRID 0 0) example_file
    = Ret (RHF_OK, mkRID 0 0, example_inserted) /\
  (RHF_OK = RHF_OK -> dirty_flag example_inserted (Z.to_nat (pageNum (mkRID 0 0))) = true) /\
  (forall q, pf_data example_inserted !! q <> pf_data example_file !! q ->
     RHF_OK = RHF_OK /\ q = Z.to_nat (pageNum (mkRID 0 0))).
Proof.
  assert (RHF_InsertRecord 0 [7; 8; 9] 3 (mkRID 0 0) example_file
          = Ret (RHF_OK, mkRID 0 0, example_inserted)) as Hins by (vm_compute; reflexivity).
  split; [exact example_file_wf|]. split; [exact Hins|].
  exact (insert_leaves_its_page_dirty 0 [7; 8; 9] 3 (mkRID 0 0) example_file RHF_OK
           (mkRID 0 0) example_inserted example_file_wf Hins).
Defined.

(** ** The records of testrhf.c *)

Lemma store_char_Ret name i c :
  0 <= i < Z.of_nat (length name) ->
  store_char name i c = Ret (<[Z.to_nat i := c]> name).
Proof.
  intros Hi. unfold store_char.
  assert ((0 <=? i) && (i <? Z.of_nat (length name)) = true) as ->; [|done].
  apply andb_true_iff. rewrite Z.leb_le, Z.ltb_lt. lia.
Qed.

Lemma get_random_name_loop_spec n i rand k name :
  (forall j, 0 <= rand j) ->
  (i + n <= length name)%nat ->
  exists name',
    get_random_name_loop n (Z.of_nat i) rand k name = Ret (name', (k + n)%nat) /\
    length name' = length name /\
    (forall j, (j < i)%nat -> name' !! j = name !! j) /\
    (forall j, (i <= j < i + n)%nat -> exists c, name' !! j = Some c /\ 97 <= c <= 122).
Proof.
  intros Hrand. revert i k name. induction n as [|n IH]; intros i k name Hlen.
  - exists name. rewrite Nat.add_0_r. split; [done|]. split; [done|].
    split; [done|]. intros; lia.
  - cbn [get_random_name_loop]. rewrite store_char_Ret by lia. rewrite obind_Ret_l.
    rewrite Nat2Z.id. replace (Z.of_nat i + 1) with (Z.of_nat (S i)) by lia.
    set (c0 := 97 + Z.rem (rand k) 26).
    assert (97 <= c0 <= 122) as Hc0.
    { unfold c0. pose proof (Hrand k).
      pose proof (Z.rem_bound_pos (rand k) 26 ltac:(lia) ltac:(lia)). lia. }
    destruct (IH (S i) (S k) (<[i := c0]> name)) as (name' & -> & Hl & Hkeep & Hchars).
    { rewrite length_insert. lia. }
    rewrite length_insert in Hl.
    exists name'. split; [f_equal; f_equal; lia|]. split; [done|]. split.
    + intros j Hj. rewrite (Hkeep j) by lia. apply list_lookup_insert_ne. lia.
    + intros j Hj. destruct (decide (j = i)) as [->|Hne].
      * exists c0. split; [|done]. rewrite (Hkeep i) by lia.
        apply list_lookup_insert_eq. lia.
      * apply Hchars. lia.
Qed.

Lemma strlen_spec (n : nat) s :
  (forall j, (j < n)%nat -> exists c, s !! j = Some c /\ c <> 0) ->
  s !! n = Some 0 -> strlen s = Ret (Z.of_nat n).
Proof.
  revert s. induction n as [|n IH]; intros s Hchars Hnul.
  - destruct s as [|c s]; [discriminate|]. simpl in Hnul. injection Hnul as ->. done.
  - destruct s as [|c s]; [discriminate|]. cbn [strlen].
    destruct (Hchars 0%nat ltac:(lia)) as (c' & Hc' & Hne). simpl in Hc'. injection Hc' as ->.
    destruct (c' =? 0) eqn:E; [apply Z.eqb_eq in E; done|].
    rewrite (IH s); [rewrite obind_Ret_l; f_equal; lia| |done].
    intros j Hj. apply (Hchars (S j)). lia.
Qed.

(** X13.  The records that testrhf.c inserts.  [get_random_name] writes inside
    the 51 chars of [name]: between 10 and 50 lower-case letters and a NUL;
    [get_record_size] of the student is then the length of the name plus 9,
    at most 59: within [sizeof(Student)], the size of the struct the record
    is read from and of the buffer the test scans into, and far below what
    a page holds. *)
Theorem random_name_record_fits rand k name :
  (forall j, 0 <= rand j) -> Z.of_nat (length name) = MAX_NAME_LEN + 1 ->
  exists name' k' len,
    get_random_name rand k name = Ret (name', k') /\
    length name' = length name /\
    MIN_NAME_LEN <= len <= MAX_NAME_LEN /\
    strlen name' = Ret len /\
    (forall i, 0 <= i < len ->
       exists c, name' !! Z.to_nat i = Some c /\ 97 <= c <= 122) /\
    get_record_size name' = Ret (len + 9) /\
    len + 9 < SIZEOF_Student /\ SIZEOF_Student <= MAX_RECORD.
Proof.
  intros Hrand Hlen. unfold MIN_NAME_LEN, MAX_NAME_LEN in *.
  unfold get_random_name, MIN_NAME_LEN, MAX_NAME_LEN.
  change (50 - 10 + 1) with 41.
  set (len := 10 + Z.rem (rand k) 41).
  assert (10 <= len <= 50) as Hl.
  { unfold len. pose proof (Hrand k).
    pose proof (Z.rem_bound_pos (rand k) 41 ltac:(lia) ltac:(lia)). lia. }
  destruct (get_random_name_loop_spec (Z.to_nat len) 0 rand (S k) name Hrand ltac:(lia))
    as (name1 & Hrun & Hl1 & _ & Hchars).
  change (Z.of_nat 0) with 0 in Hrun. rewrite Hrun, obind_Ret_l. cbn [fst snd].
  rewrite store_char_Ret by lia. rewrite obind_Ret_l.
  exists (<[Z.to_nat len := 0]> name1), (S k + Z.to_nat len)%nat, len.
  split; [done|]. split; [by rewrite length_insert|]. split; [done|].
  assert (strlen (<[Z.to_nat len := 0]> name1) = Ret len) as Hstr.
  { rewrite <- (Z2Nat.id len) at 2 by lia. apply strlen_spec.
    - intros j Hj. destruct (Hchars j ltac:(lia)) as (c & Hc & Hr).
      exists c. split; [|lia]. rewrite list_lookup_insert_ne by lia. done.
    - apply list_lookup_insert_eq. lia. }
  split; [done|]. split.
  { intros i Hi. destruct (Hchars (Z.to_nat i) ltac:(lia)) as (c & Hc & Hr).
    exists c. split; [|done]. rewrite list_lookup_insert_ne by lia. done. }
  split.
  { unfold get_record_size. rewrite Hstr, obind_Ret_l. f_equal.
    rewrite wrap32_id by lia. lia. }
  unfold SIZEOF_Student, MAX_RECORD, PF_PAGE_SIZE, SIZEOF_HEADER, SIZEOF_SLOT. lia.
Qed.

(** X13 for a [rand()] that always returns 7. *)
Lemma random_name_record_fits_witness :
  (forall j : nat, 0 <= (fun _ : nat => 7) j) /\
  Z.of_nat (length (repeat 0 51)) = MAX_NAME_LEN + 1 /\
  exists name' k' len,
    get_random_name (fun _ => 7) 0 (repeat 0 51) = Ret (name', k') /\
    length name' = length (repeat 0 51) /\
    MIN_NAME_LEN <= len <= MAX_NAME_LEN /\
    strlen name' = Ret len /\
    (forall i, 0 <= i < len ->
       exists c, name' !! Z.to_nat i = Some c /\ 97 <= c <= 122) /\
    get_record_size name' = Ret (len + 9) /\
    len + 9 < SIZEOF_Student /\ SIZEOF_Student <= MAX_RECORD.
Proof.
  assert (forall j : nat, 0 <= (fun _ : nat => 7) j) as Hrand by (intros j; simpl; lia).
  assert (Z.of_nat (length (repeat 0 51)) = MAX_NAME_LEN + 1) as Hlen
    by (vm_compute; reflexivity).
  split; [exact Hrand|]. split; [exact Hlen|].
  exact (random_name_record_fits (fun _ => 7) 0 (repeat 0 51) Hrand Hlen).
Defined.
